(** * Agent packager: module plan resolution, execution and validation

    A shallow embedding of [agent_packager/packager.py] and
    [agent_packager/utils.py], and the properties of the module
    installation policy proved over it.

    Layout:
    - [Str]: the string operations the code uses ([lower], [replace],
      [format] of the fixed templates).
    - [Re]: the part of Python's [re] that [check_installed] relies on.
    - [Utils]: [utils.py] over an abstract operating system.
    - [Packager]: [packager.py].
    - [Download]: [download_file] of [utils.py], given what
      [requests.get] and [open] do.
    - the theorems. *)

From Stdlib Require Import ZArith Ascii Bool Lia.
From Stdlib Require String.
From stdpp Require Import gmap strings list fin_maps.

Local Open Scope Z_scope.

(* ===================================================================== *)
(** ** Strings *)
(* ===================================================================== *)

Module Str.

(** [c.lower()] on one byte: only [A]..[Z] change. *)
Definition lower_ascii (c : ascii) : ascii :=
  let n := nat_of_ascii c in
  if (Nat.leb 65 n && Nat.leb n 90)%bool then ascii_of_nat (n + 32) else c.

(** [s.lower()] *)
Fixpoint lower (s : string) : string :=
  match s with
  | EmptyString => EmptyString
  | String c t => String (lower_ascii c) (lower t)
  end.

(** [s.replace(a, b)] for one-character [a] and [b]. *)
Fixpoint replace (a b : ascii) (s : string) : string :=
  match s with
  | EmptyString => EmptyString
  | String c t => String (if Ascii.eqb c a then b else c) (replace a b t)
  end.

(** Python truthiness of a string: [''] is the only false one. *)
Definition truthy (s : string) : bool :=
  match s with EmptyString => false | String _ _ => true end.

Definition chars (s : string) : list ascii :=
  String.list_ascii_of_string s.

End Str.

(* ===================================================================== *)
(** ** Regular expressions: the fragment of [re] that is modelled

    [utils.check_installed] hands the module name to [re.search] as the
    pattern.  The model covers patterns built from literal characters,
    [.], a backslash before a non-alphanumeric character, the postfix
    operators [*], [+], [?] (each optionally followed by the lazy mark
    [?]) and top-level alternation [|].  Reading such a pattern either
    gives its branches or stops where [re] raises an error ("nothing
    to repeat", "multiple repeat", a trailing backslash).  A pattern
    that uses anything else ([[], [{], [(], [)], [^], [$], a backslash
    before a letter or digit, a [+] right after a repeat operator,
    which is an error for the [re] of Python 2 and a possessive mark
    for later ones) is left to [re] itself: the parser answers
    [Unmodelled] as soon as it meets one of these, and what [re.search]
    answers then is a parameter of the model. *)
(* ===================================================================== *)

Module Re.

Inductive atom := Lit (c : ascii) | AnyChar.
Inductive quant := One | Opt | Star | Plus.

Definition item : Type := atom * quant.
Definition branch : Type := list item.
Definition pattern : Type := list branch.

(** [sre_parse.SPECIAL_CHARS] *)
Definition SPECIAL_CHARS : list ascii := Str.chars ".\[{()*+?^$|".

Definition is_special (c : ascii) : bool :=
  existsb (Ascii.eqb c) SPECIAL_CHARS.

Definition is_alnum (c : ascii) : bool :=
  let n := nat_of_ascii c in
  ((Nat.leb 48 n && Nat.leb n 57) || (Nat.leb 65 n && Nat.leb n 90)
   || (Nat.leb 97 n && Nat.leb n 122))%bool.

Definition quant_of (c : ascii) : option quant :=
  if Ascii.eqb c "*" then Some Star
  else if Ascii.eqb c "+" then Some Plus
  else if Ascii.eqb c "?" then Some Opt
  else None.

(** What reading a pattern gives: its branches, an error of [re], or
    nothing that the model can say. *)
Inductive parsed :=
| Pattern (p : pattern)
| Rejected
| Unmodelled.

(** The parser walks the pattern once, from left to right, as
    [sre_parse] does.  [alts] are the finished branches and [cur] the
    items of the branch being read, both most recent first; [lazy_ok]
    says that the previous character was a repeat operator, so that a
    [?] now is its lazy mark. *)
Fixpoint sre_parse_from (s : list ascii) (alts : list branch)
         (cur : branch) (lazy_ok : bool) : parsed :=
  match s with
  | [] => Pattern (rev (rev cur :: alts))
  | c :: t =>
      if Ascii.eqb c "|" then sre_parse_from t (rev cur :: alts) [] false
      else if Ascii.eqb c "." then
        sre_parse_from t alts ((AnyChar, One) :: cur) false
      else if Ascii.eqb c "\" then
        match t with
        | e :: t' =>
            if is_alnum e then Unmodelled
            else sre_parse_from t' alts ((Lit e, One) :: cur) false
        | [] => Rejected
        end
      else
        match quant_of c with
        | Some q =>
            match cur with
            | (a, One) :: cur' => sre_parse_from t alts ((a, q) :: cur') true
            | _ :: _ =>
                if (lazy_ok && Ascii.eqb c "?")%bool
                then sre_parse_from t alts cur false
                else if (lazy_ok && Ascii.eqb c "+")%bool
                then Unmodelled
                else Rejected
            | [] => Rejected
            end
        | None =>
            if is_special c then Unmodelled
            else sre_parse_from t alts ((Lit c, One) :: cur) false
        end
  end.

Definition sre_parse (s : list ascii) : parsed :=
  sre_parse_from s [] [] false.

(** [.] matches anything but a newline (no [DOTALL]). *)
Definition atom_ok (a : atom) (c : ascii) : bool :=
  match a with
  | Lit x => Ascii.eqb x c
  | AnyChar => negb (Ascii.eqb c "010")
  end.

(** One character accepted by [a], then [k] on the rest. *)
Definition match_one (a : atom) (k : list ascii -> bool) (s : list ascii)
  : bool :=
  match s with
  | c :: t => atom_ok a c && k t
  | [] => false
  end.

(** Any number of characters accepted by [a], then [k] on the rest. *)
Fixpoint match_star (a : atom) (k : list ascii -> bool) (s : list ascii)
  : bool :=
  k s
  || match s with
     | c :: t => atom_ok a c && match_star a k t
     | [] => false
     end.

(** Does a prefix of [s] match the items? *)
Fixpoint match_here (its : branch) (s : list ascii) : bool :=
  match its with
  | [] => true
  | (a, q) :: r =>
      match q with
      | One => match_one a (match_here r) s
      | Opt => match_here r s || match_one a (match_here r) s
      | Star => match_star a (match_here r) s
      | Plus => match_one a (match_star a (match_here r)) s
      end
  end.

(** Does the branch match somewhere in [s]? *)
Fixpoint search_branch (its : branch) (s : list ascii) : bool :=
  match_here its s
  || match s with
     | _ :: t => search_branch its t
     | [] => false
     end.

Definition search_pattern (p : pattern) (s : list ascii) : bool :=
  existsb (fun b => search_branch b s) p.

(** [bool(re.search(pattern, text))], or [None] when [re.search]
    raises.  [beyond] is what [re.search] answers for the patterns that
    the model leaves to it. *)
Definition search (beyond : string -> string -> option bool)
           (pat text : string) : option bool :=
  match sre_parse (Str.chars pat) with
  | Pattern p => Some (search_pattern p (Str.chars text))
  | Rejected => None
  | Unmodelled => beyond pat text
  end.

(** *** The language of a pattern, stated without the matcher *)

Definition item_lang (it : item) (w : list ascii) : Prop :=
  let '(a, q) := it in
  match q with
  | One => exists c, w = [c] /\ atom_ok a c = true
  | Opt => w = [] \/ exists c, w = [c] /\ atom_ok a c = true
  | Star => Forall (fun c => atom_ok a c = true) w
  | Plus => w <> [] /\ Forall (fun c => atom_ok a c = true) w
  end.

Fixpoint branch_lang (its : branch) (w : list ascii) : Prop :=
  match its with
  | [] => w = []
  | it :: r => exists u v : list ascii,
      w = u ++ v /\ item_lang it u /\ branch_lang r v
  end.

Definition pattern_lang (p : pattern) (w : list ascii) : Prop :=
  Exists (fun b => branch_lang b w) p.

(** [w] occurs in [s]. *)
Definition occurs_in (w s : list ascii) : Prop :=
  exists pre post : list ascii, s = pre ++ w ++ post.

(** A pattern without any special character. *)
Definition literal (s : list ascii) : Prop :=
  Forall (fun c => is_special c = false) s.

(** The branch that a literal pattern stands for. *)
Definition lits (s : list ascii) : branch :=
  map (fun c => (Lit c, One)) s.

End Re.

(* ===================================================================== *)
(** ** Computations: a world, the calls made, and how the run ends *)
(* ===================================================================== *)

(** What [subprocess.Popen(...).communicate()] leaves in [p]. *)
Record proc := { returncode : Z; stdout : string }.

(** The calls into [utils] and into [os]/[shutil] that change or read the
    environment, in the order they are made. *)
Inductive event :=
| Ev_make_virtualenv (virtualenv_dir python : string)
| Ev_install_module (module venv : string)
| Ev_uninstall_module (module venv : string)
| Ev_check_installed (module venv : string)
| Ev_get_installed (venv : string)
| Ev_tar (source destination : string)
| Ev_rmtree (path : string)
| Ev_remove (path : string).

(** How a computation ends: it returns, it leaves through [sys.exit], or
    an exception that nothing catches ends it.  In [packager.py] that
    is [re.search] raising on the pattern it is given; in
    [download_file] it is [requests.get], the stream or [open]
    raising. *)
Inductive result (A : Type) :=
| Ret (a : A)
| Exit (code : Z)
| Raised.
Arguments Ret {A} a.
Arguments Exit {A} code.
Arguments Raised {A}.

(** The operating system the scripts run on, and what the model takes
    from the Python library as it is. *)
Record OS (world : Type) := {
  run_cmd : string -> world -> world * proc;
  os_path_isdir : string -> world -> bool;
  os_path_isfile : string -> world -> bool;
  os_path_exists : string -> world -> bool;
  shutil_rmtree : string -> world -> world;
  os_remove : string -> world -> world;
  (** [platform.dist()]; [None] when it raises *)
  platform_dist : option (string * string * string);
  (** [bool(re.search(pattern, text))] for a pattern outside the
      fragment that [Re] models; [None] when it raises *)
  re_search_beyond : string -> string -> option bool
}.
Arguments run_cmd {world} _ _ _.
Arguments os_path_isdir {world} _ _ _.
Arguments os_path_isfile {world} _ _ _.
Arguments os_path_exists {world} _ _ _.
Arguments shutil_rmtree {world} _ _ _.
Arguments os_remove {world} _ _ _.
Arguments platform_dist {world} _.
Arguments re_search_beyond {world} _ _ _.

(** Modelled from the spec: [codes.errors], the table of exit codes of
    the [codes] module, which is not among the sources.  Only the keys
    that [utils.py] reads are listed; their values are left open. *)
Record error_codes := {
  could_not_create_virtualenv : Z;
  could_not_install_module : Z;
  could_not_uninstall_module : Z;
  failed_to_create_tar : Z
}.

Definition M (world A : Type) : Type :=
  world -> world * list event * result A.

Definition ret {world A} (a : A) : M world A := fun w => (w, [], Ret a).

Definition bind {world A B} (m : M world A) (f : A -> M world B)
  : M world B :=
  fun w =>
    match m w with
    | (w1, t1, Ret a) =>
        match f a w1 with
        | (w2, t2, r) => (w2, t1 ++ t2, r)
        end
    | (w1, t1, Exit c) => (w1, t1, Exit c)
    | (w1, t1, Raised) => (w1, t1, Raised)
    end.

Definition sys_exit {world A} (code : Z) : M world A :=
  fun w => (w, [], Exit code).

Definition raise {world A} : M world A := fun w => (w, [], Raised).

Definition emit {world} (e : event) : M world unit :=
  fun w => (w, [e], Ret tt).

Notation "x <- m ;; k" := (bind m (fun x => k))
  (at level 100, m at next level, right associativity).
Notation "m ;;; k" := (bind m (fun _ => k))
  (at level 100, right associativity).

(** [for x in l: f(x)] *)
Fixpoint for_each {world A} (l : list A) (f : A -> M world unit)
  : M world unit :=
  match l with
  | [] => ret tt
  | x :: r => f x ;;; for_each r f
  end.

(** [for x in l: acc = f(x, acc)], for a loop that grows a list *)
Fixpoint for_fold {world A S} (l : list A) (f : A -> S -> M world S) (acc : S)
  : M world S :=
  match l with
  | [] => ret acc
  | x :: r => acc' <- f x acc ;; for_fold r f acc'
  end.

Definition world_of {world A} (x : world * list event * result A) : world :=
  x.1.1.
Definition trace_of {world A} (x : world * list event * result A)
  : list event := x.1.2.
Definition result_of {world A} (x : world * list event * result A)
  : result A := x.2.

(* ===================================================================== *)
(** ** utils.py *)
(* ===================================================================== *)

Module Utils.
Section WithOS.
Context {world : Type} (os : OS world) (codes : error_codes).

(** [run(cmd)]: the command is handed to the shell. *)
Definition run (cmd : string) : M world proc :=
  fun w => let (w', p) := run_cmd os cmd w in (w', [], Ret p).

Definition make_virtualenv (virtualenv_dir python : string)
  : M world unit :=
  emit (Ev_make_virtualenv virtualenv_dir python) ;;;
  p <- run ("virtualenv -p " +:+ python +:+ " " +:+ virtualenv_dir) ;;
  if negb (returncode p =? 0)
  then sys_exit (could_not_create_virtualenv codes)
  else ret tt.

Definition install_module (module venv : string) : M world unit :=
  emit (Ev_install_module module venv) ;;;
  let pip_cmd :=
    if String.eqb module "pre"
    then venv +:+ "/bin/pip install " +:+ module +:+ " --pre"
    else venv +:+ "/bin/pip install " +:+ module in
  p <- run pip_cmd ;;
  if negb (returncode p =? 0)
  then sys_exit (could_not_install_module codes)
  else ret tt.

Definition uninstall_module (module venv : string) : M world unit :=
  emit (Ev_uninstall_module module venv) ;;;
  let pip_cmd := venv +:+ "/bin/pip uninstall " +:+ module +:+ " -y" in
  p <- run pip_cmd ;;
  if negb (returncode p =? 0)
  then sys_exit (could_not_uninstall_module codes)
  else ret tt.

Definition pip_freeze_cmd (venv : string) : string :=
  venv +:+ "/bin/pip freeze".

Definition get_installed (venv : string) : M world string :=
  emit (Ev_get_installed venv) ;;;
  p <- run (pip_freeze_cmd venv) ;;
  ret (stdout p).

(** The test of [check_installed], on the text that [pip freeze]
    printed. *)
Definition listed (module listing : string) : option bool :=
  Re.search (re_search_beyond os) module (Str.lower listing).

Definition check_installed (module venv : string) : M world bool :=
  emit (Ev_check_installed module venv) ;;;
  p <- run (pip_freeze_cmd venv) ;;
  match listed module (stdout p) with
  | Some true => ret true
  | Some false => ret false
  | None => raise
  end.

Definition tar (source destination : string) : M world unit :=
  emit (Ev_tar source destination) ;;;
  r <- run ("tar czvf " +:+ destination +:+ " " +:+ source) ;;
  if negb (returncode r =? 0)
  then sys_exit (failed_to_create_tar codes)
  else ret tt.

End WithOS.
End Utils.

(* ===================================================================== *)
(** ** packager.py *)
(* ===================================================================== *)

Module Packager.

(** ['{0}-{1}-agent.tar.gz'.format(distro, release)] *)
Definition DEFAULT_OUTPUT_TAR_PATH (distro release : string) : string :=
  distro +:+ "-" +:+ release +:+ "-agent.tar.gz".

(** ['cloudify/{0}-{1}-agent/env'.format(distro, release)] *)
Definition DEFAULT_VENV_PATH (distro release : string) : string :=
  "cloudify/" +:+ distro +:+ "-" +:+ release +:+ "-agent/env".

Definition EXTERNAL_MODULES : list string := ["celery==3.0.24"].

Definition MODULES_LIST : list string :=
  ["cloudify_rest_client";
   "cloudify_plugins_common";
   "cloudify_script_plugin";
   "cloudify_diamond_plugin"].

Definition MANDATORY_MODULES : list string :=
  ["cloudify_plugins_common"; "cloudify_rest_client"].

(** [DEFAULT_CLOUDIFY_AGENT_URL.format(version)] *)
Definition DEFAULT_CLOUDIFY_AGENT_URL (version : string) : string :=
  "https://github.com/nir0s/cloudify-agent/archive/" +:+ version
    +:+ ".tar.gz".

(** The configuration dictionary: a field is [None] when the key is
    absent.  Module sources are strings; the empty string stands for
    every false value. *)
Record config := {
  distribution : option string;
  release : option string;
  python_path : option string;
  venv : option string;
  keep_venv : option bool;
  output_tar : option string;
  core_modules : option (gmap string string);
  additional_modules : option (list string);
  cloudify_agent_module : option string;
  cloudify_agent_version : option string
}.

(** The [modules] dictionary: [agent] is [None] when the key is
    absent. *)
Record modules := {
  core : gmap string string;
  additional : list string;
  agent : option string
}.

(** Truthiness of [d.get(k)]: an absent key gives [None], which is
    false. *)
Definition truthy_get (o : option string) : bool :=
  match o with
  | Some s => Str.truthy s
  | None => false
  end.

Definition get_module_name (module : string) : string :=
  Str.replace "_" "-" module.

Section WithOS.
Context {world : Type} (os : OS world) (codes : error_codes).

Definition _merge_modules (modules0 : modules) (config : config)
  : M world modules :=
  let additional_modules := default [] (additional_modules config) in
  (* dict.update: the keys of the argument win *)
  let core1 := default ∅ (core_modules config) ∪ core modules0 in
  agent1 <-
    match cloudify_agent_module config with
    | Some m => ret m
    | None =>
        match cloudify_agent_version config with
        | Some v => ret (DEFAULT_CLOUDIFY_AGENT_URL v)
        | None => sys_exit 3
        end
    end ;;
  ret {| core := core1;
         additional := additional modules0 ++ additional_modules;
         agent := Some agent1 |}.

(** The inner [check] of [_validate]; the list [failed] is passed
    along. *)
Definition check (module venv : string) (failed : list string)
  : M world (list string) :=
  let module_name := get_module_name module in
  b <- Utils.check_installed os module_name venv ;;
  if negb b then ret (failed ++ [module_name]) else ret failed.

(** The three loops of [_validate], up to the final test of
    [failed]. *)
Definition _validate_failed (modules : modules) (venv : string)
  : M world (list string) :=
  failed <-
    for_fold (map_to_list (core modules))
      (fun '(core_module, source) failed =>
         if (Str.truthy source && negb (String.eqb source "exclude"))%bool
         then check core_module venv failed
         else ret failed)
      [] ;;
  failed <-
    for_fold (additional modules)
      (fun additional_module failed => check additional_module venv failed)
      failed ;;
  match agent modules with
  | Some _ => check "cloudify-agent" venv failed
  | None => ret failed
  end.

Definition _validate (modules : modules) (venv : string) : M world unit :=
  failed <- _validate_failed modules venv ;;
  match failed with
  | _ :: _ => sys_exit 10
  | [] => ret tt
  end.

(** [# install external] *)
Definition install_external (venv : string) : M world unit :=
  for_each EXTERNAL_MODULES (fun ext_module =>
    Utils.install_module os codes ext_module venv).

(** The body of the loop under [# install core modules]. *)
Definition install_core_module (core : gmap string string)
           (venv module : string) : M world unit :=
  if (truthy_get (core !! module)
      && String.eqb (default "" (core !! module)) "exclude")%bool
  then ret tt
  else if truthy_get (core !! module)
  then Utils.install_module os codes (default "" (core !! module)) venv
  else ret tt.

(** [# install core modules] *)
Definition install_core (core : gmap string string) (venv : string)
  : M world unit :=
  for_each MODULES_LIST (install_core_module core venv).

(** [# install additional] *)
Definition install_additional (modules : modules) (venv : string)
  : M world unit :=
  for_each (additional modules) (fun module =>
    Utils.install_module os codes module venv).

(** [# install cloudify-agent] *)
Definition install_agent (modules : modules) (venv : string)
  : M world unit :=
  if truthy_get (agent modules)
  then Utils.install_module os codes (default "" (agent modules)) venv
  else ret tt.

(** The body of the loop under [# uninstall excluded modules]. *)
Definition uninstall_excluded_module (core : gmap string string)
           (venv module : string) : M world unit :=
  let module_name := get_module_name module in
  match core !! module with
  | Some source =>
      if String.eqb source "exclude"
      then
        b <- Utils.check_installed os module_name venv ;;
        if b then Utils.uninstall_module os codes module_name venv
        else ret tt
      else ret tt
  | None => ret tt
  end.

(** [# uninstall excluded modules] *)
Definition uninstall_excluded (core : gmap string string) (venv : string)
  : M world unit :=
  for_each MODULES_LIST (uninstall_excluded_module core venv).

(** Everything from [# install external] to the exclusion pass. *)
Definition install_all (modules : modules) (venv : string) : M world unit :=
  install_external venv ;;;
  install_core (core modules) venv ;;;
  install_additional modules venv ;;;
  install_agent modules venv ;;;
  uninstall_excluded (core modules) venv.

Definition isdir (path : string) : M world bool :=
  fun w => (w, [], Ret (os_path_isdir os path w)).
Definition isfile (path : string) : M world bool :=
  fun w => (w, [], Ret (os_path_isfile os path w)).
Definition exists_ (path : string) : M world bool :=
  fun w => (w, [], Ret (os_path_exists os path w)).
Definition rmtree (path : string) : M world unit :=
  fun w => (shutil_rmtree os path w, [Ev_rmtree path], Ret tt).
Definition remove (path : string) : M world unit :=
  fun w => (os_remove os path w, [Ev_remove path], Ret tt).

(** The paths [create] works on. *)
Definition venv_of (config : config) (distro release : string) : string :=
  default (DEFAULT_VENV_PATH distro release) (venv config).
Definition destination_tar_of (config : config) (distro release : string)
  : string :=
  default (DEFAULT_OUTPUT_TAR_PATH distro release) (output_tar config).

(** [# virtualenv] *)
Definition prepare_virtualenv (venv python : string) (force : bool)
  : M world unit :=
  d <- isdir venv ;;
  (if d then
     if force then rmtree venv
     else sys_exit 2
   else ret tt) ;;;
  Utils.make_virtualenv os codes venv python.

(** [# output file] *)
Definition prepare_output_file (destination_tar : string) (force : bool)
  : M world unit :=
  f <- isfile destination_tar ;;
  (if (f && force)%bool then remove destination_tar else ret tt) ;;;
  e <- exists_ destination_tar ;;
  if e then sys_exit 9 else ret tt.

Definition prepare (venv python destination_tar : string) (force : bool)
  : M world unit :=
  prepare_virtualenv venv python force ;;;
  prepare_output_file destination_tar force.

(** [create], from the point where [config] is a dictionary. *)
Definition create (config : config) (force dry no_validate : bool)
  : M world unit :=
  dist <-
    match platform_dist os with
    | Some (d, _, r) =>
        ret (default d (distribution config), default r (release config))
    | None => sys_exit 1
    end ;;
  let '(distro, release) := dist in
  let python := default "/usr/bin/python" (python_path config) in
  let venv := venv_of config distro release in
  let keep_venv := default false (keep_venv config) in
  let destination_tar := destination_tar_of config distro release in
  prepare venv python destination_tar force ;;;
  (* create modules dictionary with defaults *)
  modules <-
    _merge_modules {| core := ∅; additional := []; agent := Some "" |}
      config ;;
  (if dry then sys_exit 0 else ret tt) ;;;
  install_all modules venv ;;;
  (if negb no_validate then _validate modules venv else ret tt) ;;;
  (* create agent tar *)
  Utils.tar os codes venv destination_tar ;;;
  (if negb keep_venv then rmtree venv else ret tt) ;;;
  Utils.get_installed os venv ;;;
  ret tt.

End WithOS.
End Packager.

(* ===================================================================== *)
(** ** utils.py: [download_file] *)
(* ===================================================================== *)

Module Download.

(** [s.split(sep)] for a one-character separator: the pieces between
    the separators, of which there is always at least one. *)
Fixpoint split (sep : ascii) (s : string) : list string :=
  match s with
  | EmptyString => [EmptyString]
  | String c t =>
      if Ascii.eqb c sep then EmptyString :: split sep t
      else match split sep t with
           | h :: r => String c h :: r
           | [] => [String c EmptyString]
           end
  end.

(** What [requests.get(url, stream=True)] answers: the status, the
    chunks that [iter_content] yields, and whether the stream breaks
    after them (an exception of [requests]) instead of ending. *)
Record response := {
  status_code : Z;
  iter_content : list string;
  stream_breaks : bool
}.

(** Modelled from the spec: the entry of [codes.errors] that
    [download_file] reads; the [codes] module is not among the
    sources, and the value is left open. *)
Record download_codes := { could_not_download_file : Z }.

(** [destination if destination else url.split('/')[-1]]; the empty
    string stands for every false value of [destination]. *)
Definition destination_of (url destination : string) : string :=
  if Str.truthy destination then destination
  else List.last (split "/" url) EmptyString.

(** Whether [open(path, 'wb')] opens the file: never for the empty
    path, for which [open] raises; otherwise as the file system
    [can_open] has it. *)
Definition open_wb (can_open : string -> bool) (path : string) : bool :=
  Str.truthy path && can_open path.

(** The loop over the chunks: what has been written to the file when
    it ends.  Empty chunks are passed over. *)
Definition write_chunks (chunks : list string) : string :=
  fold_left (fun f chunk => if Str.truthy chunk then f +:+ chunk else f)
    chunks EmptyString.

(** [download_file(url, destination)], given what [requests.get]
    answers ([None] when it raises) and which paths can be opened: the
    file that was opened, if one was, with what it holds afterwards,
    and how the call ends. *)
Definition download_file (codes : download_codes)
           (can_open : string -> bool) (get : option response)
           (url destination : string)
  : option (string * string) * result unit :=
  let destination := destination_of url destination in
  match get with
  | None => (None, Raised)
  | Some r =>
      if negb (status_code r =? 200)
      then (None, Exit (could_not_download_file codes))
      else if open_wb can_open destination
      then (Some (destination, write_chunks (iter_content r)),
            if stream_breaks r then Raised else Ret tt)
      else (None, Raised)
  end.

End Download.

(* ===================================================================== *)
(** ** Reading a trace *)
(* ===================================================================== *)

(** The arguments of the [install_module] calls, in order. *)
Definition installs (tr : list event) : list string :=
  omap (fun e => match e with
                 | Ev_install_module m _ => Some m
                 | _ => None
                 end) tr.

(** The arguments of the [uninstall_module] calls, in order. *)
Definition uninstalls (tr : list event) : list string :=
  omap (fun e => match e with
                 | Ev_uninstall_module m _ => Some m
                 | _ => None
                 end) tr.

Definition is_install (e : event) : Prop :=
  match e with Ev_install_module _ _ => True | _ => False end.

Definition is_uninstall (e : event) : Prop :=
  match e with Ev_uninstall_module _ _ => True | _ => False end.

Definition not_install (e : event) : Prop := ~ is_install e.
Definition not_uninstall (e : event) : Prop := ~ is_uninstall e.

(** Every event of every run of [m] satisfies [P]. *)
Definition emits_only {world A} (P : event -> Prop) (m : M world A) : Prop :=
  forall w, Forall P (trace_of (m w)).

(** Every run of [m] is a stretch of [P] events followed by a stretch of
    [Q] events. *)
Definition phased {world A} (P Q : event -> Prop) (m : M world A) : Prop :=
  forall w, exists t1 t2,
    trace_of (m w) = t1 ++ t2 /\ Forall P t1 /\ Forall Q t2.

(** The install calls of a run of [m] are the start of [l], and all of
    [l] when [m] returns. *)
Definition installs_upto {world A} (m : M world A) (l : list string) : Prop :=
  forall w,
    installs (trace_of (m w)) `prefix_of` l
    /\ (forall a, result_of (m w) = Ret a -> installs (trace_of (m w)) = l).

(** [pip freeze] prints the same text when it is run again. *)
Definition freeze_stable {world} (os : OS world) (venv : string) : Prop :=
  forall w,
    let '(w', p) := run_cmd os (Utils.pip_freeze_cmd venv) w in
    stdout (run_cmd os (Utils.pip_freeze_cmd venv) w').2 = stdout p.

(** The text [pip freeze] prints in [w]. *)
Definition listing {world} (os : OS world) (venv : string) (w : world)
  : string :=
  stdout (run_cmd os (Utils.pip_freeze_cmd venv) w).2.

(** *** What the policy amounts to, stated on the plan alone *)

(** The source a catalog slot is installed from: a true value other
    than ['exclude']. *)
Definition core_location (core : gmap string string) (module : string)
  : option string :=
  match core !! module with
  | Some source =>
      if Str.truthy source && negb (String.eqb source "exclude")
      then Some source
      else None
  | None => None
  end.

(** The [install_module] calls of a run that gets through all its
    installs. *)
Definition planned_installs (m : Packager.modules) : list string :=
  Packager.EXTERNAL_MODULES
  ++ omap (core_location (Packager.core m)) Packager.MODULES_LIST
  ++ Packager.additional m
  ++ (if Packager.truthy_get (Packager.agent m)
      then [default "" (Packager.agent m)]
      else []).

(** The name under which an entry of [core] is looked for, when it is. *)
Definition core_checked_name (entry : string * string) : option string :=
  let '(core_module, source) := entry in
  if Str.truthy source && negb (String.eqb source "exclude")
  then Some (Packager.get_module_name core_module)
  else None.

(** The names validation looks for, in the order it does. *)
Definition checked_names (m : Packager.modules) : list string :=
  omap core_checked_name (map_to_list (Packager.core m))
  ++ map Packager.get_module_name (Packager.additional m)
  ++ (match Packager.agent m with
      | Some _ => ["cloudify-agent"]
      | None => []
      end).

(** Looking for [names] one after the other in the text [L]: the calls
    made, and the list [failed] at the end. *)
Fixpoint collect {world} (os : OS world) (L venv : string)
         (names failed : list string) : list event * result (list string) :=
  match names with
  | [] => ([], Ret failed)
  | n :: r =>
      match Utils.listed os n L with
      | Some b =>
          let '(t, res) :=
            collect os L venv r (if b then failed else failed ++ [n]) in
          (Ev_check_installed n venv :: t, res)
      | None => ([Ev_check_installed n venv], Raised)
      end
  end.

(** The names of [names] that the text [L] does not show. *)
Definition missing {world} (os : OS world) (L : string)
           (names : list string) : list string :=
  filter (fun n => Utils.listed os n L <> Some true) names.

(** The agent source a configuration gives: the explicit module, else
    the URL made from the version. *)
Definition agent_of (config : Packager.config) : option string :=
  match Packager.cloudify_agent_module config with
  | Some m => Some m
  | None => Packager.DEFAULT_CLOUDIFY_AGENT_URL
              <$> Packager.cloudify_agent_version config
  end.

(** The dictionary [create] hands to [_merge_modules]. *)
Definition initial_modules : Packager.modules :=
  {| Packager.core := ∅; Packager.additional := [];
     Packager.agent := Some "" |}.

(** *** Configurations to run the model on *)

Definition empty_config : Packager.config := {|
  Packager.distribution := None;
  Packager.release := None;
  Packager.python_path := None;
  Packager.venv := None;
  Packager.keep_venv := None;
  Packager.output_tar := None;
  Packager.core_modules := None;
  Packager.additional_modules := None;
  Packager.cloudify_agent_module := None;
  Packager.cloudify_agent_version := None
|}.

(** [core_modules: {cloudify_diamond_plugin: exclude,
    cloudify_rest_client: cloudify-rest-client==3.2}],
    [additional_modules: [pyyaml]], [cloudify_agent_version: '1.0'] *)
Definition example_config : Packager.config := {|
  Packager.distribution := None;
  Packager.release := None;
  Packager.python_path := None;
  Packager.venv := Some "env";
  Packager.keep_venv := None;
  Packager.output_tar := Some "agent.tar.gz";
  Packager.core_modules :=
    Some (list_to_map [("cloudify_diamond_plugin", "exclude");
                       ("cloudify_rest_client", "cloudify-rest-client==3.2")]);
  Packager.additional_modules := Some ["pyyaml"];
  Packager.cloudify_agent_module := None;
  Packager.cloudify_agent_version := Some "1.0"
|}.

Definition example_modules : Packager.modules := {|
  Packager.core :=
    list_to_map [("cloudify_diamond_plugin", "exclude");
                 ("cloudify_rest_client", "cloudify-rest-client==3.2")];
  Packager.additional := ["pyyaml"];
  Packager.agent :=
    Some "https://github.com/nir0s/cloudify-agent/archive/1.0.tar.gz"
|}.

(** A listing in which everything [example_config] asks for is present,
    and the excluded plugin too. *)
Definition example_listing : string :=
  "Cloudify-Agent==1.0
cloudify-diamond-plugin==1.0
cloudify-rest-client==3.2
PyYAML==3.10
".

(** Two declared names that differ at most in having [_] where the
    other has [-]. *)
Definition same_up_to_hyphens (d1 d2 : string) : Prop :=
  Forall2 (fun a b : ascii =>
             a = b
             \/ ((a = "_"%char \/ a = "-"%char)
                 /\ (b = "_"%char \/ b = "-"%char)))
    (Str.chars d1) (Str.chars d2).

(** The [core] mapping holds the catalog slots and nothing else. *)
Definition catalog_exactly (m : Packager.modules) : Prop :=
  forall key, is_Some (Packager.core m !! key)
              <-> key ∈ Packager.MODULES_LIST.

(** [core_modules: {my_plugin: my-plugin==1.0}],
    [cloudify_agent_module: cloudify-agent==3.2] *)
Definition extra_key_config : Packager.config := {|
  Packager.distribution := None;
  Packager.release := None;
  Packager.python_path := None;
  Packager.venv := Some "env";
  Packager.keep_venv := None;
  Packager.output_tar := Some "agent.tar.gz";
  Packager.core_modules := Some {["my_plugin" := "my-plugin==1.0"]};
  Packager.additional_modules := None;
  Packager.cloudify_agent_module := Some "cloudify-agent==3.2";
  Packager.cloudify_agent_version := None
|}.

Definition extra_key_modules : Packager.modules := {|
  Packager.core := {["my_plugin" := "my-plugin==1.0"]};
  Packager.additional := [];
  Packager.agent := Some "cloudify-agent==3.2"
|}.

(** An environment for running the model: the world is the text that
    [pip freeze] prints, no command changes it, and every command ends
    with return code [rc]. *)
Definition stub_os (venv_exists tar_exists : bool) (rc : Z) : OS string := {|
  run_cmd := fun _ w => (w, {| returncode := rc; stdout := w |});
  os_path_isdir := fun _ _ => venv_exists;
  os_path_isfile := fun _ _ => tar_exists;
  os_path_exists := fun _ _ => tar_exists;
  shutil_rmtree := fun _ w => w;
  os_remove := fun _ w => w;
  platform_dist := Some ("Ubuntu", "14.04", "trusty");
  re_search_beyond := fun _ _ => Some false
|}.

Definition stub_codes : error_codes := {|
  could_not_create_virtualenv := 101;
  could_not_install_module := 102;
  could_not_uninstall_module := 103;
  failed_to_create_tar := 104
|}.

(** *** Classes of events, and runs made of stretches of them *)

(** What [create] does before the plan is made. *)
Definition is_prepare (e : event) : Prop :=
  match e with
  | Ev_rmtree _ | Ev_remove _ | Ev_make_virtualenv _ _ => True
  | _ => False
  end.

Definition is_check (e : event) : Prop :=
  match e with Ev_check_installed _ _ => True | _ => False end.

(** What the exclusion pass does. *)
Definition is_exclusion (e : event) : Prop :=
  match e with
  | Ev_check_installed _ _ | Ev_uninstall_module _ _ => True
  | _ => False
  end.

(** What [create] does once the environment is ready. *)
Definition is_finish (e : event) : Prop :=
  match e with
  | Ev_tar _ _ | Ev_rmtree _ | Ev_get_installed _ => True
  | _ => False
  end.

(** Something is deleted. *)
Definition is_removal (e : event) : Prop :=
  match e with Ev_rmtree _ | Ev_remove _ => True | _ => False end.

(** The archive is written, or the final listing taken. *)
Definition is_report (e : event) : Prop :=
  match e with Ev_tar _ _ | Ev_get_installed _ => True | _ => False end.

(** [t] is a stretch of events of the first class, followed by a
    stretch of events of the second, and so on; a stretch may be
    empty. *)
Fixpoint in_phases (Ps : list (event -> Prop)) (t : list event) : Prop :=
  match Ps with
  | [] => t = []
  | P :: Ps' =>
      exists t1 t2, t = t1 ++ t2 /\ Forall P t1 /\ in_phases Ps' t2
  end.

Definition phases {world A} (Ps : list (event -> Prop)) (m : M world A)
  : Prop :=
  forall w, in_phases Ps (trace_of (m w)).

(** A run of [m] that leaves through [sys.exit] does so with a code of
    [S]. *)
Definition exits_in {world A} (S : list Z) (m : M world A) : Prop :=
  forall w c, result_of (m w) = Exit c -> c ∈ S.

(** No run of [m] ends in an exception of [re]. *)
Definition never_raises {world A} (m : M world A) : Prop :=
  forall w, result_of (m w) <> Raised.

(** A run of [m] that does not return has deleted nothing. *)
Definition clean_unless_done {world} (m : M world unit) : Prop :=
  forall w, result_of (m w) <> Ret tt ->
            Forall (fun e => ~ is_removal e) (trace_of (m w)).

(** [c] is one of [A]..[Z]. *)
Definition is_upper (c : ascii) : bool :=
  let n := nat_of_ascii c in (Nat.leb 65 n && Nat.leb n 90)%bool.

(** [sep.join(l)] *)
Fixpoint join (sep : ascii) (l : list string) : string :=
  match l with
  | [] => EmptyString
  | x :: r =>
      match r with
      | [] => x
      | _ :: _ => x +:+ String sep (join sep r)
      end
  end.

(** [''.join(l)] *)
Definition concat_all (l : list string) : string :=
  fold_right String.append EmptyString l.

(** The command [install_module] hands to the shell. *)
Definition pip_install_cmd (module venv : string) : string :=
  if String.eqb module "pre"
  then venv +:+ "/bin/pip install " +:+ module +:+ " --pre"
  else venv +:+ "/bin/pip install " +:+ module.

(** The command [make_virtualenv] hands to the shell. *)
Definition virtualenv_cmd (virtualenv_dir python : string) : string :=
  "virtualenv -p " +:+ python +:+ " " +:+ virtualenv_dir.

(** The loops of [_validate], with the entries of [modules['core']]
    taken in the order [entries]: a dictionary does not say in which
    order [items()] hands out its entries. *)
Definition _validate_failed_over {world} (os : OS world)
           (entries : list (string * string)) (modules : Packager.modules)
           (venv : string) : M world (list string) :=
  failed <-
    for_fold entries
      (fun '(core_module, source) failed =>
         if (Str.truthy source && negb (String.eqb source "exclude"))%bool
         then Packager.check os core_module venv failed
         else ret failed)
      [] ;;
  failed <-
    for_fold (Packager.additional modules)
      (fun additional_module failed =>
         Packager.check os additional_module venv failed)
      failed ;;
  match Packager.agent modules with
  | Some _ => Packager.check os "cloudify-agent" venv failed
  | None => ret failed
  end.

(** The names looked for, when the entries of [core] come in the order
    [entries]. *)
Definition checked_names_over (entries : list (string * string))
           (m : Packager.modules) : list string :=
  omap core_checked_name entries
  ++ map Packager.get_module_name (Packager.additional m)
  ++ (match Packager.agent m with
      | Some _ => ["cloudify-agent"]
      | None => []
      end).

(** [re] raises an error on the pattern [n]. *)
Definition rejected (n : string) : Prop :=
  Re.sre_parse (Str.chars n) = Re.Rejected.

(** [re.search] raises on the pattern [n] against some text: [n] is
    rejected, or it is left to [re] and [re] raises. *)
Definition may_raise {world} (os : OS world) (n : string) : Prop :=
  rejected n
  \/ (Re.sre_parse (Str.chars n) = Re.Unmodelled
      /\ exists text, re_search_beyond os n text = None).

(** A machine on which [platform.dist()] raises. *)
Definition stub_os_unknown_platform : OS string := {|
  run_cmd := fun _ w => (w, {| returncode := 0; stdout := w |});
  os_path_isdir := fun _ _ => false;
  os_path_isfile := fun _ _ => false;
  os_path_exists := fun _ _ => false;
  shutil_rmtree := fun _ w => w;
  os_remove := fun _ w => w;
  platform_dist := None;
  re_search_beyond := fun _ _ => Some false
|}.

(** [cloudify_agent_module: ''] *)
Definition blank_agent_config : Packager.config := {|
  Packager.distribution := None;
  Packager.release := None;
  Packager.python_path := None;
  Packager.venv := Some "env";
  Packager.keep_venv := None;
  Packager.output_tar := Some "agent.tar.gz";
  Packager.core_modules := None;
  Packager.additional_modules := None;
  Packager.cloudify_agent_module := Some "";
  Packager.cloudify_agent_version := Some "1.0"
|}.

(** [additional_modules: ['*foo', pyyaml]]: [re] rejects the first name
    ("nothing to repeat"). *)
Definition rejected_name_modules : Packager.modules := {|
  Packager.core := ∅;
  Packager.additional := ["*foo"; "pyyaml"];
  Packager.agent := Some "cloudify-agent==3.2"
|}.

(** A plan with an additional module whose name [re] rejects
    ("nothing to repeat"): a shell pattern for the wheels of the
    working directory. *)
Definition unparsable_modules : Packager.modules := {|
  Packager.core := ∅;
  Packager.additional := ["*.whl"];
  Packager.agent := Some "cloudify-agent==3.2"
|}.

(* ===================================================================== *)
(** * Properties *)
(* ===================================================================== *)

(** ** The matcher computes the language of the pattern *)

Module ReFacts.
Import Re.

Lemma match_one_spec a k (K : list ascii -> Prop) s :
  (forall t, k t = true <-> K t) ->
  match_one a k s = true <->
  exists c t, s = c :: t /\ atom_ok a c = true /\ K t.
Proof.
  intros Hk. destruct s as [|c t]; simpl.
  - split; [discriminate | intros (? & ? & ? & _); discriminate].
  - rewrite andb_true_iff, Hk. split.
    + intros [? ?]. eauto.
    + intros (? & ? & [= <- <-] & ? & ?). auto.
Qed.

Lemma match_star_spec a k (K : list ascii -> Prop) s :
  (forall t, k t = true <-> K t) ->
  match_star a k s = true <->
  exists u t, s = u ++ t /\ Forall (fun c => atom_ok a c = true) u /\ K t.
Proof.
  intros Hk. induction s as [|c s IH]; simpl.
  - rewrite orb_false_r, Hk. split.
    + intros ?. exists [], []. auto.
    + intros (u & t & Hs & _ & HK).
      symmetry in Hs. apply app_eq_nil in Hs as [_ ->]. done.
  - rewrite orb_true_iff, andb_true_iff, Hk, IH. split.
    + intros [HK | [Hc (u & t & -> & Hu & HK)]].
      * exists [], (c :: s). auto.
      * exists (c :: u), t. auto.
    + intros (u & t & Hs & Hu & HK). destruct u as [|c' u]; simpl in Hs.
      * left. by subst.
      * injection Hs as <- ->. inversion Hu; subst. right.
        split; [done|]. exists u, t. done.
Qed.

(** [match_here] accepts exactly the texts that start with a word of
    the branch. *)
Lemma match_here_spec its s :
  match_here its s = true <->
  exists w rest, s = w ++ rest /\ branch_lang its w.
Proof.
  revert s. induction its as [|[a q] r IH]; intros s; simpl.
  - split; [|done]. intros _. exists [], s. done.
  - destruct q.
    + rewrite (match_one_spec _ _ _ _ IH). split.
      * intros (c & t & -> & Hc & w & rest & -> & Hw).
        exists (c :: w), rest. split; [done|].
        exists [c], w. eauto.
      * intros (w & rest & -> & u & v & -> & (c & -> & Hc) & Hv).
        exists c, (v ++ rest). eauto 8.
    + rewrite orb_true_iff, IH, (match_one_spec _ _ _ _ IH). split.
      * intros [(w & rest & -> & Hw) | (c & t & -> & Hc & w & rest & -> & Hw)].
        -- exists w, rest. split; [done|]. exists [], w. auto.
        -- exists (c :: w), rest. split; [done|]. exists [c], w. eauto 8.
      * intros (w & rest & -> & u & v & -> & [-> | (c & -> & Hc)] & Hv).
        -- left. eauto.
        -- right. exists c, (v ++ rest). eauto 8.
    + rewrite (match_star_spec _ _ _ _ IH). split.
      * intros (u & t & -> & Hu & w & rest & -> & Hw).
        exists (u ++ w), rest. rewrite <- app_assoc. split; [done|].
        exists u, w. auto.
      * intros (w & rest & -> & u & v & -> & Hu & Hv).
        exists u, (v ++ rest). rewrite <- app_assoc. eauto 8.
    + rewrite (match_one_spec _ _
                 (fun t => exists u t', t = u ++ t'
                    /\ Forall (fun c => atom_ok a c = true) u
                    /\ exists w rest, t' = w ++ rest /\ branch_lang r w)).
      2:{ intros t. apply match_star_spec, IH. }
      split.
      * intros (c & t & -> & Hc & u & t' & -> & Hu & w & rest & -> & Hw).
        exists (c :: u ++ w), rest. split.
        { simpl. by rewrite <- app_assoc. }
        exists (c :: u), w. split; [done|]. split; [|done].
        split; [done|]. by constructor.
      * intros (w & rest & -> & u & v & -> & [Hne Hu] & Hv).
        destruct u as [|c u]; [done|]. inversion Hu; subst.
        exists c, (u ++ v ++ rest). split.
        { simpl. by rewrite <- app_assoc. }
        split; [done|]. exists u, (v ++ rest). eauto 8.
Qed.

Lemma search_branch_spec its s :
  search_branch its s = true <->
  exists w, branch_lang its w /\ occurs_in w s.
Proof.
  induction s as [|c s IH]; simpl.
  - rewrite orb_false_r, match_here_spec. split.
    + intros (w & rest & Hs & Hw). exists w. split; [done|].
      exists [], rest. done.
    + intros (w & Hw & pre & post & Hs).
      symmetry in Hs. apply app_eq_nil in Hs as [-> Hs].
      exists w, post. done.
  - rewrite orb_true_iff, match_here_spec, IH. split.
    + intros [(w & rest & Hs & Hw) | (w & Hw & pre & post & ->)].
      * exists w. split; [done|]. exists [], rest. done.
      * exists w. split; [done|]. exists (c :: pre), post. done.
    + intros (w & Hw & pre & post & Hs). destruct pre as [|c' pre].
      * left. exists w, post. done.
      * right. injection Hs as <- ->. exists w. split; [done|].
        exists pre, post. done.
Qed.

(** [search_pattern] finds a word of the pattern anywhere in the
    text. *)
Lemma search_pattern_spec p s :
  search_pattern p s = true <->
  exists w, pattern_lang p w /\ occurs_in w s.
Proof.
  unfold search_pattern, pattern_lang.
  rewrite existsb_exists. split.
  - intros (b & Hb & Hs). apply search_branch_spec in Hs as (w & Hw & Ho).
    exists w. split; [|done]. apply Exists_exists.
    exists b. split; [by apply list_elem_of_In | done].
  - intros (w & Hw & Ho). apply Exists_exists in Hw as (b & Hb & Hw).
    exists b. split; [by apply list_elem_of_In|].
    apply search_branch_spec. eauto.
Qed.

(** A character that is not special is read as itself. *)
Lemma not_special_step c t alts cur lz :
  is_special c = false ->
  sre_parse_from (c :: t) alts cur lz
  = sre_parse_from t alts ((Lit c, One) :: cur) false.
Proof.
  intros Hs. pose proof Hs as Hc.
  unfold is_special, SPECIAL_CHARS in Hc. simpl in Hc.
  repeat (apply orb_false_elim in Hc as [? Hc]).
  cbn [sre_parse_from]. unfold quant_of.
  repeat match goal with
         | H : Ascii.eqb c _ = false |- _ => rewrite ?H; clear H
         end.
  by rewrite Hs.
Qed.

Lemma sre_parse_from_literal s alts cur lz :
  literal s ->
  sre_parse_from s alts cur lz
  = Pattern (rev (rev (rev (lits s) ++ cur) :: alts)).
Proof.
  intros Hs. revert cur lz. induction Hs as [|c s Hc Hs IH]; intros cur lz.
  - done.
  - rewrite not_special_step by done. rewrite IH. simpl.
    by rewrite <- app_assoc.
Qed.

(** A literal pattern parses to the one branch that spells it. *)
Lemma sre_parse_literal s : literal s -> sre_parse s = Pattern [lits s].
Proof.
  intros Hs. unfold sre_parse. rewrite sre_parse_from_literal by done.
  simpl. by rewrite app_nil_r, rev_involutive.
Qed.

Lemma branch_lang_lits s w : branch_lang (lits s) w <-> w = s.
Proof.
  revert w. induction s as [|c s IH]; intros w; simpl; [done|]. split.
  - intros (u & v & -> & (c' & -> & Hc) & Hv). apply IH in Hv as ->.
    apply Ascii.eqb_eq in Hc as ->. done.
  - intros ->. exists [c], s. split; [done|]. split; [|by apply IH].
    exists c. split; [done|]. apply Ascii.eqb_refl.
Qed.

(** For a literal pattern, [search] is the substring test. *)
Lemma search_literal beyond pat text :
  literal (Str.chars pat) ->
  exists b, search beyond pat text = Some b
    /\ (b = true <-> occurs_in (Str.chars pat) (Str.chars text)).
Proof.
  intros Hl. unfold search. rewrite sre_parse_literal by done.
  eexists. split; [done|]. rewrite search_pattern_spec. split.
  - intros (w & Hw & Ho). apply Exists_cons in Hw as [Hw|Hw].
    + by apply branch_lang_lits in Hw as ->.
    + by apply Exists_nil in Hw.
  - intros Ho. exists (Str.chars pat). split; [|done].
    apply Exists_cons. left. by apply branch_lang_lits.
Qed.

(** For a pattern of the fragment, [search] answers, and answers
    [true] exactly when a word of the pattern occurs in the text. *)
Lemma search_pattern_iff beyond pat text p :
  sre_parse (Str.chars pat) = Pattern p ->
  exists b, search beyond pat text = Some b
    /\ (b = true <->
        exists w, pattern_lang p w /\ occurs_in w (Str.chars text)).
Proof.
  intros Hp. unfold search. rewrite Hp. eexists. split; [done|].
  apply search_pattern_spec.
Qed.

(** [search] raises on a pattern that [re] rejects, whatever the
    text. *)
Lemma search_rejected beyond pat text :
  sre_parse (Str.chars pat) = Rejected -> search beyond pat text = None.
Proof. intros Hp. unfold search. by rewrite Hp. Qed.

End ReFacts.

(** ** Traces of computations *)

Section Runs.
Context {world : Type}.
Implicit Types (w : world) (t : list event).

Lemma omap_Some_id {A} (l : list A) : omap Some l = l.
Proof. induction l as [|x l IH]; [done|]. cbn. by f_equal. Qed.

Lemma installs_app t1 t2 : installs (t1 ++ t2) = installs t1 ++ installs t2.
Proof. apply omap_app. Qed.

Lemma uninstalls_app t1 t2 :
  uninstalls (t1 ++ t2) = uninstalls t1 ++ uninstalls t2.
Proof. apply omap_app. Qed.

(** How [bind] runs, by the way its first part ends. *)
Lemma bind_ret {A B} (m : M world A) (k : A -> M world B) w w1 t1 a :
  m w = (w1, t1, Ret a) ->
  bind m k w = (world_of (k a w1), t1 ++ trace_of (k a w1), result_of (k a w1)).
Proof.
  intros E. unfold bind. rewrite E. by destruct (k a w1) as [[? ?] ?].
Qed.

Lemma bind_exit {A B} (m : M world A) (k : A -> M world B) w w1 t1 c :
  m w = (w1, t1, Exit c) -> bind m k w = (w1, t1, Exit c).
Proof. intros E. unfold bind. by rewrite E. Qed.

Lemma bind_raised {A B} (m : M world A) (k : A -> M world B) w w1 t1 :
  m w = (w1, t1, Raised) -> bind m k w = (w1, t1, Raised).
Proof. intros E. unfold bind. by rewrite E. Qed.

(** *** [emits_only] *)

Lemma emits_only_ret {A} P (a : A) : emits_only (world:=world) P (ret a).
Proof. intros w. constructor. Qed.

Lemma emits_only_sys_exit {A} P c :
  emits_only (world:=world) (A:=A) P (sys_exit c).
Proof. intros w. constructor. Qed.

Lemma emits_only_raise {A} P : emits_only (world:=world) (A:=A) P raise.
Proof. intros w. constructor. Qed.

Lemma emits_only_emit (P : event -> Prop) e :
  P e -> emits_only (world:=world) P (emit e).
Proof. intros He w. by repeat constructor. Qed.

Lemma emits_only_bind {A B} P (m : M world A) (k : A -> M world B) :
  emits_only P m -> (forall a, emits_only P (k a)) ->
  emits_only P (bind m k).
Proof.
  intros Hm Hk w. specialize (Hm w). unfold bind, trace_of in *.
  destruct (m w) as [[w1 t1] [a|c|]]; [|done..].
  specialize (Hk a w1). unfold trace_of in Hk.
  destruct (k a w1) as [[w2 t2] r]. apply Forall_app. done.
Qed.

Lemma emits_only_for_each {A} P (l : list A) (f : A -> M world unit) :
  (forall x, emits_only P (f x)) -> emits_only P (for_each l f).
Proof.
  intros Hf. induction l as [|x l IH]; simpl.
  - apply emits_only_ret.
  - apply emits_only_bind; auto.
Qed.

Lemma emits_only_for_fold {A S} P (l : list A) (f : A -> S -> M world S) acc :
  (forall x s, emits_only P (f x s)) -> emits_only P (for_fold l f acc).
Proof.
  intros Hf. revert acc. induction l as [|x l IH]; intros acc; simpl.
  - apply emits_only_ret.
  - apply emits_only_bind; auto.
Qed.

(** *** [phased] *)

Lemma phased_of_emits_l {A} P Q (m : M world A) :
  emits_only P m -> phased P Q m.
Proof.
  intros Hm w. exists (trace_of (m w)), []. by rewrite app_nil_r.
Qed.

Lemma phased_of_emits_r {A} P Q (m : M world A) :
  emits_only Q m -> phased P Q m.
Proof. intros Hm w. exists [], (trace_of (m w)). done. Qed.

Lemma phased_bind_l {A B} P Q (m : M world A) (k : A -> M world B) :
  emits_only P m -> (forall a, phased P Q (k a)) -> phased P Q (bind m k).
Proof.
  intros Hm Hk w. specialize (Hm w). unfold bind, trace_of in *.
  destruct (m w) as [[w1 t1] [a|c|]]; simpl in *.
  - destruct (Hk a w1) as (u1 & u2 & E & H1 & H2).
    destruct (k a w1) as [[w2 t2] r]. unfold trace_of in *. simpl in *.
    subst t2. exists (t1 ++ u1), u2. rewrite app_assoc. split; [done|].
    split; [by apply Forall_app|done].
  - exists t1, []. by rewrite app_nil_r.
  - exists t1, []. by rewrite app_nil_r.
Qed.

Lemma phased_bind_r {A B} P Q (m : M world A) (k : A -> M world B) :
  phased P Q m -> (forall a, emits_only Q (k a)) -> phased P Q (bind m k).
Proof.
  intros Hm Hk w. destruct (Hm w) as (u1 & u2 & E & H1 & H2). unfold bind.
  destruct (m w) as [[w1 t1] [a|c|]]; unfold trace_of in *; simpl in *;
    subst t1.
  - specialize (Hk a w1). unfold trace_of in Hk.
    destruct (k a w1) as [[w2 t2] r]. simpl in *.
    exists u1, (u2 ++ t2). rewrite app_assoc. split; [done|].
    split; [done|by apply Forall_app].
  - by exists u1, u2.
  - by exists u1, u2.
Qed.

(** *** [installs_upto] *)

Lemma installs_upto_ret {A} (a : A) : installs_upto (world:=world) (ret a) [].
Proof. intros w. split; [done|]. done. Qed.

Lemma installs_upto_of_emits {A} (m : M world A) :
  emits_only not_install m -> installs_upto m [].
Proof.
  intros Hm w. specialize (Hm w).
  assert (installs (trace_of (m w)) = []) as ->; [|done].
  induction Hm as [|e t He _ IH]; [done|].
  unfold not_install in He. destruct e; simpl in *; done.
Qed.

Lemma installs_upto_bind {A B} (m : M world A) (k : A -> M world B)
      (P : A -> Prop) l1 l2 :
  installs_upto m l1 ->
  (forall w a, result_of (m w) = Ret a -> P a) ->
  (forall a, P a -> installs_upto (k a) l2) ->
  installs_upto (bind m k) (l1 ++ l2).
Proof.
  intros Hm HP Hk w. destruct (Hm w) as [Hpre Hall]. specialize (HP w).
  unfold bind, trace_of, result_of in *.
  destruct (m w) as [[w1 t1] [a|c|]]; simpl in *.
  - destruct (Hk a (HP a eq_refl) w1) as [Hpre2 Hall2].
    unfold trace_of, result_of in *.
    destruct (k a w1) as [[w2 t2] r]. simpl in *.
    rewrite installs_app, (Hall a eq_refl). split.
    + by apply prefix_app.
    + intros b ->. by rewrite (Hall2 b eq_refl).
  - split; [by apply prefix_app_r|done].
  - split; [by apply prefix_app_r|done].
Qed.

Lemma installs_upto_seq {A B} (m : M world A) (k : A -> M world B) l1 l2 :
  installs_upto m l1 -> (forall a, installs_upto (k a) l2) ->
  installs_upto (bind m k) (l1 ++ l2).
Proof.
  intros Hm Hk. apply (installs_upto_bind m k (fun _ => True)); auto.
Qed.

Lemma installs_upto_for_each {A} (l : list A) (f : A -> M world unit)
      (g : A -> option string) :
  (forall x, installs_upto (f x) (option_list (g x))) ->
  installs_upto (for_each l f) (omap g l).
Proof.
  intros Hf. induction l as [|x l IH].
  - apply installs_upto_ret.
  - assert (omap g (x :: l) = option_list (g x) ++ omap g l) as ->
      by (simpl; by destruct (g x)).
    cbn [for_each]. apply installs_upto_seq; auto.
Qed.

End Runs.

(** ** What each step of the run emits *)

Section Steps.
Context {world : Type} (os : OS world) (codes : error_codes).
Implicit Types (w : world) (t : list event).

Lemma emits_only_run P cmd : emits_only P (Utils.run os cmd).
Proof.
  intros w. unfold Utils.run, trace_of.
  destruct (run_cmd os cmd w). constructor.
Qed.

Lemma emits_only_fs P path :
  emits_only P (Packager.isdir os path)
  /\ emits_only P (Packager.isfile os path)
  /\ emits_only P (Packager.exists_ os path).
Proof. repeat split; intros w; constructor. Qed.

End Steps.

(** Splits an [emits_only] goal along the structure of the computation. *)
Ltac emits :=
  repeat first
    [ apply emits_only_ret
    | apply emits_only_sys_exit
    | apply emits_only_raise
    | apply emits_only_run
    | apply emits_only_fs
    | apply emits_only_emit; simpl; tauto
    | apply emits_only_bind; [|intros ?]
    | apply emits_only_for_each; intros ?
    | apply emits_only_for_fold; intros ? ?
    | match goal with
      | |- emits_only _ (if ?b then _ else _) => destruct b
      | |- emits_only _ (match ?x with _ => _ end) => destruct x
      end ].

Section Phases.
Context {world : Type} (os : OS world) (codes : error_codes).
Implicit Types (w : world) (t : list event).

Lemma install_module_emits module venv :
  emits_only not_uninstall (Utils.install_module os codes module venv).
Proof. unfold Utils.install_module, not_uninstall. emits. Qed.

Lemma install_module_installs module venv :
  installs_upto (Utils.install_module os codes module venv) [module].
Proof.
  intros w. unfold Utils.install_module, bind, emit, Utils.run, trace_of.
  simpl. destruct (run_cmd os _ w) as [w' p].
  destruct (negb _); simpl; done.
Qed.

Lemma check_installed_emits P module venv :
  P (Ev_check_installed module venv) ->
  emits_only P (Utils.check_installed os module venv).
Proof.
  intros HP. unfold Utils.check_installed.
  apply emits_only_bind; [by apply emits_only_emit|intros _]. emits.
Qed.

Lemma uninstall_module_emits module venv :
  emits_only not_install (Utils.uninstall_module os codes module venv).
Proof. unfold Utils.uninstall_module, not_install. emits. Qed.

Lemma install_external_installs venv :
  installs_upto (Packager.install_external os codes venv)
    Packager.EXTERNAL_MODULES.
Proof.
  unfold Packager.install_external.
  rewrite <- (omap_Some_id Packager.EXTERNAL_MODULES) at 2.
  apply installs_upto_for_each. intros x. apply install_module_installs.
Qed.

Lemma install_core_module_installs core venv module :
  installs_upto (Packager.install_core_module os codes core venv module)
    (option_list (core_location core module)).
Proof.
  unfold Packager.install_core_module, core_location, Packager.truthy_get.
  destruct (core !! module) as [source|]; simpl.
  - destruct (Str.truthy source); simpl; [|apply installs_upto_ret].
    destruct (String.eqb source "exclude"); simpl.
    + apply installs_upto_ret.
    + apply install_module_installs.
  - apply installs_upto_ret.
Qed.

Lemma install_core_installs core venv :
  installs_upto (Packager.install_core os codes core venv)
    (omap (core_location core) Packager.MODULES_LIST).
Proof.
  unfold Packager.install_core. apply installs_upto_for_each.
  intros x. apply install_core_module_installs.
Qed.

Lemma install_additional_installs modules venv :
  installs_upto (Packager.install_additional os codes modules venv)
    (Packager.additional modules).
Proof.
  unfold Packager.install_additional.
  rewrite <- (omap_Some_id (Packager.additional modules)) at 2.
  apply installs_upto_for_each. intros x. apply install_module_installs.
Qed.

Lemma install_agent_installs modules venv :
  installs_upto (Packager.install_agent os codes modules venv)
    (if Packager.truthy_get (Packager.agent modules)
     then [default "" (Packager.agent modules)] else []).
Proof.
  unfold Packager.install_agent.
  destruct (Packager.truthy_get _).
  - apply install_module_installs.
  - apply installs_upto_ret.
Qed.

Lemma uninstall_excluded_emits core venv :
  emits_only not_install (Packager.uninstall_excluded os codes core venv).
Proof.
  unfold Packager.uninstall_excluded. apply emits_only_for_each. intros m.
  unfold Packager.uninstall_excluded_module.
  destruct (core !! m) as [source|]; [|emits].
  destruct (String.eqb source "exclude"); [|emits].
  apply emits_only_bind.
  - apply check_installed_emits. unfold not_install. simpl. tauto.
  - intros [|]; [apply uninstall_module_emits|emits].
Qed.

Lemma validate_failed_emits P modules venv :
  (forall n v, P (Ev_check_installed n v)) ->
  emits_only P (Packager._validate_failed os modules venv).
Proof.
  intros HP.
  assert (forall m failed, emits_only P (Packager.check os m venv failed)).
  { intros m failed. unfold Packager.check.
    apply emits_only_bind; [by apply check_installed_emits|]. intros b. emits. }
  unfold Packager._validate_failed.
  apply emits_only_bind.
  { apply emits_only_for_fold. intros [k src] failed.
    destruct (_ && _); [done|emits]. }
  intros f1. apply emits_only_bind.
  { apply emits_only_for_fold. done. }
  intros f2. destruct (Packager.agent modules); [done|emits].
Qed.

Lemma validate_emits P modules venv :
  (forall n v, P (Ev_check_installed n v)) ->
  emits_only P (Packager._validate os modules venv).
Proof.
  intros HP. unfold Packager._validate.
  apply emits_only_bind; [by apply validate_failed_emits|].
  intros failed. emits.
Qed.

(** The installs of a run are those planned, in that order. *)
Lemma install_all_installs modules venv :
  installs_upto (Packager.install_all os codes modules venv)
    (planned_installs modules).
Proof.
  unfold Packager.install_all, planned_installs.
  apply installs_upto_seq; [apply install_external_installs|intros _].
  apply installs_upto_seq; [apply install_core_installs|intros _].
  apply installs_upto_seq; [apply install_additional_installs|intros _].
  rewrite <- (app_nil_r (if Packager.truthy_get _ then _ else _)).
  apply installs_upto_seq; [apply install_agent_installs|intros _].
  apply installs_upto_of_emits, uninstall_excluded_emits.
Qed.

Lemma emits_only_rmtree (P : event -> Prop) path :
  P (Ev_rmtree path) -> emits_only P (Packager.rmtree os path).
Proof. intros HP w. by repeat constructor. Qed.

Lemma emits_only_remove (P : event -> Prop) path :
  P (Ev_remove path) -> emits_only P (Packager.remove os path).
Proof. intros HP w. by repeat constructor. Qed.

Lemma installs_upto_after {A B} (m : M world A) (k : A -> M world B)
      (P : A -> Prop) l :
  emits_only not_install m ->
  (forall w a, result_of (m w) = Ret a -> P a) ->
  (forall a, P a -> installs_upto (k a) l) ->
  installs_upto (bind m k) l.
Proof.
  intros Hm HP Hk.
  apply (installs_upto_bind m k P [] l); [|done..].
  by apply installs_upto_of_emits.
Qed.

Lemma installs_upto_then {A B} (m : M world A) (k : A -> M world B) l :
  installs_upto m l ->
  (forall a, emits_only not_install (k a)) ->
  installs_upto (bind m k) l.
Proof.
  intros Hm Hk. rewrite <- (app_nil_r l).
  apply installs_upto_seq; [done|]. intros a.
  by apply installs_upto_of_emits.
Qed.

(** [_merge_modules] neither reads nor changes the world. *)
Lemma merge_modules_run modules0 config w :
  Packager._merge_modules modules0 config w
  = (w, [],
     match agent_of config with
     | Some a =>
         Ret {| Packager.core :=
                  default ∅ (Packager.core_modules config)
                  ∪ Packager.core modules0;
                Packager.additional :=
                  Packager.additional modules0
                  ++ default [] (Packager.additional_modules config);
                Packager.agent := Some a |}
     | None => Exit 3
     end).
Proof.
  unfold Packager._merge_modules, agent_of, bind, ret, sys_exit.
  destruct (Packager.cloudify_agent_module config) as [m|]; [done|].
  destruct (Packager.cloudify_agent_version config) as [v|]; done.
Qed.

Lemma merge_modules_emits P modules0 config :
  emits_only P (Packager._merge_modules (world:=world) modules0 config).
Proof. intros w. rewrite merge_modules_run. constructor. Qed.

Lemma prepare_emits venv python destination_tar force :
  emits_only (fun e => not_install e /\ not_uninstall e)
    (Packager.prepare os codes venv python destination_tar force).
Proof.
  unfold Packager.prepare, Packager.prepare_virtualenv,
    Packager.prepare_output_file, Utils.make_virtualenv,
    not_install, not_uninstall.
  repeat first
    [ apply emits_only_rmtree; simpl; tauto
    | apply emits_only_remove; simpl; tauto
    | progress emits ].
Qed.

Lemma emits_only_weaken {A} (P Q : event -> Prop) (m : M world A) :
  (forall e, P e -> Q e) -> emits_only P m -> emits_only Q m.
Proof. intros HPQ Hm w. eapply Forall_impl; [apply Hm|done]. Qed.

(** What runs after the installs and the exclusion pass. *)
Lemma finish_emits P modules venv destination_tar keep_venv no_validate :
  (forall e, not_install e -> not_uninstall e -> P e) ->
  emits_only P
    ((if negb no_validate then Packager._validate os modules venv
      else ret tt) ;;;
     Utils.tar os codes venv destination_tar ;;;
     (if negb keep_venv then Packager.rmtree os venv else ret tt) ;;;
     Utils.get_installed os venv ;;;
     ret tt).
Proof.
  intros HP.
  assert (forall e, (not_install e /\ not_uninstall e) -> P e) as HP'
      by (intros e [? ?]; auto).
  apply (emits_only_weaken _ _ _ HP').
  unfold Utils.tar, Utils.get_installed, not_install, not_uninstall.
  apply emits_only_bind.
  { destruct (negb no_validate); [|emits].
    apply validate_emits. intros; simpl; tauto. }
  intros _.
  repeat first
    [ apply emits_only_rmtree; simpl; tauto
    | progress emits ].
Qed.

(** The installs of [create] are those planned for the merged modules. *)
Lemma create_installs config force dry no_validate modules w0 :
  result_of (Packager._merge_modules initial_modules config w0)
  = Ret modules ->
  installs_upto (Packager.create os codes config force dry no_validate)
    (planned_installs modules).
Proof.
  intros Hm. unfold Packager.create.
  apply (installs_upto_after _ _ (fun _ => True)); [|done|intros [d r] _].
  { destruct (platform_dist os) as [[[? ?] ?]|]; emits. }
  apply (installs_upto_after _ _ (fun _ => True)); [|done|intros _ _].
  { eapply emits_only_weaken; [|apply prepare_emits]. by intros e [? ?]. }
  apply (installs_upto_after _ _ (fun a => a = modules)).
  { apply merge_modules_emits. }
  { intros w a Ha. rewrite merge_modules_run in Hm, Ha.
    unfold result_of in *. simpl in *. congruence. }
  intros ? ->.
  apply (installs_upto_after _ _ (fun _ => True)); [|done|intros _ _].
  { destruct dry; emits. }
  apply installs_upto_then; [apply install_all_installs|intros _].
  apply finish_emits. auto.
Qed.

End Phases.

(** ** Validation against a stable listing *)

Section Validation.
Context {world : Type} (os : OS world) (venv : string).
Implicit Types (w : world) (failed names : list string).

Lemma omap_Some_map {A B} (f : A -> B) (l : list A) :
  omap (fun x => Some (f x)) l = map f l.
Proof. induction l as [|x l IH]; [done|]. cbn. by f_equal. Qed.

Lemma check_installed_run module w :
  Utils.check_installed os module venv w
  = ((run_cmd os (Utils.pip_freeze_cmd venv) w).1,
     [Ev_check_installed module venv],
     match Utils.listed os module (listing os venv w) with
     | Some b => Ret b
     | None => Raised
     end).
Proof.
  unfold Utils.check_installed, listing, bind, emit, Utils.run.
  destruct (run_cmd os (Utils.pip_freeze_cmd venv) w) as [w' p]. simpl.
  by destruct (Utils.listed os module (stdout p)) as [[|]|].
Qed.

Lemma check_run module failed w :
  Packager.check os module venv failed w
  = ((run_cmd os (Utils.pip_freeze_cmd venv) w).1,
     [Ev_check_installed (Packager.get_module_name module) venv],
     match Utils.listed os (Packager.get_module_name module) (listing os venv w)
     with
     | Some true => Ret failed
     | Some false => Ret (failed ++ [Packager.get_module_name module])
     | None => Raised
     end).
Proof.
  unfold Packager.check, bind. rewrite check_installed_run.
  by destruct (Utils.listed os _ _) as [[|]|].
Qed.

Lemma listing_after_freeze w :
  freeze_stable os venv ->
  listing os venv (run_cmd os (Utils.pip_freeze_cmd venv) w).1
  = listing os venv w.
Proof.
  intros Hst. specialize (Hst w). unfold listing.
  by destruct (run_cmd os (Utils.pip_freeze_cmd venv) w) as [w' p].
Qed.

Lemma collect_app L names1 names2 failed :
  collect os L venv (names1 ++ names2) failed
  = match collect os L venv names1 failed with
    | (t1, Ret failed1) =>
        (t1 ++ (collect os L venv names2 failed1).1,
         (collect os L venv names2 failed1).2)
    | (t1, r) => (t1, r)
    end.
Proof.
  revert failed. induction names1 as [|n names1 IH]; intros failed; simpl.
  - by destruct (collect os L venv names2 failed).
  - destruct (Utils.listed os n L) as [b|]; [|done]. rewrite IH.
    by destruct (collect os L venv names1 _) as [t1 [f1|c|]].
Qed.

(** A loop of checks over a list, some entries of which are skipped,
    looks for the selected names against the one listing. *)
Lemma for_fold_collect {A} (l : list A)
      (f : A -> list string -> M world (list string))
      (sel : A -> option string) L :
  freeze_stable os venv ->
  (forall x failed w,
     f x failed w = match sel x with
                    | Some n =>
                        ((run_cmd os (Utils.pip_freeze_cmd venv) w).1,
                         [Ev_check_installed n venv],
                         match Utils.listed os n (listing os venv w) with
                         | Some true => Ret failed
                         | Some false => Ret (failed ++ [n])
                         | None => Raised
                         end)
                    | None => (w, [], Ret failed)
                    end) ->
  forall failed w, listing os venv w = L ->
  exists w',
    for_fold l f failed w
    = (w', (collect os L venv (omap sel l) failed).1,
       (collect os L venv (omap sel l) failed).2)
    /\ listing os venv w' = L.
Proof.
  intros Hst Hf. induction l as [|x l IH]; intros failed w HL.
  - exists w. done.
  - cbn [for_fold]. unfold bind. rewrite Hf. cbn [omap list_omap].
    destruct (sel x) as [n|].
    + rewrite HL. cbn [collect].
      destruct (Utils.listed os n L) as [b|].
      * destruct (IH (if b then failed else failed ++ [n])
                    (run_cmd os (Utils.pip_freeze_cmd venv) w).1)
          as (w' & E & HL').
        { by rewrite listing_after_freeze. }
        exists w'. split; [|done].
        destruct b; rewrite E;
          by destruct (collect os L venv (omap sel l) _).
      * eexists. split; [done|]. by rewrite listing_after_freeze.
    + destruct (IH failed w HL) as (w' & E & HL').
      exists w'. split; [|done]. by rewrite E.
Qed.

(** [_validate_failed] looks for the [checked_names], in order, in the
    listing it starts from. *)
Lemma validate_failed_run (modules : Packager.modules) w :
  freeze_stable os venv ->
  exists w',
    Packager._validate_failed os modules venv w
    = (w',
       (collect os (listing os venv w) venv (checked_names modules) []).1,
       (collect os (listing os venv w) venv (checked_names modules) []).2)
    /\ listing os venv w' = listing os venv w.
Proof.
  intros Hst. set (L := listing os venv w).
  unfold Packager._validate_failed, checked_names.
  destruct (for_fold_collect (map_to_list (Packager.core modules))
              (fun '(core_module, source) failed =>
                 if Str.truthy source && negb (String.eqb source "exclude")
                 then Packager.check os core_module venv failed
                 else ret failed)
              core_checked_name L Hst) with ([] : list string) w
    as (w1 & E1 & HL1); [|done|].
  { intros [k src] failed w0. unfold core_checked_name.
    destruct (_ && _); [|done]. apply check_run. }
  destruct (collect os L venv (omap core_checked_name _) []) as [t1 r1] eqn:C1.
  rewrite collect_app, C1. unfold bind at 1. rewrite E1. simpl.
  destruct r1 as [f1|c|]; [|by exists w1..].
  destruct (for_fold_collect (Packager.additional modules)
              (fun additional_module failed =>
                 Packager.check os additional_module venv failed)
              (fun a => Some (Packager.get_module_name a)) L Hst)
    with f1 w1 as (w2 & E2 & HL2); [|done|].
  { intros a failed w0. apply check_run. }
  rewrite omap_Some_map in E2.
  destruct (collect os L venv (map _ _) f1) as [t2 r2] eqn:C2.
  rewrite collect_app, C2. unfold bind. rewrite E2. simpl.
  destruct r2 as [f2|c|]; [|by exists w2..].
  destruct (Packager.agent modules) as [a|].
  - rewrite check_run. change (Packager.get_module_name "cloudify-agent")
      with "cloudify-agent". rewrite HL2. cbn [collect].
    eexists. split.
    + destruct (Utils.listed os "cloudify-agent" L) as [[|]|]; simpl;
        by rewrite ?app_assoc.
    + by rewrite listing_after_freeze.
  - exists w2. simpl. by rewrite app_nil_r.
Qed.

End Validation.

(** ** The claims *)

Section Claims.
Context {world : Type} (os : OS world) (codes : error_codes).
Implicit Types (w : world) (config : Packager.config).

(** C5: every run of [create] issues its install calls in this order:
    the external modules, then the catalog slots that have a location,
    in the order of [MODULES_LIST], then the additional modules in the
    order of the configuration, then the agent module.  A run that
    stops early has issued a start of that sequence; how the
    [core_modules] mapping was written down does not matter. *)
Theorem install_order config force dry no_validate w modules :
  result_of (Packager._merge_modules initial_modules config w) = Ret modules ->
  let r := Packager.create os codes config force dry no_validate w in
  installs (trace_of r) `prefix_of` planned_installs modules
  /\ (result_of r = Ret tt -> installs (trace_of r) = planned_installs modules)
  /\ planned_installs modules
     = Packager.EXTERNAL_MODULES
       ++ omap (core_location (default ∅ (Packager.core_modules config)))
            Packager.MODULES_LIST
       ++ default [] (Packager.additional_modules config)
       ++ (if Packager.truthy_get (agent_of config)
           then [default "" (agent_of config)] else [])
  /\ (forall l1 l2 : list (string * string),
        NoDup l1.*1 -> l1 ≡ₚ l2 ->
        omap (core_location (list_to_map l1)) Packager.MODULES_LIST
        = omap (core_location (list_to_map l2)) Packager.MODULES_LIST).
Proof.
  intros Hm r.
  destruct (create_installs os codes config force dry no_validate modules w
              Hm w) as [Hpre Hall].
  split; [done|]. split; [apply Hall|]. split.
  - rewrite merge_modules_run in Hm. unfold result_of in Hm. simpl in Hm.
    destruct (agent_of config) as [a|]; [|done].
    injection Hm as <-. unfold planned_installs. simpl.
    by rewrite (right_id_L ∅ (∪)).
  - intros l1 l2 Hnd Hp. by rewrite (list_to_map_proper l1 l2 Hnd Hp).
Qed.

End Claims.

Lemma install_order_witness :
  result_of (Packager._merge_modules initial_modules example_config
               example_listing) = Ret example_modules
  /\ installs (trace_of (Packager.create (stub_os false false 0) stub_codes
                           example_config false false false example_listing))
     = ["celery==3.0.24"; "cloudify-rest-client==3.2"; "pyyaml";
        "https://github.com/nir0s/cloudify-agent/archive/1.0.tar.gz"].
Proof.
  assert (result_of (Packager._merge_modules initial_modules example_config
                       example_listing) = Ret example_modules) as H
      by (vm_compute; reflexivity).
  split; [exact H|].
  destruct (install_order (stub_os false false 0) stub_codes example_config
              false false false example_listing example_modules H)
    as (_ & Hall & _).
  rewrite Hall; vm_compute; reflexivity.
Defined.

(** ** Validation: which names, all of them, and the outcome *)

Section ValidationClaims.
Context {world : Type} (os : OS world) (venv : string).
Implicit Types (w : world) (modules : Packager.modules).

Lemma collect_listed L names failed :
  Forall (fun n => is_Some (Utils.listed os n L)) names ->
  collect os L venv names failed
  = (map (fun n => Ev_check_installed n venv) names,
     Ret (failed ++ missing os L names)).
Proof.
  intros Hn. revert failed.
  induction Hn as [|n names [b Hb] _ IH]; intros failed.
  - simpl. by rewrite app_nil_r.
  - cbn [collect]. rewrite Hb, IH. unfold missing.
    rewrite filter_cons. destruct b.
    + rewrite decide_False by (by rewrite Hb; intros H; apply H). done.
    + rewrite decide_True by (by rewrite Hb). by rewrite <- app_assoc.
Qed.

Lemma checked_names_spec modules n :
  n ∈ checked_names modules <->
  (exists core_module source,
      Packager.core modules !! core_module = Some source
      /\ source <> "" /\ source <> "exclude"
      /\ n = Packager.get_module_name core_module)
  \/ (exists additional_module,
         additional_module ∈ Packager.additional modules
         /\ n = Packager.get_module_name additional_module)
  \/ (is_Some (Packager.agent modules) /\ n = "cloudify-agent").
Proof.
  unfold checked_names. rewrite !elem_of_app.
  assert (n ∈ omap core_checked_name (map_to_list (Packager.core modules))
          <-> exists core_module source,
              Packager.core modules !! core_module = Some source
              /\ source <> "" /\ source <> "exclude"
              /\ n = Packager.get_module_name core_module) as ->.
  { rewrite list_elem_of_omap. split.
    + intros ([k src] & Hin & Hsel). apply elem_of_map_to_list in Hin.
      exists k, src. unfold core_checked_name in Hsel.
      destruct (Str.truthy src) eqn:Ht; [|done].
      destruct (String.eqb src "exclude") eqn:He; [done|].
      simpl in Hsel. injection Hsel as <-.
      apply String.eqb_neq in He. split; [done|].
      split; [by intros ->|done].
    + intros (k & src & Hk & Hne & Hex & ->). exists (k, src).
      split; [by apply elem_of_map_to_list|]. unfold core_checked_name.
      apply String.eqb_neq in Hex. rewrite Hex.
      by destruct src as [|c src]. }
  assert (n ∈ map Packager.get_module_name (Packager.additional modules)
          <-> exists additional_module,
              additional_module ∈ Packager.additional modules
              /\ n = Packager.get_module_name additional_module) as ->.
  { rewrite list_elem_of_fmap. split.
    + intros (a & -> & Ha). eauto.
    + intros (a & Ha & ->). eauto. }
  assert (n ∈ match Packager.agent modules with
              | Some _ => ["cloudify-agent"]
              | None => []
              end
          <-> is_Some (Packager.agent modules) /\ n = "cloudify-agent") as ->.
  { destruct (Packager.agent modules) as [a|].
    + rewrite list_elem_of_singleton. split; [by intros ->; eauto|].
      by intros [_ ->].
    + split; [by intros ?%elem_of_nil|]. by intros [[? ?] _]. }
  done.
Qed.

Lemma validate_run modules w :
  Packager._validate os modules venv w
  = (world_of (Packager._validate_failed os modules venv w),
     trace_of (Packager._validate_failed os modules venv w),
     match result_of (Packager._validate_failed os modules venv w) with
     | Ret (_ :: _) => Exit 10
     | Ret [] => Ret tt
     | Exit c => Exit c
     | Raised => Raised
     end).
Proof.
  unfold Packager._validate, bind, world_of, trace_of, result_of.
  destruct (Packager._validate_failed os modules venv w)
    as [[w1 t1] [[|n failed]|c|]]; simpl; by rewrite ?app_nil_r.
Qed.

Lemma validate_failed_same_listing modules w w' :
  freeze_stable os venv ->
  listing os venv w' = listing os venv w ->
  trace_of (Packager._validate_failed os modules venv w')
  = trace_of (Packager._validate_failed os modules venv w)
  /\ result_of (Packager._validate_failed os modules venv w')
     = result_of (Packager._validate_failed os modules venv w).
Proof.
  intros Hst HL.
  destruct (validate_failed_run os venv modules w Hst) as (w1 & E1 & _).
  destruct (validate_failed_run os venv modules w' Hst) as (w2 & E2 & _).
  rewrite E1, E2, HL. done.
Qed.

(** Against a listing that stays the same, and when [re.search] answers
    for every name: one check per name, and [failed] is the list of the
    names the listing does not show. *)
Lemma validate_by_listing modules w :
  freeze_stable os venv ->
  let L := listing os venv w in
  let names := checked_names modules in
  Forall (fun n => is_Some (Utils.listed os n L)) names ->
  trace_of (Packager._validate_failed os modules venv w)
  = map (fun n => Ev_check_installed n venv) names
  /\ result_of (Packager._validate_failed os modules venv w)
     = Ret (missing os L names)
  /\ (forall n, n ∈ missing os L names <->
                n ∈ names /\ Utils.listed os n L = Some false)
  /\ (result_of (Packager._validate os modules venv w) = Exit 10
      <-> missing os L names <> [])
  /\ (result_of (Packager._validate os modules venv w) = Ret tt
      <-> missing os L names = []).
Proof.
  intros Hst L names Hn.
  destruct (validate_failed_run os venv modules w Hst) as (w1 & E1 & _).
  fold L names in E1. rewrite (collect_listed L names [] Hn) in E1.
  simpl in E1. rewrite validate_run, E1. unfold trace_of, result_of. simpl.
  split; [done|]. split; [done|]. split.
  - intros n. unfold missing. rewrite list_elem_of_filter.
    split; intros [H1 H2].
    + split; [done|]. rewrite Forall_forall in Hn.
      destruct (Hn n H2) as [[|] Hb]; [|done]. by rewrite Hb in H1.
    + split; [|done]. by rewrite H2.
  - destruct (missing os L names); split; done.
Qed.

(** Where [re.search] raises for a name, validation stops: the names
    after it are not looked for. *)
Lemma validate_raises_at modules w before n after :
  freeze_stable os venv ->
  let L := listing os venv w in
  checked_names modules = before ++ n :: after ->
  Forall (fun n => is_Some (Utils.listed os n L)) before ->
  Utils.listed os n L = None ->
  trace_of (Packager._validate os modules venv w)
  = map (fun n => Ev_check_installed n venv) (before ++ [n])
  /\ result_of (Packager._validate os modules venv w) = Raised.
Proof.
  intros Hst L Hnames Hbefore Hn.
  destruct (validate_failed_run os venv modules w Hst) as (w1 & E1 & _).
  fold L in E1. rewrite Hnames, collect_app in E1.
  rewrite (collect_listed L before [] Hbefore) in E1. cbn [collect] in E1.
  rewrite Hn in E1. simpl in E1.
  rewrite validate_run, E1. unfold trace_of, result_of. simpl.
  by rewrite map_app.
Qed.

(** C3, as amended: validation looks for the name of every entry of
    [core] whose source is a location (not empty, not ['exclude']),
    for every additional module, and for [cloudify-agent] whatever the
    agent's source is.  When [re.search] answers for every one of these
    names, it looks for each of them, in one pass, [failed] is the
    list of all those the listing does not show, and the run ends with
    exit code 10 exactly when that list is not empty.  When
    [re.search] raises for one of the names, validation ends there, in
    that exception: the names after it are not looked for and there is
    no exit code 10. *)
Theorem validation_collects_all_missing modules w :
  freeze_stable os venv ->
  let L := listing os venv w in
  let names := checked_names modules in
  (forall n, n ∈ names <->
     (exists core_module source,
         Packager.core modules !! core_module = Some source
         /\ source <> "" /\ source <> "exclude"
         /\ n = Packager.get_module_name core_module)
     \/ (exists additional_module,
            additional_module ∈ Packager.additional modules
            /\ n = Packager.get_module_name additional_module)
     \/ (is_Some (Packager.agent modules) /\ n = "cloudify-agent"))
  /\ (Forall (fun n => is_Some (Utils.listed os n L)) names ->
      trace_of (Packager._validate_failed os modules venv w)
      = map (fun n => Ev_check_installed n venv) names
      /\ result_of (Packager._validate_failed os modules venv w)
         = Ret (missing os L names)
      /\ (forall n, n ∈ missing os L names <->
                    n ∈ names /\ Utils.listed os n L = Some false)
      /\ (result_of (Packager._validate os modules venv w) = Exit 10
          <-> missing os L names <> [])
      /\ (result_of (Packager._validate os modules venv w) = Ret tt
          <-> missing os L names = []))
  /\ (forall before n after,
        names = before ++ n :: after ->
        Forall (fun n => is_Some (Utils.listed os n L)) before ->
        Utils.listed os n L = None ->
        trace_of (Packager._validate os modules venv w)
        = map (fun n => Ev_check_installed n venv) (before ++ [n])
        /\ result_of (Packager._validate os modules venv w) = Raised).
Proof.
  intros Hst L names. split; [apply checked_names_spec|]. split.
  - by apply validate_by_listing.
  - intros before n after. by apply validate_raises_at.
Qed.

(** C8: validating again, against an environment whose listing has not
    changed, gives the same list of missing names and the same
    outcome; so does validating twice in a row. *)
Theorem validation_idempotent modules w :
  freeze_stable os venv ->
  (forall w', listing os venv w' = listing os venv w ->
     result_of (Packager._validate_failed os modules venv w')
     = result_of (Packager._validate_failed os modules venv w)
     /\ result_of (Packager._validate os modules venv w')
        = result_of (Packager._validate os modules venv w))
  /\ result_of (Packager._validate_failed os modules venv
                  (world_of (Packager._validate_failed os modules venv w)))
     = result_of (Packager._validate_failed os modules venv w)
  /\ result_of (Packager._validate os modules venv
                  (world_of (Packager._validate os modules venv w)))
     = result_of (Packager._validate os modules venv w).
Proof.
  intros Hst.
  assert (forall w', listing os venv w' = listing os venv w ->
     result_of (Packager._validate_failed os modules venv w')
     = result_of (Packager._validate_failed os modules venv w)
     /\ result_of (Packager._validate os modules venv w')
        = result_of (Packager._validate os modules venv w)) as Hsame.
  { intros w' HL.
    destruct (validate_failed_same_listing modules w w' Hst HL) as [_ Hr].
    split; [done|]. rewrite !validate_run. unfold result_of at 1 3.
    simpl. by rewrite Hr. }
  split; [done|].
  destruct (validate_failed_run os venv modules w Hst) as (w1 & E1 & HL1).
  split.
  - apply Hsame. by rewrite E1.
  - apply Hsame. rewrite validate_run. unfold world_of at 1. simpl.
    by rewrite E1.
Qed.

End ValidationClaims.

Lemma validation_collects_all_missing_witness :
  freeze_stable (stub_os false false 0) "env"
  /\ Forall (fun n => is_Some (Utils.listed (stub_os false false 0) n
                                "cloudify-rest-client==3.2"))
       (checked_names example_modules)
  /\ result_of (Packager._validate_failed (stub_os false false 0)
                  example_modules "env" "cloudify-rest-client==3.2")
     = Ret ["pyyaml"; "cloudify-agent"]
  /\ result_of (Packager._validate (stub_os false false 0)
                  example_modules "env" "cloudify-rest-client==3.2")
     = Exit 10
  /\ Utils.listed (stub_os false false 0) "*foo" "celery==3.0.24" = None
  /\ result_of (Packager._validate (stub_os false false 0)
                  rejected_name_modules "env" "celery==3.0.24")
     = Raised.
Proof.
  assert (freeze_stable (stub_os false false 0) "env") as Hst
      by (intros w; reflexivity).
  assert (Forall (fun n => is_Some (Utils.listed (stub_os false false 0) n
                                      "cloudify-rest-client==3.2"))
            (checked_names example_modules)) as Hn
      by (vm_compute; repeat constructor; eexists; reflexivity).
  split; [exact Hst|]. split; [exact Hn|].
  destruct (validation_collects_all_missing (stub_os false false 0) "env"
              example_modules "cloudify-rest-client==3.2" Hst)
    as (_ & Hall & _).
  destruct (Hall Hn) as (_ & Hres & _ & Hexit & _).
  destruct (validation_collects_all_missing (stub_os false false 0) "env"
              rejected_name_modules "celery==3.0.24" Hst)
    as (_ & _ & Hstop).
  assert (Utils.listed (stub_os false false 0) "*foo" "celery==3.0.24" = None)
    as Hfoo by (vm_compute; reflexivity).
  split; [|split; [|split; [exact Hfoo|]]].
  - rewrite Hres. vm_compute. reflexivity.
  - apply Hexit. vm_compute. discriminate.
  - apply (Hstop [] "*foo" ["pyyaml"; "cloudify-agent"]);
      [vm_compute; reflexivity|constructor|exact Hfoo].
Defined.

(** C3, as stated, fails: with the additional modules [*foo] and
    [pyyaml] and an agent, validation has three names to look for and
    the listing shows none of them ([pyyaml] is searched for without
    error and is not there); it makes the first check only, [re]
    rejects the pattern [*foo], and the run ends in that exception:
    [pyyaml] and [cloudify-agent] are never looked for, nothing is
    collected, and the exit code is not 10. *)
Lemma validation_stops_at_rejected_name :
  let os := stub_os false false 0 in
  let L := "celery==3.0.24" in
  checked_names rejected_name_modules = ["*foo"; "pyyaml"; "cloudify-agent"]
  /\ Re.sre_parse (Str.chars "*foo") = Re.Rejected
  /\ Utils.listed os "pyyaml" L = Some false
  /\ Utils.listed os "cloudify-agent" L = Some false
  /\ Packager._validate os rejected_name_modules "env" L
     = (L, [Ev_check_installed "*foo" "env"], Raised)
  /\ trace_of (Packager._validate os rejected_name_modules "env" L)
     <> map (fun n => Ev_check_installed n "env")
          (checked_names rejected_name_modules)
  /\ result_of (Packager._validate os rejected_name_modules "env" L)
     <> Exit 10.
Proof. vm_compute. repeat split; (reflexivity || discriminate). Qed.

Lemma validation_idempotent_witness :
  freeze_stable (stub_os false false 0) "env"
  /\ result_of (Packager._validate (stub_os false false 0) example_modules
                  "env"
                  (world_of (Packager._validate (stub_os false false 0)
                               example_modules "env" example_listing)))
     = result_of (Packager._validate (stub_os false false 0) example_modules
                    "env" example_listing).
Proof.
  assert (freeze_stable (stub_os false false 0) "env") as Hst
      by (intros w; reflexivity).
  split; [exact Hst|].
  apply (validation_idempotent (stub_os false false 0) "env" example_modules
           example_listing Hst).
Defined.

(** ** The membership test *)

Section MembershipClaims.
Context {world : Type} (os : OS world) (venv : string).
Implicit Types (w : world).

(** C9: for every module name, [check_installed] answers what
    [re.search] answers for the name, taken as a pattern, against the
    lower-cased text of [pip freeze]: [True] or [False] as the search
    finds a match or not, and the exception of [re] when it raises.
    For a pattern of the modelled fragment this is [True] exactly when
    a word of the pattern occurs somewhere in that text and [False]
    exactly when none does; so a name without special characters that
    is a substring of the listing, be it inside the name of another
    package, is reported as installed. *)
Theorem check_installed_is_regex_search module w :
  let text := Str.lower (listing os venv w) in
  let answer := result_of (Utils.check_installed os module venv w) in
  (forall b, answer = Ret b <->
             Re.search (re_search_beyond os) module text = Some b)
  /\ (answer = Raised <-> Re.search (re_search_beyond os) module text = None)
  /\ (forall p,
        Re.sre_parse (Str.chars module) = Re.Pattern p ->
        (answer = Ret true <->
         exists word,
           Re.pattern_lang p word /\ Re.occurs_in word (Str.chars text))
        /\ (answer = Ret false <->
            ~ exists word,
                Re.pattern_lang p word
                /\ Re.occurs_in word (Str.chars text)))
  /\ (Re.literal (Str.chars module) ->
      Re.occurs_in (Str.chars module) (Str.chars text) ->
      answer = Ret true).
Proof.
  intros text answer. subst answer. rewrite check_installed_run.
  unfold result_of. simpl. unfold Utils.listed. fold text.
  split; [|split; [|split]].
  - intros b.
    destruct (Re.search (re_search_beyond os) module text) as [b'|];
      split; congruence.
  - by destruct (Re.search (re_search_beyond os) module text) as [b'|].
  - intros p Hp.
    destruct (ReFacts.search_pattern_iff (re_search_beyond os) module text p
                Hp) as (b & -> & Hb).
    rewrite <- Hb. split; [split; congruence|].
    destruct b; split; try congruence; intros H; by destruct H.
  - intros Hlit Hocc.
    destruct (ReFacts.search_literal (re_search_beyond os) module text Hlit)
      as (b & -> & Hb).
    f_equal. by apply Hb.
Qed.

End MembershipClaims.

Lemma check_installed_is_regex_search_witness :
  Re.literal (Str.chars "cloudify-rest")
  /\ Re.occurs_in (Str.chars "cloudify-rest")
       (Str.chars (Str.lower "Cloudify-REST-client==3.2"))
  /\ result_of (Utils.check_installed (stub_os false false 0)
                  "cloudify-rest" "env" "Cloudify-REST-client==3.2")
     = Ret true.
Proof.
  assert (Re.literal (Str.chars "cloudify-rest")) as Hlit
      by (vm_compute; repeat constructor).
  assert (Re.occurs_in (Str.chars "cloudify-rest")
            (Str.chars (Str.lower "Cloudify-REST-client==3.2"))) as Hocc
      by (exists [], (Str.chars "-client==3.2"); vm_compute; reflexivity).
  split; [exact Hlit|]. split; [exact Hocc|].
  destruct (check_installed_is_regex_search (stub_os false false 0) "env"
              "cloudify-rest" "Cloudify-REST-client==3.2")
    as (_ & _ & _ & Hsub).
  exact (Hsub Hlit Hocc).
Defined.

(** ** Name comparison *)

Lemma lower_ascii_idemp c : Str.lower_ascii (Str.lower_ascii c) = Str.lower_ascii c.
Proof. by destruct c as [[] [] [] [] [] [] [] []]. Qed.

Lemma lower_idemp s : Str.lower (Str.lower s) = Str.lower s.
Proof.
  induction s as [|c s IH]; [done|]. simpl.
  by rewrite lower_ascii_idemp, IH.
Qed.

Lemma get_module_name_hyphens d1 d2 :
  same_up_to_hyphens d1 d2 ->
  Packager.get_module_name d1 = Packager.get_module_name d2.
Proof.
  unfold same_up_to_hyphens, Packager.get_module_name.
  revert d2. induction d1 as [|a d1 IH]; intros [|b d2] H;
    simpl in H; inversion H; subst; [done|].
  simpl. f_equal; [|by apply IH].
  match goal with
  | Hab : _ \/ _ |- _ => destruct Hab as [->|[[->| ->] [->| ->]]]; done
  end.
Qed.

(** C2: the code at the inputs where it parts from the claim.  With
    the listing [cloudify-script-plugin==1.2] the module declared
    [cloudify_script_plugin] is found, and the same name declared with
    capitals, [Cloudify_Script_Plugin], is reported missing; with the
    listing [PyYAML==3.10], as [pip freeze] prints it, the module
    declared [PyYAML] is reported missing and [pyyaml] is found.  The
    listing is lower-cased before the search and the declared name is
    not. *)
Theorem declared_case_changes_match :
  Str.lower "Cloudify_Script_Plugin" = "cloudify_script_plugin"
  /\ result_of (Packager.check (stub_os false false 0)
                  "cloudify_script_plugin" "env" []
                  "cloudify-script-plugin==1.2") = Ret []
  /\ result_of (Packager.check (stub_os false false 0)
                  "Cloudify_Script_Plugin" "env" []
                  "cloudify-script-plugin==1.2")
     = Ret ["Cloudify-Script-Plugin"]
  /\ result_of (Packager.check (stub_os false false 0)
                  "pyyaml" "env" [] "PyYAML==3.10") = Ret []
  /\ result_of (Packager.check (stub_os false false 0)
                  "PyYAML" "env" [] "PyYAML==3.10") = Ret ["PyYAML"].
Proof. vm_compute. repeat split; reflexivity. Qed.

(** ** Plan resolution *)

Section ResolutionClaims.
Context {world : Type} (os : OS world) (codes : error_codes).
Implicit Types (w : world) (config : Packager.config).

Lemma bind_result {A B} (m : M world A) (k : A -> M world B) w :
  result_of (bind m k w)
  = match result_of (m w) with
    | Ret a => result_of (k a (world_of (m w)))
    | Exit c => Exit c
    | Raised => Raised
    end.
Proof.
  unfold bind, result_of, world_of.
  destruct (m w) as [[w1 t1] [a|c|]]; [|done..]. simpl.
  by destruct (k a w1) as [[w2 t2] r].
Qed.

Lemma bind_trace {A B} (m : M world A) (k : A -> M world B) w :
  trace_of (bind m k w)
  = trace_of (m w)
    ++ match result_of (m w) with
       | Ret a => trace_of (k a (world_of (m w)))
       | _ => []
       end.
Proof.
  unfold bind, result_of, world_of, trace_of.
  destruct (m w) as [[w1 t1] [a|c|]]; simpl; [|by rewrite app_nil_r..].
  by destruct (k a w1) as [[w2 t2] r].
Qed.

Lemma bind_world {A B} (m : M world A) (k : A -> M world B) w :
  world_of (bind m k w)
  = match result_of (m w) with
    | Ret a => world_of (k a (world_of (m w)))
    | _ => world_of (m w)
    end.
Proof.
  unfold bind, result_of, world_of.
  destruct (m w) as [[w1 t1] [a|c|]]; [|done..]. simpl.
  by destruct (k a w1) as [[w2 t2] r].
Qed.

Lemma result_of_mk {A} w t (r : result A) : result_of (w, t, r) = r.
Proof. done. Qed.

Lemma world_of_mk {A} w t (r : result A) : world_of (w, t, r) = w.
Proof. done. Qed.

Lemma trace_of_mk {A} w t (r : result A) : trace_of (w, t, r) = t.
Proof. done. Qed.

Lemma bind_ret_l {A B} (a : A) (k : A -> M world B) w :
  bind (ret a) k w = k a w.
Proof. unfold bind, ret. by destruct (k a w) as [[w2 t2] r]. Qed.

Lemma installs_of_not_install t : Forall not_install t -> installs t = [].
Proof.
  induction 1 as [|e t He _ IH]; [done|].
  unfold not_install in He. destruct e; simpl in *; done.
Qed.

Lemma uninstalls_of_not_uninstall t :
  Forall not_uninstall t -> uninstalls t = [].
Proof.
  induction 1 as [|e t He _ IH]; [done|].
  unfold not_uninstall in He. destruct e; simpl in *; done.
Qed.

(** C1, as amended: for a configuration with an agent reference,
    [_merge_modules] returns, and the [core] mapping of the result is
    the [core_modules] mapping of the configuration, empty when the
    configuration has none: a catalog slot that the configuration does
    not name has no entry, and the catalog pass and the exclusion pass
    do nothing for it; [additional] and [agent] are those of the
    configuration. *)
Theorem resolved_core_is_configured_core config a w :
  agent_of config = Some a ->
  exists modules,
    Packager._merge_modules initial_modules config w = (w, [], Ret modules)
    /\ Packager.core modules = default ∅ (Packager.core_modules config)
    /\ Packager.additional modules
       = default [] (Packager.additional_modules config)
    /\ Packager.agent modules = Some a
    /\ (forall slot,
          slot ∈ Packager.MODULES_LIST ->
          Packager.core modules !! slot
          = Packager.core_modules config ≫= (fun cm => cm !! slot))
    /\ (forall slot venv w',
          Packager.core modules !! slot = None ->
          Packager.install_core_module os codes (Packager.core modules)
            venv slot w' = (w', [], Ret tt)
          /\ Packager.uninstall_excluded_module os codes
               (Packager.core modules) venv slot w' = (w', [], Ret tt)).
Proof.
  intros Ha. eexists. rewrite merge_modules_run, Ha. split; [done|]. simpl.
  rewrite (right_id_L ∅ (∪)). split; [done|]. split; [done|].
  split; [done|]. split.
  - intros slot _. by destruct (Packager.core_modules config).
  - intros slot venv w' Hslot.
    unfold Packager.install_core_module, Packager.uninstall_excluded_module.
    by rewrite Hslot.
Qed.

(** C6: a configuration with neither [cloudify_agent_module] nor
    [cloudify_agent_version] makes [_merge_modules] leave with exit code
    3; [create] then never returns, installs and uninstalls nothing, and
    leaves with code 3 whenever it gets as far as the merge. *)
Theorem missing_agent_is_fatal config force dry no_validate w :
  Packager.cloudify_agent_module config = None ->
  Packager.cloudify_agent_version config = None ->
  let run := Packager.create os codes config force dry no_validate w in
  (forall modules0 w',
     Packager._merge_modules modules0 config w' = (w', [], Exit 3))
  /\ installs (trace_of run) = []
  /\ uninstalls (trace_of run) = []
  /\ (forall a, result_of run <> Ret a)
  /\ (forall d v r,
        platform_dist os = Some (d, v, r) ->
        let distro := default d (Packager.distribution config) in
        let release := default r (Packager.release config) in
        result_of (Packager.prepare os codes
                     (Packager.venv_of config distro release)
                     (default "/usr/bin/python" (Packager.python_path config))
                     (Packager.destination_tar_of config distro release)
                     force w) = Ret tt ->
        result_of run = Exit 3).
Proof.
  intros Hm Hv run.
  assert (agent_of config = None) as Ha by (unfold agent_of; by rewrite Hm, Hv).
  assert (forall modules0 w',
     Packager._merge_modules modules0 config w' = (w', [], Exit 3)) as Hmerge.
  { intros m0 w'. by rewrite merge_modules_run, Ha. }
  split; [done|].
  subst run. unfold Packager.create.
  destruct (platform_dist os) as [[[d v] r]|].
  2:{ rewrite bind_result, bind_trace. unfold result_of, trace_of. simpl.
      repeat split; try done; by intros ? ? ? [=]. }
  rewrite bind_ret_l. cbn beta iota zeta.
  rewrite bind_result, bind_trace.
  pose proof (prepare_emits os codes
    (Packager.venv_of config (default d (Packager.distribution config))
       (default r (Packager.release config)))
    (default "/usr/bin/python" (Packager.python_path config))
    (Packager.destination_tar_of config
       (default d (Packager.distribution config))
       (default r (Packager.release config))) force w) as Hemit.
  set (p := Packager.prepare os codes _ _ _ force w) in *.
  assert (installs (trace_of p) = [] /\ uninstalls (trace_of p) = [])
    as [Hi Hu].
  { split.
    - apply installs_of_not_install. eapply Forall_impl; [apply Hemit|].
      by intros e [? ?].
    - apply uninstalls_of_not_uninstall. eapply Forall_impl; [apply Hemit|].
      by intros e [? ?]. }
  destruct (result_of p) as [[]|c|] eqn:Hp.
  - rewrite !bind_result, !bind_trace, Hmerge.
    unfold result_of, trace_of in *. simpl.
    rewrite installs_app, uninstalls_app, Hi, Hu.
    by repeat split.
  - rewrite app_nil_r. repeat split; try done.
    intros d' v' r' [= <- <- <-] Hret.
    change (result_of p = Ret tt) in Hret. congruence.
  - rewrite app_nil_r. repeat split; try done.
    intros d' v' r' [= <- <- <-] Hret.
    change (result_of p = Ret tt) in Hret. congruence.
Qed.

End ResolutionClaims.

Lemma resolved_core_is_configured_core_witness :
  agent_of extra_key_config = Some "cloudify-agent==3.2"
  /\ Packager._merge_modules initial_modules extra_key_config ""
     = ("", [], Ret extra_key_modules).
Proof.
  assert (agent_of extra_key_config = Some "cloudify-agent==3.2") as Ha
      by reflexivity.
  split; [exact Ha|].
  destruct (resolved_core_is_configured_core (stub_os false false 0)
              stub_codes extra_key_config _ "" Ha)
    as (modules & -> & Hcore & Hadd & Hagent & _).
  destruct modules as [c ad ag]. simpl in *. subst. reflexivity.
Defined.

(** C1, as stated, fails: with [core_modules: {my_plugin: ...}] and an
    agent module, the [core] mapping of the plan has the key
    [my_plugin], which is no catalog slot, and no entry for the
    catalog slot [cloudify_rest_client]. *)
Lemma resolved_core_not_catalog :
  agent_of extra_key_config = Some "cloudify-agent==3.2"
  /\ result_of (Packager._merge_modules initial_modules extra_key_config "")
     = Ret extra_key_modules
  /\ Packager.core extra_key_modules !! "my_plugin" = Some "my-plugin==1.0"
  /\ ("my_plugin" ∉ Packager.MODULES_LIST)
  /\ Packager.core extra_key_modules !! "cloudify_rest_client" = None
  /\ ~ catalog_exactly extra_key_modules.
Proof.
  assert ("my_plugin" ∉ Packager.MODULES_LIST) as Hnot.
  { intros H. unfold Packager.MODULES_LIST in H.
    repeat (apply elem_of_cons in H as [H|H]; [discriminate|]).
    by apply elem_of_nil in H. }
  split; [reflexivity|]. split; [by vm_compute|].
  split; [by vm_compute|]. split; [exact Hnot|]. split; [by vm_compute|].
  intros H. apply Hnot, H. exists "my-plugin==1.0". by vm_compute.
Qed.

Lemma missing_agent_is_fatal_witness :
  Packager.cloudify_agent_module empty_config = None
  /\ Packager.cloudify_agent_version empty_config = None
  /\ result_of (Packager.create (stub_os false false 0) stub_codes
                  empty_config false false false "") = Exit 3.
Proof.
  split; [reflexivity|]. split; [reflexivity|].
  destruct (missing_agent_is_fatal (stub_os false false 0) stub_codes
              empty_config false false false "" eq_refl eq_refl)
    as (_ & _ & _ & _ & Hexit).
  apply (Hexit "Ubuntu" "14.04" "trusty" eq_refl).
  vm_compute. reflexivity.
Defined.

(** ** How a run of [create] ends *)

Section OutcomeClaims.
Context {world : Type} (os : OS world) (codes : error_codes).
Implicit Types (w : world) (config : Packager.config).

(** The outcome of [create], step by step. *)
Lemma create_result config force dry no_validate w d v r :
  platform_dist os = Some (d, v, r) ->
  let distro := default d (Packager.distribution config) in
  let release := default r (Packager.release config) in
  let venv := Packager.venv_of config distro release in
  let python := default "/usr/bin/python" (Packager.python_path config) in
  let destination_tar := Packager.destination_tar_of config distro release in
  let keep_venv := default false (Packager.keep_venv config) in
  let p := Packager.prepare os codes venv python destination_tar force w in
  result_of (Packager.create os codes config force dry no_validate w)
  = match result_of p with
    | Ret _ =>
        match result_of
                (Packager._merge_modules initial_modules config (world_of p))
        with
        | Ret modules =>
            if dry then Exit 0
            else
              let i := Packager.install_all os codes modules venv
                         (world_of p) in
              match result_of i with
              | Ret _ =>
                  result_of
                    (((if negb no_validate
                       then Packager._validate os modules venv
                       else ret tt) ;;;
                      Utils.tar os codes venv destination_tar ;;;
                      (if negb keep_venv then Packager.rmtree os venv
                       else ret tt) ;;;
                      Utils.get_installed os venv ;;;
                      ret tt) (world_of i))
              | Exit c => Exit c
              | Raised => Raised
              end
        | Exit c => Exit c
        | Raised => Raised
        end
    | Exit c => Exit c
    | Raised => Raised
    end.
Proof.
  intros Hd distro release venv python destination_tar keep_venv p.
  unfold Packager.create. rewrite Hd, bind_ret_l. cbn beta iota zeta.
  fold distro release. fold venv python destination_tar keep_venv.
  rewrite bind_result. fold p.
  destruct (result_of p) as [[]|c|]; [|done..].
  rewrite bind_result, !merge_modules_run, ?result_of_mk, ?world_of_mk.
  destruct (agent_of config) as [a|]; [|done].
  rewrite bind_result. destruct dry; [done|].
  unfold ret at 1. rewrite ?result_of_mk, ?world_of_mk, bind_result.
  by destruct (result_of (Packager.install_all _ _ _ _ _)) as [[]|c|].
Qed.

Lemma prepare_virtualenv_exists venv python w :
  os_path_isdir os venv w = true ->
  Packager.prepare_virtualenv os codes venv python false w = (w, [], Exit 2).
Proof.
  intros Hd. unfold Packager.prepare_virtualenv, Packager.isdir, bind.
  by rewrite Hd.
Qed.

Lemma prepare_output_file_result destination_tar force w :
  result_of (Packager.prepare_output_file os destination_tar force w)
  = if os_path_exists os destination_tar
         (if os_path_isfile os destination_tar w && force
          then os_remove os destination_tar w else w)
    then Exit 9 else Ret tt.
Proof.
  unfold Packager.prepare_output_file, Packager.isfile, Packager.exists_,
    Packager.remove, bind, result_of, ret, sys_exit.
  destruct (os_path_isfile os destination_tar w && force); simpl;
    by destruct (os_path_exists os destination_tar _).
Qed.

Lemma prepare_output_file_world destination_tar force w :
  world_of (Packager.prepare_output_file os destination_tar force w)
  = if os_path_isfile os destination_tar w && force
    then os_remove os destination_tar w else w.
Proof.
  unfold Packager.prepare_output_file, Packager.isfile, Packager.exists_,
    Packager.remove, bind, world_of, ret, sys_exit.
  destruct (os_path_isfile os destination_tar w && force); simpl;
    by destruct (os_path_exists os destination_tar _).
Qed.

(** C7: the four fatal conditions end [create] with four different exit
    codes: 2 when the environment directory exists and [force] is not
    given, 9 when the archive path exists at the time it is looked at,
    3 when the configuration names no agent, 10 when validation finds
    a module missing. *)
Theorem fatal_exit_codes_distinct config force dry no_validate w d v r :
  platform_dist os = Some (d, v, r) ->
  let distro := default d (Packager.distribution config) in
  let release := default r (Packager.release config) in
  let venv := Packager.venv_of config distro release in
  let python := default "/usr/bin/python" (Packager.python_path config) in
  let destination_tar := Packager.destination_tar_of config distro release in
  let run := Packager.create os codes config force dry no_validate w in
  (os_path_isdir os venv w = true -> force = false ->
   result_of run = Exit 2)
  /\ (forall w1 t1,
        Packager.prepare_virtualenv os codes venv python force w
        = (w1, t1, Ret tt) ->
        os_path_exists os destination_tar
          (if os_path_isfile os destination_tar w1 && force
           then os_remove os destination_tar w1 else w1) = true ->
        result_of run = Exit 9)
  /\ (forall w1 t1,
        Packager.prepare os codes venv python destination_tar force w
        = (w1, t1, Ret tt) ->
        agent_of config = None ->
        result_of run = Exit 3)
  /\ (forall w1 t1 modules w2 t2 n failed,
        Packager.prepare os codes venv python destination_tar force w
        = (w1, t1, Ret tt) ->
        result_of (Packager._merge_modules initial_modules config w1)
        = Ret modules ->
        dry = false ->
        Packager.install_all os codes modules venv w1 = (w2, t2, Ret tt) ->
        no_validate = false ->
        result_of (Packager._validate_failed os modules venv w2)
        = Ret (n :: failed) ->
        result_of run = Exit 10)
  /\ NoDup [2; 9; 3; 10].
Proof.
  intros Hd distro release venv python destination_tar run.
  subst run. rewrite (create_result _ _ _ _ _ d v r Hd).
  fold distro release. fold venv python destination_tar.
  repeat split.
  - intros Hdir ->. unfold Packager.prepare. rewrite bind_result.
    by rewrite (prepare_virtualenv_exists _ _ _ Hdir).
  - intros w1 t1 Hv He. unfold Packager.prepare. rewrite bind_result, Hv.
    rewrite result_of_mk, world_of_mk.
    by rewrite prepare_output_file_result, He.
  - intros w1 t1 Hp Ha. rewrite Hp, result_of_mk.
    by rewrite merge_modules_run, Ha.
  - intros w1 t1 modules w2 t2 n failed Hp Hm -> Hi -> Hf.
    rewrite Hp, !result_of_mk, !world_of_mk, Hm. simpl.
    rewrite Hi, !result_of_mk, !world_of_mk.
    rewrite bind_result, validate_run, result_of_mk.
    by rewrite Hf.
  - rewrite !NoDup_cons, !not_elem_of_cons.
    repeat split; try lia; try apply not_elem_of_nil; apply NoDup_nil_2.
Qed.

End OutcomeClaims.

Lemma fatal_exit_codes_distinct_witness :
  platform_dist (stub_os true false 0) = Some ("Ubuntu", "14.04", "trusty")
  /\ result_of (Packager.create (stub_os true false 0) stub_codes
                  example_config false false false example_listing) = Exit 2
  /\ result_of (Packager.create (stub_os false true 0) stub_codes
                  example_config false false false example_listing) = Exit 9
  /\ result_of (Packager.create (stub_os false false 0) stub_codes
                  empty_config false false false example_listing) = Exit 3
  /\ result_of (Packager.create (stub_os false false 0) stub_codes
                  example_config false false false "") = Exit 10.
Proof.
  split; [reflexivity|]. split; [|split; [|split]].
  - destruct (fatal_exit_codes_distinct (stub_os true false 0) stub_codes
                example_config false false false example_listing
                "Ubuntu" "14.04" "trusty" eq_refl) as (Ha & _).
    apply Ha; reflexivity.
  - destruct (fatal_exit_codes_distinct (stub_os false true 0) stub_codes
                example_config false false false example_listing
                "Ubuntu" "14.04" "trusty" eq_refl) as (_ & Hb & _).
    apply (Hb example_listing
             [Ev_make_virtualenv "env" "/usr/bin/python"]);
      vm_compute; reflexivity.
  - destruct (fatal_exit_codes_distinct (stub_os false false 0) stub_codes
                empty_config false false false example_listing
                "Ubuntu" "14.04" "trusty" eq_refl) as (_ & _ & Hc & _).
    apply (Hc example_listing
             [Ev_make_virtualenv "cloudify/Ubuntu-trusty-agent/env"
                "/usr/bin/python"]);
      vm_compute; reflexivity.
  - destruct (fatal_exit_codes_distinct (stub_os false false 0) stub_codes
                example_config false false false ""
                "Ubuntu" "14.04" "trusty" eq_refl) as (_ & _ & _ & Hd & _).
    apply (Hd "" [Ev_make_virtualenv "env" "/usr/bin/python"]
             example_modules ""
             (trace_of (Packager.install_all (stub_os false false 0)
                          stub_codes example_modules "env" ""))
             "cloudify-rest-client" ["pyyaml"; "cloudify-agent"]);
      vm_compute; reflexivity.
Defined.

(** ** Keys of [core_modules] outside the catalog *)

Section NonCatalogClaims.
Context {world : Type} (os : OS world) (codes : error_codes).
Implicit Types (w : world) (config : Packager.config).

Lemma for_each_ext {A} (l : list A) (f g : A -> M world unit) w :
  (forall x w', x ∈ l -> f x w' = g x w') ->
  for_each l f w = for_each l g w.
Proof.
  revert w. induction l as [|x l IH]; intros w Hfg; [done|].
  cbn [for_each]. unfold bind. rewrite Hfg by apply list_elem_of_here.
  destruct (g x w) as [[w1 t1] [[]|c|]]; [|done..].
  rewrite IH; [done|]. intros y w' Hy. apply Hfg. by apply list_elem_of_further.
Qed.

(** A name that is looked for and not shown ends up in [failed]. *)
Lemma collect_keeps L venv names failed failed' n :
  (collect os L venv names failed).2 = Ret failed' ->
  (n ∈ failed -> n ∈ failed')
  /\ (n ∈ names -> Utils.listed os n L = Some false -> n ∈ failed').
Proof.
  revert failed. induction names as [|m names IH]; intros failed; simpl.
  - intros [= <-]. split; [done|]. by intros ?%elem_of_nil.
  - destruct (Utils.listed os m L) as [b|] eqn:Hm; [|done].
    destruct (collect os L venv names (if b then failed else failed ++ [m]))
      as [t res] eqn:Hc. simpl. intros ->.
    specialize (IH (if b then failed else failed ++ [m])).
    rewrite Hc in IH. destruct (IH eq_refl) as [IH1 IH2]. split.
    + intros Hn. apply IH1. destruct b; [done|]. apply elem_of_app. by left.
    + intros [->|Hn]%elem_of_cons Hf; [|by apply IH2].
      rewrite Hf in Hm. injection Hm as <-. apply IH1.
      apply elem_of_app. right. apply list_elem_of_here.
Qed.

(** C10: a key of [core_modules] that is no catalog slot is kept in the
    [core] mapping of the plan; with a source that is a location its
    name is among those validation looks for, while the catalog pass,
    which walks [MODULES_LIST], runs as if the key were not there; so
    validation does not succeed unless the listing shows the name. *)
Theorem non_catalog_key_checked_not_installed
        config core_modules key source a w :
  Packager.core_modules config = Some core_modules ->
  core_modules !! key = Some source ->
  key ∉ Packager.MODULES_LIST ->
  source <> "" -> source <> "exclude" ->
  agent_of config = Some a ->
  exists modules,
    Packager._merge_modules initial_modules config w = (w, [], Ret modules)
    /\ Packager.core modules !! key = Some source
    /\ Packager.get_module_name key ∈ checked_names modules
    /\ (forall venv w',
          Packager.install_core os codes (Packager.core modules) venv w'
          = Packager.install_core os codes
              (delete key (Packager.core modules)) venv w')
    /\ omap (core_location (Packager.core modules)) Packager.MODULES_LIST
       = omap (core_location (delete key (Packager.core modules)))
           Packager.MODULES_LIST
    /\ (forall venv w',
          freeze_stable os venv ->
          Utils.listed os (Packager.get_module_name key) (listing os venv w')
          = Some false ->
          (forall u, result_of (Packager._validate os modules venv w')
                     <> Ret u)
          /\ (Forall (fun n => is_Some (Utils.listed os n (listing os venv w')))
                (checked_names modules) ->
              result_of (Packager._validate os modules venv w') = Exit 10)).
Proof.
  intros Hcm Hkey Hnot Hne Hex Ha. eexists.
  rewrite merge_modules_run, Ha. split; [done|].
  remember Packager.MODULES_LIST as catalog eqn:Hcat. simpl.
  rewrite Hcm. simpl. rewrite (right_id_L ∅ (∪)). subst catalog.
  set (modules := {| Packager.core := core_modules |}).
  assert (Packager.get_module_name key ∈ checked_names modules) as Hchk.
  { apply checked_names_spec. left. by exists key, source. }
  split; [done|]. split; [done|].
  assert (forall slot, slot ∈ Packager.MODULES_LIST ->
            delete key core_modules !! slot = core_modules !! slot) as Hdel.
  { intros slot Hslot. apply lookup_delete_ne. by intros ->. }
  split; [|split].
  - intros venv w'. unfold Packager.install_core. apply for_each_ext.
    intros slot w'' Hslot. unfold Packager.install_core_module.
    by rewrite Hdel.
  - apply list_omap_ext. apply Forall2_same_length_lookup. split; [done|].
    intros i x y Hx Hy. assert (x = y) as -> by congruence.
    unfold core_location. rewrite Hdel; [done|].
    by apply list_elem_of_lookup_2 in Hy.
  - intros venv w' Hst Hmiss.
    destruct (validate_failed_run os venv modules w' Hst) as (w1 & E1 & _).
    split.
    + intros u. rewrite validate_run, result_of_mk, E1, result_of_mk.
      destruct (collect _ _ _ _ _).2 as [failed|c|] eqn:Hc; [|done..].
      destruct (collect_keeps _ _ _ _ _ (Packager.get_module_name key) Hc)
        as [_ Hin].
      specialize (Hin Hchk Hmiss). destruct failed; [|done].
      by apply elem_of_nil in Hin.
    + intros Hn.
      destruct (validate_by_listing os venv modules w' Hst Hn)
        as (_ & _ & Hmem & Hexit & _).
      apply Hexit. intros Hnil.
      assert (Packager.get_module_name key
              ∈ missing os (listing os venv w') (checked_names modules)) as Hin
          by (by apply Hmem).
      rewrite Hnil in Hin. by apply elem_of_nil in Hin.
Qed.

End NonCatalogClaims.

Lemma non_catalog_key_checked_not_installed_witness :
  Packager.core_modules extra_key_config
  = Some {["my_plugin" := "my-plugin==1.0"]}
  /\ ("my_plugin" ∉ Packager.MODULES_LIST)
  /\ exists modules,
      Packager._merge_modules initial_modules extra_key_config
        "cloudify-agent==3.2"
      = ("cloudify-agent==3.2", [], Ret modules)
      /\ "my-plugin" ∈ checked_names modules
      /\ result_of (Packager._validate (stub_os false false 0) modules "env"
                      "cloudify-agent==3.2") = Exit 10.
Proof.
  assert ("my_plugin" ∉ Packager.MODULES_LIST) as Hnot.
  { intros H. unfold Packager.MODULES_LIST in H.
    repeat (apply elem_of_cons in H as [H|H]; [discriminate|]).
    by apply elem_of_nil in H. }
  split; [reflexivity|]. split; [exact Hnot|].
  destruct (non_catalog_key_checked_not_installed (stub_os false false 0)
              stub_codes extra_key_config {["my_plugin" := "my-plugin==1.0"]}
              "my_plugin" "my-plugin==1.0" "cloudify-agent==3.2"
              "cloudify-agent==3.2" eq_refl)
    as (modules & Hm & _ & Hchk & _ & _ & Hval);
    [by vm_compute|exact Hnot|discriminate|discriminate|reflexivity|].
  exists modules. split; [exact Hm|]. split; [exact Hchk|].
  assert (modules = extra_key_modules) as ->.
  { assert (Packager._merge_modules initial_modules extra_key_config
              "cloudify-agent==3.2"
            = ("cloudify-agent==3.2", [], Ret extra_key_modules)) as H
        by (vm_compute; reflexivity).
    rewrite H in Hm. by injection Hm. }
  destruct (Hval "env" "cloudify-agent==3.2") as [_ Hexit].
  - intros w. reflexivity.
  - vm_compute. reflexivity.
  - apply Hexit. vm_compute. repeat constructor; eexists; reflexivity.
Defined.

(** ** Excluded catalog slots *)

Section ExclusionClaims.
Context {world : Type} (os : OS world) (codes : error_codes).
Implicit Types (w : world) (core : gmap string string).

Lemma for_each_app {A} (l1 l2 : list A) (f : A -> M world unit) w :
  for_each (l1 ++ l2) f w
  = bind (for_each l1 f) (fun _ => for_each l2 f) w.
Proof.
  revert w. induction l1 as [|x l1 IH]; intros w.
  - simpl. by rewrite bind_ret_l.
  - cbn [app for_each]. unfold bind at 1 2 3.
    destruct (f x w) as [[w1 t1] [[]|c|]]; [|done..].
    rewrite IH. unfold bind.
    destruct (for_each l1 f w1) as [[w2 t2] [[]|c|]]; [|done..].
    destruct (for_each l2 f w2) as [[w3 t3] r]. by rewrite app_assoc.
Qed.

Lemma install_core_module_excluded core venv slot w :
  core !! slot = Some "exclude" ->
  Packager.install_core_module os codes core venv slot w = (w, [], Ret tt).
Proof.
  intros Hs. unfold Packager.install_core_module. by rewrite Hs.
Qed.

Lemma installs_elem module venv t :
  Ev_install_module module venv ∈ t -> module ∈ installs t.
Proof.
  intros H. unfold installs. apply list_elem_of_omap.
  by exists (Ev_install_module module venv).
Qed.

Lemma install_core_never_exclude core venv venv' w :
  Ev_install_module "exclude" venv'
  ∉ trace_of (Packager.install_core os codes core venv w).
Proof.
  intros H%installs_elem.
  destruct (install_core_installs os codes core venv w) as [[k Hk] _].
  assert ("exclude" ∈ omap (core_location core) Packager.MODULES_LIST) as Hin.
  { rewrite Hk. apply elem_of_app. by left. }
  apply list_elem_of_omap in Hin as (slot & _ & Hloc).
  unfold core_location in Hloc.
  destruct (core !! slot) as [source|]; [|done].
  destruct (Str.truthy source && negb (String.eqb source "exclude")) eqn:Hc;
    [|done].
  injection Hloc as ->. done.
Qed.

(** What the exclusion pass does for one slot. *)
Lemma uninstall_excluded_module_run core venv slot w :
  let name := Packager.get_module_name slot in
  (core !! slot = Some "exclude" ->
   Utils.listed os name (listing os venv w) = Some true ->
   exists w' r,
     Packager.uninstall_excluded_module os codes core venv slot w
     = (w', [Ev_check_installed name venv; Ev_uninstall_module name venv], r)
     /\ r <> Raised)
  /\ (~ (core !! slot = Some "exclude"
         /\ Utils.listed os name (listing os venv w) = Some true) ->
      uninstalls (trace_of (Packager.uninstall_excluded_module os codes core
                              venv slot w)) = [])
  /\ (core !! slot <> Some "exclude" ->
      Packager.uninstall_excluded_module os codes core venv slot w
      = (w, [], Ret tt)).
Proof.
  intros name. unfold Packager.uninstall_excluded_module. fold name.
  split; [|split].
  - intros -> Hl. simpl. unfold bind. rewrite check_installed_run, Hl.
    unfold Utils.uninstall_module, bind, emit, Utils.run. simpl.
    destruct (run_cmd os _ _) as [w' p].
    destruct (negb _); eexists _, _; (split; [done|done]).
  - intros Hno. destruct (core !! slot) as [source|] eqn:Hs; [|done].
    destruct (String.eqb source "exclude") eqn:He; [|done].
    apply String.eqb_eq in He as ->.
    unfold bind. rewrite check_installed_run.
    destruct (Utils.listed os name (listing os venv w)) as [[|]|]; try done.
    by destruct Hno.
  - intros Hno. destruct (core !! slot) as [source|] eqn:Hs; [|done].
    destruct (String.eqb source "exclude") eqn:He; [|done].
    apply String.eqb_eq in He as ->. done.
Qed.

Lemma uninstall_excluded_module_names core venv slot w n :
  n ∈ uninstalls (trace_of (Packager.uninstall_excluded_module os codes core
                              venv slot w)) ->
  n = Packager.get_module_name slot.
Proof.
  destruct (uninstall_excluded_module_run core venv slot w) as (H1 & H2 & _).
  destruct (decide (core !! slot = Some "exclude"
                    /\ Utils.listed os (Packager.get_module_name slot)
                         (listing os venv w) = Some true)) as [[Hs Hl]|Hno].
  - destruct (H1 Hs Hl) as (w' & r & -> & _). rewrite trace_of_mk.
    simpl. by intros ->%list_elem_of_singleton.
  - rewrite (H2 Hno). by intros ?%elem_of_nil.
Qed.

Lemma for_each_uninstall_names core venv l w n :
  n ∈ uninstalls (trace_of (for_each l
         (Packager.uninstall_excluded_module os codes core venv) w)) ->
  n ∈ map Packager.get_module_name l.
Proof.
  revert w. induction l as [|slot l IH]; intros w; cbn [for_each].
  - by intros ?%elem_of_nil.
  - rewrite bind_trace, uninstalls_app, elem_of_app. intros [H|H].
    + apply uninstall_excluded_module_names in H as ->.
      apply list_elem_of_here.
    + apply list_elem_of_further.
      destruct (result_of _) as [[]|c|]; [by eapply IH|..];
        by apply elem_of_nil in H.
Qed.

Lemma catalog_names_distinct :
  NoDup (map Packager.get_module_name Packager.MODULES_LIST).
Proof.
  vm_compute. rewrite !NoDup_cons, !not_elem_of_cons.
  repeat split; try discriminate; try apply not_elem_of_nil.
  apply NoDup_nil_2.
Qed.

Lemma uninstall_excluded_module_listing core venv slot w :
  freeze_stable os venv ->
  uninstalls (trace_of (Packager.uninstall_excluded_module os codes core
                          venv slot w)) = [] ->
  listing os venv (world_of (Packager.uninstall_excluded_module os codes core
                               venv slot w))
  = listing os venv w.
Proof.
  intros Hst Hnone.
  destruct (uninstall_excluded_module_run core venv slot w) as (H1 & _ & H3).
  destruct (decide (core !! slot = Some "exclude")) as [Hs|Hs].
  - destruct (Utils.listed os (Packager.get_module_name slot)
                (listing os venv w)) as [[|]|] eqn:Hl.
    + destruct (H1 Hs eq_refl) as (w' & r & E & _).
      by rewrite E, trace_of_mk in Hnone.
    + unfold Packager.uninstall_excluded_module. rewrite Hs. simpl.
      unfold bind. rewrite check_installed_run, Hl. unfold ret, world_of.
      simpl. by apply listing_after_freeze.
    + unfold Packager.uninstall_excluded_module. rewrite Hs. simpl.
      unfold bind. rewrite check_installed_run, Hl. unfold ret, world_of.
      simpl. by apply listing_after_freeze.
  - by rewrite (H3 Hs).
Qed.

Lemma for_each_uninstall_listing core venv l w :
  freeze_stable os venv ->
  uninstalls (trace_of (for_each l
     (Packager.uninstall_excluded_module os codes core venv) w)) = [] ->
  listing os venv (world_of (for_each l
     (Packager.uninstall_excluded_module os codes core venv) w))
  = listing os venv w.
Proof.
  intros Hst. revert w. induction l as [|slot l IH]; intros w; [done|].
  cbn [for_each]. rewrite bind_trace, bind_world, uninstalls_app.
  intros [H1 H2]%app_eq_nil.
  pose proof (uninstall_excluded_module_listing core venv slot w Hst H1) as HL.
  destruct (result_of _) as [[]|c|]; [|done..].
  by rewrite IH.
Qed.

Lemma install_all_phased modules venv :
  phased not_uninstall not_install
    (Packager.install_all os codes modules venv).
Proof.
  unfold Packager.install_all, Packager.install_external,
    Packager.install_core, Packager.install_additional,
    Packager.install_agent.
  apply phased_bind_l; [|intros _].
  { apply emits_only_for_each. intros x. apply install_module_emits. }
  apply phased_bind_l; [|intros _].
  { apply emits_only_for_each. intros x.
    unfold Packager.install_core_module.
    repeat match goal with
           | |- emits_only _ (if ?b then _ else _) => destruct b
           end; first [apply install_module_emits | apply emits_only_ret]. }
  apply phased_bind_l; [|intros _].
  { apply emits_only_for_each. intros x. apply install_module_emits. }
  apply phased_bind_l; [|intros _].
  { destruct (Packager.truthy_get _);
      [apply install_module_emits | apply emits_only_ret]. }
  apply phased_of_emits_r, uninstall_excluded_emits.
Qed.

Lemma create_phased config force dry no_validate :
  phased not_uninstall not_install
    (Packager.create os codes config force dry no_validate).
Proof.
  unfold Packager.create.
  apply phased_bind_l; [|intros [d r]].
  { destruct (platform_dist os) as [[[? ?] ?]|]; emits. }
  apply phased_bind_l; [|intros _].
  { eapply emits_only_weaken; [|apply prepare_emits]. by intros e [? ?]. }
  apply phased_bind_l; [apply merge_modules_emits|intros modules].
  apply phased_bind_l; [destruct dry; emits|intros _].
  apply phased_bind_r; [apply install_all_phased|intros _].
  apply finish_emits. auto.
Qed.

(** C4: a catalog slot whose source is ['exclude'] is never handed to
    [install_module] by the catalog pass; the exclusion pass hands its
    name to [uninstall_module] exactly when the listing taken when the
    slot's turn comes shows it, and that listing is the one the pass
    started from as long as the pass has uninstalled nothing yet; in a
    run of [create] every uninstall comes after every install, that of
    the agent module included. *)
Theorem excluded_slot_handling core venv :
  (forall slot w,
     core !! slot = Some "exclude" ->
     Packager.install_core_module os codes core venv slot w = (w, [], Ret tt))
  /\ (forall w venv',
        Ev_install_module "exclude" venv'
        ∉ trace_of (Packager.install_core os codes core venv w))
  /\ (forall before slot after w0,
        Packager.MODULES_LIST = before ++ slot :: after ->
        let pass_before :=
          for_each before (Packager.uninstall_excluded_module os codes core
                             venv) w0 in
        result_of pass_before = Ret tt ->
        (Packager.get_module_name slot
           ∈ uninstalls (trace_of (Packager.uninstall_excluded os codes core
                                     venv w0))
         <-> core !! slot = Some "exclude"
             /\ Utils.listed os (Packager.get_module_name slot)
                  (listing os venv (world_of pass_before)) = Some true)
        /\ (freeze_stable os venv ->
            uninstalls (trace_of pass_before) = [] ->
            listing os venv (world_of pass_before) = listing os venv w0))
  /\ (forall config force dry no_validate w,
        exists t1 t2,
          trace_of (Packager.create os codes config force dry no_validate w)
          = t1 ++ t2
          /\ uninstalls t1 = [] /\ installs t2 = []).
Proof.
  split; [intros slot w; apply install_core_module_excluded|].
  split; [intros w venv'; apply install_core_never_exclude|].
  split.
  - intros before slot after w0 Hcat pass_before Hret.
    split; [|intros Hst Hnone; by apply for_each_uninstall_listing].
    pose proof catalog_names_distinct as Hnd.
    rewrite Hcat, map_app in Hnd. cbn [map] in Hnd.
    apply NoDup_app in Hnd as (_ & Hbefore & Hnd).
    apply NoDup_cons in Hnd as [Hafter _].
    unfold Packager.uninstall_excluded. rewrite Hcat, for_each_app.
    rewrite bind_trace. fold pass_before. rewrite Hret.
    cbn [for_each]. rewrite bind_trace, !uninstalls_app, !elem_of_app.
    set (name := Packager.get_module_name slot) in *.
    set (w := world_of pass_before).
    destruct (uninstall_excluded_module_run core venv slot w)
      as (H1 & H2 & _). fold name in H1, H2.
    split.
    + intros [Hin|[Hin|Hin]].
      * apply for_each_uninstall_names in Hin.
        by destruct (Hbefore name Hin); apply list_elem_of_here.
      * destruct (decide (core !! slot = Some "exclude"
                          /\ Utils.listed os name (listing os venv w)
                             = Some true)) as [?|Hno]; [done|].
        rewrite (H2 Hno) in Hin. by apply elem_of_nil in Hin.
      * destruct (result_of (Packager.uninstall_excluded_module os codes
                               core venv slot w)) as [[]|c|];
          [|by apply elem_of_nil in Hin..].
        apply for_each_uninstall_names in Hin. done.
    + intros [Hs Hl]. right. left.
      destruct (H1 Hs Hl) as (w' & r & -> & _). rewrite trace_of_mk.
      simpl. apply list_elem_of_here.
  - intros config force dry no_validate w.
    destruct (create_phased config force dry no_validate w)
      as (t1 & t2 & E & Ht1 & Ht2).
    exists t1, t2. split; [done|].
    split; [by apply uninstalls_of_not_uninstall
           |by apply installs_of_not_install].
Qed.

End ExclusionClaims.

Lemma excluded_slot_handling_witness :
  let os := stub_os false false 0 in
  let core := Packager.core example_modules in
  let before := ["cloudify_rest_client"; "cloudify_plugins_common";
                 "cloudify_script_plugin"] in
  core !! "cloudify_diamond_plugin" = Some "exclude"
  /\ Packager.MODULES_LIST = before ++ "cloudify_diamond_plugin" :: []
  /\ result_of (for_each before
                  (Packager.uninstall_excluded_module os stub_codes core
                     "env") example_listing) = Ret tt
  /\ freeze_stable os "env"
  /\ Packager.install_core_module os stub_codes core "env"
       "cloudify_diamond_plugin" example_listing
     = (example_listing, [], Ret tt)
  /\ "cloudify-diamond-plugin"
     ∈ uninstalls (trace_of (Packager.uninstall_excluded os stub_codes core
                               "env" example_listing))
  /\ listing os "env"
       (world_of (for_each before
                    (Packager.uninstall_excluded_module os stub_codes core
                       "env") example_listing))
     = listing os "env" example_listing.
Proof.
  intros os core before.
  destruct (excluded_slot_handling os stub_codes core "env")
    as (Hskip & _ & Hpass & _).
  assert (core !! "cloudify_diamond_plugin" = Some "exclude") as Hs
      by (vm_compute; reflexivity).
  assert (Packager.MODULES_LIST = before ++ "cloudify_diamond_plugin" :: [])
    as Hcat by reflexivity.
  assert (result_of (for_each before
                       (Packager.uninstall_excluded_module os stub_codes core
                          "env") example_listing) = Ret tt) as Hret
      by (vm_compute; reflexivity).
  assert (freeze_stable os "env") as Hst by (intros w; reflexivity).
  destruct (Hpass before "cloudify_diamond_plugin" [] example_listing Hcat
              Hret) as [Hiff Hsame].
  split; [exact Hs|]. split; [exact Hcat|]. split; [exact Hret|].
  split; [exact Hst|]. split; [exact (Hskip _ _ Hs)|].
  split.
  - apply Hiff. split; [exact Hs|]. vm_compute. reflexivity.
  - apply Hsame; [exact Hst|]. vm_compute. reflexivity.
Defined.

(* ===================================================================== *)
(** * Further properties of the code *)
(* ===================================================================== *)

(** ** Module names *)

Section Names.
Context {world : Type} (os : OS world) (venv : string).
Implicit Types (w : world).

Lemma chars_cons c s : Str.chars (String c s) = c :: Str.chars s.
Proof. done. Qed.

(** X1: [get_module_name] is a normal form: applying it twice is
    applying it once, the result has no underscore and the length of
    the name is kept; a name is left as it is exactly when it has no
    underscore. *)
Theorem get_module_name_normal_form module :
  Packager.get_module_name (Packager.get_module_name module)
  = Packager.get_module_name module
  /\ ("_"%char ∉ Str.chars (Packager.get_module_name module))
  /\ String.length (Packager.get_module_name module) = String.length module
  /\ (Packager.get_module_name module = module
      <-> "_"%char ∉ Str.chars module).
Proof.
  unfold Packager.get_module_name.
  induction module as [|c m (IH1 & IH2 & IH3 & IH4)].
  - split; [done|]. split; [apply not_elem_of_nil|]. split; [done|].
    split; [intros _; apply not_elem_of_nil|done].
  - cbn [Str.replace String.length]. rewrite !chars_cons.
    destruct (Ascii.eqb c "_") eqn:E.
    + apply Ascii.eqb_eq in E as ->. cbn [Str.replace].
      change (Ascii.eqb "-" "_") with false. cbn iota.
      rewrite IH1, IH3. split; [done|]. split.
      { apply not_elem_of_cons. split; [discriminate|done]. }
      split; [done|]. split.
      * intros [= ?].
      * intros H. destruct H. apply list_elem_of_here.
    + cbn [Str.replace]. rewrite E, IH1, IH3. split; [done|].
      apply Ascii.eqb_neq in E. split.
      { apply not_elem_of_cons. split; [congruence|done]. }
      split; [done|]. rewrite not_elem_of_cons, <- IH4. split.
      * intros [= ?]. split; [congruence|done].
      * intros [_ ->]. done.
Qed.

Lemma lower_ascii_not_upper c : is_upper (Str.lower_ascii c) = false.
Proof. by destruct c as [[] [] [] [] [] [] [] []]. Qed.

Lemma lower_no_upper s :
  Forall (fun c => is_upper c = false) (Str.chars (Str.lower s)).
Proof.
  induction s as [|c s IH]; [constructor|].
  cbn [Str.lower]. rewrite chars_cons. constructor; [|done].
  apply lower_ascii_not_upper.
Qed.

Lemma get_module_name_keeps_upper declared :
  Exists (fun c => is_upper c = true) (Str.chars declared) ->
  Exists (fun c => is_upper c = true)
    (Str.chars (Packager.get_module_name declared)).
Proof.
  unfold Packager.get_module_name.
  induction declared as [|c s IH]; [done|].
  cbn [Str.replace]. rewrite !chars_cons, !Exists_cons.
  intros [Hc|Hs]; [left|right; by apply IH].
  destruct (Ascii.eqb c "_") eqn:E; [|done].
  apply Ascii.eqb_eq in E as ->. done.
Qed.

(** X2: a declared name with a capital letter is never found, whatever
    the listing: the listing is lower-cased before the search and the
    name is not.  Stated for names free of special characters;
    [check] then always adds the name to [failed]. *)
Theorem uppercase_name_never_listed declared L failed w :
  let name := Packager.get_module_name declared in
  Re.literal (Str.chars name) ->
  Exists (fun c => is_upper c = true) (Str.chars declared) ->
  Utils.listed os name L = Some false
  /\ result_of (Packager.check os declared venv failed w)
     = Ret (failed ++ [name]).
Proof.
  intros name Hlit Hup.
  assert (forall L', Utils.listed os name L' = Some false) as Hno.
  { intros L'. unfold Utils.listed.
    destruct (ReFacts.search_literal (re_search_beyond os) name
                (Str.lower L') Hlit)
      as (b & -> & Hb).
    destruct b; [|done]. destruct (proj1 Hb eq_refl) as (pre & post & E).
    apply get_module_name_keeps_upper in Hup. fold name in Hup.
    apply Exists_exists in Hup as (c & Hc & Hu).
    pose proof (lower_no_upper L') as Hlow. rewrite E in Hlow.
    rewrite !Forall_app in Hlow. destruct Hlow as (_ & Hlow & _).
    rewrite Forall_forall in Hlow. rewrite (Hlow c Hc) in Hu. done. }
  split; [apply Hno|].
  rewrite check_run, result_of_mk. fold name. by rewrite Hno.
Qed.

End Names.

Lemma uppercase_name_never_listed_witness :
  Re.literal (Str.chars (Packager.get_module_name "PyYAML"))
  /\ Exists (fun c => is_upper c = true) (Str.chars "PyYAML")
  /\ Utils.listed (stub_os false false 0)
       (Packager.get_module_name "PyYAML") "PyYAML==3.10"
     = Some false
  /\ result_of (Packager.check (stub_os false false 0) "PyYAML" "env" []
                  "PyYAML==3.10") = Ret ["PyYAML"].
Proof.
  assert (Re.literal (Str.chars (Packager.get_module_name "PyYAML"))) as Hlit
      by (vm_compute; repeat constructor).
  assert (Exists (fun c => is_upper c = true) (Str.chars "PyYAML")) as Hup
      by (vm_compute; by left).
  split; [exact Hlit|]. split; [exact Hup|].
  exact (uppercase_name_never_listed (stub_os false false 0) "env" "PyYAML"
           "PyYAML==3.10" [] "PyYAML==3.10" Hlit Hup).
Defined.

(** ** Downloads *)

Section Downloads.
Import Download.

Lemma append_cons c (a b : string) : String c a +:+ b = String c (a +:+ b).
Proof. done. Qed.

Lemma append_nil_r (s : string) : s +:+ "" = s.
Proof. induction s as [|c s IH]; [done|]. by rewrite append_cons, IH. Qed.

Lemma append_assoc (a b c : string) : (a +:+ b) +:+ c = a +:+ (b +:+ c).
Proof. induction a as [|x a IH]; [done|]. by rewrite !append_cons, IH. Qed.

Lemma chars_app (a b : string) :
  Str.chars (a +:+ b) = Str.chars a ++ Str.chars b.
Proof.
  induction a as [|x a IH]; [done|].
  change (String x a +:+ b) with (String x (a +:+ b)).
  rewrite !chars_cons, IH. done.
Qed.

Lemma split_nonempty sep s : split sep s <> [].
Proof.
  destruct s as [|c t]; [done|]. simpl.
  destruct (Ascii.eqb c sep); [done|]. by destruct (split sep t).
Qed.

Lemma join_split sep s : join sep (split sep s) = s.
Proof.
  induction s as [|c t IH]; [done|]. cbn [split].
  destruct (Ascii.eqb c sep) eqn:E.
  - apply Ascii.eqb_eq in E as ->. cbn [join].
    pose proof (split_nonempty sep t) as Hne.
    destruct (split sep t) as [|h r] eqn:Hs; [done|].
    simpl. simpl in IH. by rewrite IH.
  - pose proof (split_nonempty sep t) as Hne.
    destruct (split sep t) as [|h r]; [done|].
    cbn [join] in *. destruct r as [|h' r]; simpl; by rewrite <- IH.
Qed.

Lemma split_no_sep sep s :
  Forall (fun segment => sep ∉ Str.chars segment) (split sep s).
Proof.
  induction s as [|c t IH]; cbn [split].
  - constructor; [apply not_elem_of_nil|constructor].
  - destruct (Ascii.eqb c sep) eqn:E.
    + constructor; [apply not_elem_of_nil|done].
    + apply Ascii.eqb_neq in E.
      destruct (split sep t) as [|h r].
      * constructor; [|constructor]. rewrite chars_cons.
        apply not_elem_of_cons. split; [congruence|apply not_elem_of_nil].
      * apply Forall_cons in IH as [Hh Hr]. constructor; [|done].
        rewrite chars_cons. apply not_elem_of_cons. split; [congruence|done].
Qed.

Lemma split_sep_free sep s : sep ∉ Str.chars s -> split sep s = [s].
Proof.
  induction s as [|c t IH]; [done|]. rewrite chars_cons.
  intros [Hc Ht]%not_elem_of_cons. cbn [split].
  assert (Ascii.eqb c sep = false) as -> by (apply Ascii.eqb_neq; congruence).
  by rewrite (IH Ht).
Qed.

Lemma split_app_sep sep a b :
  split sep (a +:+ String sep b) = split sep a ++ split sep b.
Proof.
  induction a as [|c a IH].
  - simpl. by rewrite Ascii.eqb_refl.
  - change (String c a +:+ String sep b) with (String c (a +:+ String sep b)).
    cbn [split]. rewrite IH. destruct (Ascii.eqb c sep); [done|].
    pose proof (split_nonempty sep a) as Hne.
    by destruct (split sep a) as [|h r].
Qed.

Lemma last_app_r {A} (l1 l2 : list A) d :
  l2 <> [] -> List.last (l1 ++ l2) d = List.last l2 d.
Proof.
  intros Hne. induction l1 as [|x l1 IH]; [done|].
  cbn [app List.last]. destruct (l1 ++ l2) eqn:E; [|done].
  apply app_eq_nil in E as [_ ->]. done.
Qed.

Lemma last_elem {A} (l : list A) d : l <> [] -> List.last l d ∈ l.
Proof.
  induction l as [|x l IH]; [done|]. intros _. cbn [List.last].
  destruct l as [|y l]; [apply list_elem_of_here|].
  apply list_elem_of_further, IH. done.
Qed.

Lemma join_last sep l :
  l <> [] ->
  exists pre, join sep l = pre +:+ List.last l ""
    /\ (pre = "" \/ exists pre', pre = pre' +:+ String sep "").
Proof.
  induction l as [|x l IH]; [done|]. intros _.
  destruct l as [|y l].
  - exists "". split; [done|by left].
  - destruct IH as (pre & E & Hpre); [done|].
    exists (x +:+ String sep pre). cbn [join List.last] in *. split.
    + rewrite E, append_assoc. done.
    + right. destruct Hpre as [->|[pre' ->]].
      * by exists x.
      * exists (x +:+ String sep pre'). by rewrite append_assoc.
Qed.

(** X3: [download_file] called without a destination takes the last
    segment of the URL: a string without [/] that ends the URL, right
    after its last [/] if it has one; the whole URL when it has none;
    the empty string when the URL ends in [/].  A destination that is
    given is used as it is. *)
Theorem download_destination_default url :
  let d := destination_of url "" in
  ("/"%char ∉ Str.chars d)
  /\ (exists pre, url = pre +:+ d
        /\ (pre = "" \/ exists pre', pre = pre' +:+ "/"))
  /\ ("/"%char ∉ Str.chars url -> d = url)
  /\ (forall pre, destination_of (pre +:+ "/") "" = "")
  /\ (forall destination,
        destination <> "" -> destination_of url destination = destination).
Proof.
  intros d. subst d. unfold destination_of. cbn [Str.truthy].
  pose proof (split_nonempty "/" url) as Hne. split.
  { pose proof (split_no_sep "/" url) as Hf. rewrite Forall_forall in Hf.
    apply Hf. by apply last_elem. }
  split.
  { destruct (join_last "/" (split "/" url) Hne) as (pre & E & Hpre).
    rewrite join_split in E. by exists pre. }
  split.
  { intros Hfree. by rewrite split_sep_free. }
  split.
  { intros pre. rewrite split_app_sep. by rewrite last_app_r. }
  intros destination Hd. by destruct destination.
Qed.

Lemma write_chunks_from chunks acc :
  fold_left (fun f chunk => if Str.truthy chunk then f +:+ chunk else f)
    chunks acc
  = acc +:+ concat_all chunks.
Proof.
  revert acc. induction chunks as [|chunk chunks IH]; intros acc.
  - simpl. by rewrite append_nil_r.
  - cbn [fold_left concat_all fold_right]. rewrite IH.
    destruct chunk as [|c chunk]; [done|]. cbn [Str.truthy].
    by rewrite append_assoc.
Qed.

(** X4: what [download_file] writes.  On status 200, when the
    destination can be opened, the file holds the chunks of the answer,
    one after the other (passing over the empty chunks loses nothing),
    and the call returns unless the stream broke; when the destination
    cannot be opened the call ends in the exception of [open] and
    nothing is written, which is what happens for a URL that ends in
    [/] when no destination is given.  On any other status
    [download_file] leaves with [could_not_download_file] and writes
    nothing. *)
Theorem download_file_content codes can_open r url destination :
  download_file codes can_open (Some r) url destination
  = (if status_code r =? 200
     then if open_wb can_open (destination_of url destination)
          then (Some (destination_of url destination,
                      concat_all (iter_content r)),
                if stream_breaks r then Raised else Ret tt)
          else (None, Raised)
     else (None, Exit (could_not_download_file codes)))
  /\ (forall pre,
        status_code r = 200 ->
        download_file codes can_open (Some r) (pre +:+ "/") ""
        = (None, Raised)).
Proof.
  split.
  - unfold download_file, write_chunks. rewrite write_chunks_from.
    by destruct (status_code r =? 200).
  - intros pre Hs. unfold download_file, destination_of. cbn [Str.truthy].
    rewrite split_app_sep, last_app_r by done. rewrite Hs. done.
Qed.

End Downloads.

(** ** The shape of a run *)

Section Shapes.
Context {world : Type}.
Implicit Types (w : world) (t : list event) (Ps : list (event -> Prop)).

Lemma in_phases_nil Ps : in_phases Ps [].
Proof.
  induction Ps as [|P Ps IH]; [done|]. exists [], []. done.
Qed.

Lemma in_phases_here P Ps t1 t2 :
  Forall P t1 -> in_phases (P :: Ps) t2 -> in_phases (P :: Ps) (t1 ++ t2).
Proof.
  intros H1 (u1 & u2 & -> & Hu1 & Hu2). exists (t1 ++ u1), u2.
  rewrite app_assoc. split; [done|]. split; [by apply Forall_app|done].
Qed.

Lemma in_phases_skip P Ps t : in_phases Ps t -> in_phases (P :: Ps) t.
Proof. intros H. exists [], t. done. Qed.

Lemma in_phases_app Ps P Qs t1 t2 :
  in_phases (Ps ++ [P]) t1 -> in_phases (P :: Qs) t2 ->
  in_phases (Ps ++ P :: Qs) (t1 ++ t2).
Proof.
  revert t1. induction Ps as [|P' Ps IH]; intros t1.
  - intros (u1 & u2 & -> & Hu1 & ->) H2. rewrite app_nil_r.
    by apply in_phases_here.
  - intros (u1 & u2 & -> & Hu1 & Hu2) H2. exists u1, (u2 ++ t2).
    rewrite app_assoc. split; [done|]. split; [done|]. by apply IH.
Qed.

Lemma phases_of_emits {A} P Ps (m : M world A) :
  emits_only P m -> phases (P :: Ps) m.
Proof.
  intros Hm w. exists (trace_of (m w)), []. rewrite app_nil_r.
  split; [done|]. split; [apply Hm|apply in_phases_nil].
Qed.

Lemma phases_skip {A} P Ps (m : M world A) :
  phases Ps m -> phases (P :: Ps) m.
Proof. intros Hm w. apply in_phases_skip, Hm. Qed.

Lemma phases_bind_here {A B} P Ps (m : M world A) (k : A -> M world B) :
  emits_only P m -> (forall a, phases (P :: Ps) (k a)) ->
  phases (P :: Ps) (bind m k).
Proof.
  intros Hm Hk w. rewrite bind_trace. apply in_phases_here; [apply Hm|].
  destruct (result_of (m w)) as [a|c|]; [apply Hk|apply in_phases_nil..].
Qed.

Lemma phases_bind_cut {A B} Ps P Qs (m : M world A) (k : A -> M world B) :
  phases (Ps ++ [P]) m -> (forall a, phases (P :: Qs) (k a)) ->
  phases (Ps ++ P :: Qs) (bind m k).
Proof.
  intros Hm Hk w. rewrite bind_trace. apply in_phases_app; [apply Hm|].
  destruct (result_of (m w)) as [a|c|]; [apply Hk|apply in_phases_nil..].
Qed.

(** A computation that never returns hides what follows it. *)
Lemma bind_never_ret {A B} (m : M world A) (k : A -> M world B) w :
  (forall a, result_of (m w) <> Ret a) ->
  trace_of (bind m k w) = trace_of (m w)
  /\ result_of (bind m k w)
     = match result_of (m w) with
       | Ret _ => Raised
       | Exit c => Exit c
       | Raised => Raised
       end.
Proof.
  intros Hm. rewrite bind_trace, bind_result.
  destruct (result_of (m w)) as [a|c|]; [by destruct (Hm a)|..];
    by rewrite app_nil_r.
Qed.

Lemma emits_only_never_ret {A B} P (m : M world A) (k : A -> M world B) :
  emits_only P m -> (forall w a, result_of (m w) <> Ret a) ->
  emits_only P (bind m k).
Proof.
  intros Hm Hn w. destruct (bind_never_ret m k w (Hn w)) as [-> _].
  apply Hm.
Qed.

Lemma emits_only_bind_ret {A B} P (R : A -> Prop) (m : M world A)
      (k : A -> M world B) :
  emits_only P m ->
  (forall w a, result_of (m w) = Ret a -> R a) ->
  (forall a, R a -> emits_only P (k a)) ->
  emits_only P (bind m k).
Proof.
  intros Hm HR Hk w. rewrite bind_trace. apply Forall_app. split; [apply Hm|].
  destruct (result_of (m w)) as [a|c|] eqn:E; [|constructor..].
  by apply Hk, (HR w).
Qed.

(** *** [exits_in] *)

Lemma exits_in_ret {A} S (a : A) : exits_in (world:=world) S (ret a).
Proof. intros w c. discriminate. Qed.

Lemma exits_in_raise {A} S : exits_in (world:=world) (A:=A) S raise.
Proof. intros w c. discriminate. Qed.

Lemma exits_in_emit S e : exits_in (world:=world) S (emit e).
Proof. intros w c. discriminate. Qed.

Lemma exits_in_sys_exit {A} S c :
  c ∈ S -> exits_in (world:=world) (A:=A) S (sys_exit c).
Proof. intros Hc w c' [= <-]. done. Qed.

Lemma exits_in_bind {A B} S (m : M world A) (k : A -> M world B) :
  exits_in S m -> (forall a, exits_in S (k a)) -> exits_in S (bind m k).
Proof.
  intros Hm Hk w c. rewrite bind_result. specialize (Hm w).
  destruct (result_of (m w)) as [a|c'|]; [apply Hk| |done].
  intros [= <-]. by apply Hm.
Qed.

Lemma exits_in_for_each {A} S (l : list A) (f : A -> M world unit) :
  (forall x, exits_in S (f x)) -> exits_in S (for_each l f).
Proof.
  intros Hf. induction l as [|x l IH]; simpl.
  - apply exits_in_ret.
  - apply exits_in_bind; auto.
Qed.

Lemma exits_in_for_fold {A St} S (l : list A) (f : A -> St -> M world St)
      acc :
  (forall x s, exits_in S (f x s)) -> exits_in S (for_fold l f acc).
Proof.
  intros Hf. revert acc. induction l as [|x l IH]; intros acc; simpl.
  - apply exits_in_ret.
  - apply exits_in_bind; auto.
Qed.

(** *** [never_raises] *)

Lemma never_raises_ret {A} (a : A) : never_raises (world:=world) (ret a).
Proof. intros w. discriminate. Qed.

Lemma never_raises_sys_exit {A} c :
  never_raises (world:=world) (A:=A) (sys_exit c).
Proof. intros w. discriminate. Qed.

Lemma never_raises_emit e : never_raises (world:=world) (emit e).
Proof. intros w. discriminate. Qed.

Lemma never_raises_bind {A B} (m : M world A) (k : A -> M world B) :
  never_raises m -> (forall a, never_raises (k a)) -> never_raises (bind m k).
Proof.
  intros Hm Hk w. rewrite bind_result. specialize (Hm w).
  destruct (result_of (m w)) as [a|c'|]; [apply Hk|done|done].
Qed.

Lemma never_raises_for_each {A} (l : list A) (f : A -> M world unit) :
  (forall x, never_raises (f x)) -> never_raises (for_each l f).
Proof.
  intros Hf. induction l as [|x l IH]; simpl.
  - apply never_raises_ret.
  - apply never_raises_bind; auto.
Qed.

(** *** [clean_unless_done] *)

Lemma clean_bind {A} (m : M world A) (k : A -> M world unit) :
  emits_only (fun e => ~ is_removal e) m ->
  (forall a, clean_unless_done (k a)) ->
  clean_unless_done (bind m k).
Proof.
  intros Hm Hk w. rewrite bind_result, bind_trace. intros Hr.
  apply Forall_app. split; [apply Hm|].
  destruct (result_of (m w)) as [a|c|]; [by apply Hk|constructor..].
Qed.

Lemma clean_of_done (m : M world unit) :
  (forall w, result_of (m w) = Ret tt) -> clean_unless_done m.
Proof. intros Hm w Hr. by destruct Hr. Qed.

End Shapes.

Section StepShapes.
Context {world : Type} (os : OS world) (codes : error_codes).

Lemma exits_in_run S cmd : exits_in S (Utils.run os cmd).
Proof.
  intros w c. unfold Utils.run, result_of.
  by destruct (run_cmd os cmd w).
Qed.

Lemma exits_in_fs S path :
  exits_in S (Packager.isdir os path)
  /\ exits_in S (Packager.isfile os path)
  /\ exits_in S (Packager.exists_ os path)
  /\ exits_in S (Packager.rmtree os path)
  /\ exits_in S (Packager.remove os path).
Proof. repeat split; intros w c; discriminate. Qed.

Lemma never_raises_run cmd : never_raises (Utils.run os cmd).
Proof.
  intros w. unfold Utils.run, result_of. by destruct (run_cmd os cmd w).
Qed.

Lemma never_raises_fs path :
  never_raises (Packager.isdir os path)
  /\ never_raises (Packager.isfile os path)
  /\ never_raises (Packager.exists_ os path)
  /\ never_raises (Packager.rmtree os path)
  /\ never_raises (Packager.remove os path).
Proof. repeat split; intros w; discriminate. Qed.

End StepShapes.

(** Is the code among those listed? *)
Ltac listed_code :=
  solve [ repeat first [ apply list_elem_of_here | apply list_elem_of_further ] ].

(** Splits an [exits_in] goal along the structure of the computation. *)
Ltac exits :=
  repeat first
    [ apply exits_in_ret
    | apply exits_in_raise
    | apply exits_in_emit
    | apply exits_in_run
    | apply exits_in_fs
    | apply exits_in_sys_exit; listed_code
    | apply exits_in_bind; [|intros ?]
    | apply exits_in_for_each; intros ?
    | apply exits_in_for_fold; intros ? ?
    | match goal with
      | |- exits_in _ (if ?b then _ else _) => destruct b
      | |- exits_in _ (match ?x with _ => _ end) => destruct x
      | |- exits_in _ (match ?x with _ => _ end _) => destruct x
      end ].

(** Splits a [never_raises] goal along the structure of the
    computation. *)
Ltac raises_not :=
  repeat first
    [ apply never_raises_ret
    | apply never_raises_sys_exit
    | apply never_raises_emit
    | apply never_raises_run
    | apply never_raises_fs
    | apply never_raises_bind; [|intros ?]
    | apply never_raises_for_each; intros ?
    | match goal with
      | |- never_raises (if ?b then _ else _) => destruct b
      | |- never_raises (match ?x with _ => _ end) => destruct x
      end ].

Section RunShape.
Context {world : Type} (os : OS world) (codes : error_codes).
Implicit Types (w : world) (config : Packager.config).

Lemma prepare_is_prepare venv python destination_tar force :
  emits_only is_prepare
    (Packager.prepare os codes venv python destination_tar force).
Proof.
  unfold Packager.prepare, Packager.prepare_virtualenv,
    Packager.prepare_output_file, Utils.make_virtualenv.
  repeat first
    [ apply emits_only_rmtree; simpl; tauto
    | apply emits_only_remove; simpl; tauto
    | progress emits ].
Qed.

Lemma install_module_is_install module venv :
  emits_only is_install (Utils.install_module os codes module venv).
Proof. unfold Utils.install_module. emits. Qed.

Lemma install_core_module_is_install core venv module :
  emits_only is_install (Packager.install_core_module os codes core venv module).
Proof.
  unfold Packager.install_core_module.
  repeat match goal with
         | |- emits_only _ (if ?b then _ else _) => destruct b
         end; first [apply install_module_is_install | apply emits_only_ret].
Qed.

Lemma uninstall_excluded_is_exclusion core venv :
  emits_only is_exclusion (Packager.uninstall_excluded os codes core venv).
Proof.
  unfold Packager.uninstall_excluded. apply emits_only_for_each. intros m.
  unfold Packager.uninstall_excluded_module.
  destruct (core !! m) as [source|]; [|emits].
  destruct (String.eqb source "exclude"); [|emits].
  apply emits_only_bind.
  - by apply check_installed_emits.
  - intros [|]; [unfold Utils.uninstall_module|]; emits.
Qed.

Lemma install_all_phases modules venv :
  phases [is_install; is_exclusion]
    (Packager.install_all os codes modules venv).
Proof.
  unfold Packager.install_all, Packager.install_external,
    Packager.install_core, Packager.install_additional,
    Packager.install_agent.
  apply phases_bind_here; [|intros _].
  { apply emits_only_for_each. intros x. apply install_module_is_install. }
  apply phases_bind_here; [|intros _].
  { apply emits_only_for_each. intros x.
    apply install_core_module_is_install. }
  apply phases_bind_here; [|intros _].
  { apply emits_only_for_each. intros x. apply install_module_is_install. }
  apply phases_bind_here; [|intros _].
  { destruct (Packager.truthy_get _);
      [apply install_module_is_install | apply emits_only_ret]. }
  apply phases_skip, phases_of_emits, uninstall_excluded_is_exclusion.
Qed.

Lemma finish_is_finish venv destination_tar keep_venv :
  emits_only is_finish
    (Utils.tar os codes venv destination_tar ;;;
     (if negb keep_venv then Packager.rmtree os venv else ret tt) ;;;
     Utils.get_installed os venv ;;;
     ret tt).
Proof.
  unfold Utils.tar, Utils.get_installed.
  repeat first
    [ apply emits_only_rmtree; simpl; tauto
    | progress emits ].
Qed.

Lemma create_phases config force dry no_validate :
  phases [is_prepare; is_install; is_exclusion; is_check; is_finish]
    (Packager.create os codes config force dry no_validate).
Proof.
  unfold Packager.create.
  apply phases_bind_here; [|intros [d r]].
  { destruct (platform_dist os) as [[[? ?] ?]|]; emits. }
  apply phases_bind_here; [apply prepare_is_prepare|intros _].
  apply phases_bind_here; [apply merge_modules_emits|intros modules].
  apply phases_bind_here; [destruct dry; emits|intros _].
  apply (phases_bind_cut [is_prepare; is_install] is_exclusion
           [is_check; is_finish]).
  { apply phases_skip, install_all_phases. }
  intros _. apply phases_skip.
  apply phases_bind_here.
  { destruct (negb no_validate); [|emits]. by apply validate_emits. }
  intros _. apply phases_skip, phases_of_emits, finish_is_finish.
Qed.

(** X5: every run of [create], however it ends, goes through its steps
    in one order: first the preparation (removal of a previous
    environment or archive, creation of the environment), then the
    installs, then the exclusion pass (listings and uninstalls), then
    the checks of the validation, then the archive, the removal of the
    environment and the final listing.  No step of an earlier stretch
    comes after one of a later stretch. *)
Theorem create_trace_shape config force dry no_validate w :
  exists prep inst excl val fin,
    trace_of (Packager.create os codes config force dry no_validate w)
    = prep ++ inst ++ excl ++ val ++ fin
    /\ Forall is_prepare prep /\ Forall is_install inst
    /\ Forall is_exclusion excl /\ Forall is_check val
    /\ Forall is_finish fin.
Proof.
  destruct (create_phases config force dry no_validate w)
    as (prep & t1 & -> & Hprep & inst & t2 & -> & Hinst
        & excl & t3 & -> & Hexcl & val & t4 & -> & Hval
        & fin & t5 & -> & Hfin & ->).
  exists prep, inst, excl, val, fin. by rewrite app_nil_r.
Qed.

End RunShape.

(** Settles an implication between two classes of events. *)
Ltac by_class := intros []; simpl; tauto.

Section RunOutcome.
Context {world : Type} (os : OS world) (codes : error_codes).
Implicit Types (w : world) (config : Packager.config).

(** [create], once [platform.dist()] has answered. *)
Lemma create_eq config force dry no_validate w d v r :
  platform_dist os = Some (d, v, r) ->
  let distro := default d (Packager.distribution config) in
  let release := default r (Packager.release config) in
  let venv := Packager.venv_of config distro release in
  let python := default "/usr/bin/python" (Packager.python_path config) in
  let destination_tar := Packager.destination_tar_of config distro release in
  let keep_venv := default false (Packager.keep_venv config) in
  Packager.create os codes config force dry no_validate w
  = (Packager.prepare os codes venv python destination_tar force ;;;
     modules <- Packager._merge_modules initial_modules config ;;
     (if dry then sys_exit 0 else ret tt) ;;;
     Packager.install_all os codes modules venv ;;;
     (if negb no_validate then Packager._validate os modules venv
      else ret tt) ;;;
     Utils.tar os codes venv destination_tar ;;;
     (if negb keep_venv then Packager.rmtree os venv else ret tt) ;;;
     Utils.get_installed os venv ;;;
     ret tt) w.
Proof.
  intros Hd distro release venv python destination_tar keep_venv.
  unfold Packager.create. rewrite Hd, bind_ret_l. done.
Qed.

(** The last steps of a run that returns. *)
Lemma finish_run venv destination_tar keep_venv w :
  let m := (Utils.tar os codes venv destination_tar ;;;
            (if negb keep_venv then Packager.rmtree os venv else ret tt) ;;;
            Utils.get_installed os venv ;;;
            ret tt) in
  result_of (m w) = Ret tt ->
  trace_of (m w)
  = Ev_tar venv destination_tar
    :: (if keep_venv then [] else [Ev_rmtree venv])
    ++ [Ev_get_installed venv].
Proof.
  intros m. subst m.
  unfold Utils.tar, Utils.get_installed, Packager.rmtree, bind, emit,
    Utils.run, ret, sys_exit, result_of, trace_of. simpl.
  destruct (run_cmd os _ w) as [w1 p1].
  destruct (negb (returncode p1 =? 0)); [done|].
  destruct keep_venv; simpl.
  - by destruct (run_cmd os _ w1) as [w2 p2].
  - by destruct (run_cmd os _ _) as [w2 p2].
Qed.

Lemma install_all_events modules venv :
  emits_only (fun e => ~ is_report e)
    (Packager.install_all os codes modules venv).
Proof.
  intros w. destruct (install_all_phases os codes modules venv w)
    as (t1 & t2 & -> & H1 & t3 & t4 & -> & H3 & ->).
  rewrite app_nil_r. apply Forall_app. split.
  - eapply Forall_impl; [exact H1|]. by_class.
  - eapply Forall_impl; [exact H3|]. by_class.
Qed.

(** X6: a run of [create] that returns was not a dry run, and its last
    calls are [tar] on the environment, then [shutil.rmtree] on it
    unless [keep_venv] is set, then [get_installed]: the final listing
    is asked of an environment that has just been removed.  No archive
    is written and no final listing is taken before. *)
Theorem successful_run_ends config force dry no_validate w d v r :
  platform_dist os = Some (d, v, r) ->
  let distro := default d (Packager.distribution config) in
  let release := default r (Packager.release config) in
  let venv := Packager.venv_of config distro release in
  let destination_tar := Packager.destination_tar_of config distro release in
  let keep_venv := default false (Packager.keep_venv config) in
  let run := Packager.create os codes config force dry no_validate w in
  result_of run = Ret tt ->
  dry = false
  /\ exists t,
       trace_of run
       = t ++ Ev_tar venv destination_tar
              :: (if keep_venv then [] else [Ev_rmtree venv])
              ++ [Ev_get_installed venv]
       /\ Forall (fun e => ~ is_report e) t.
Proof.
  intros Hd distro release venv destination_tar keep_venv run Hret.
  subst run. rewrite (create_eq _ _ _ _ _ d v r Hd) in *.
  fold distro release venv destination_tar keep_venv in Hret |- *.
  set (python := default "/usr/bin/python" (Packager.python_path config))
    in *.
  rewrite bind_result in Hret. rewrite bind_trace.
  pose proof (prepare_is_prepare os codes venv python destination_tar force w)
    as Hp.
  destruct (result_of (Packager.prepare _ _ _ _ _ _ _)) as [[]|c|];
    [|done..].
  set (w1 := world_of (Packager.prepare _ _ _ _ _ _ _)) in *.
  rewrite bind_result in Hret. rewrite bind_trace.
  rewrite !merge_modules_run, ?result_of_mk, ?world_of_mk, ?trace_of_mk in *.
  destruct (agent_of config) as [a|]; [|done].
  set (modules := {| Packager.core := _ |}) in *.
  rewrite bind_result in Hret. rewrite bind_trace.
  destruct dry; [done|]. split; [done|].
  change (ret tt w1) with (w1, ([] : list event), Ret tt) in *.
  rewrite ?result_of_mk, ?world_of_mk, ?trace_of_mk in *.
  rewrite bind_result in Hret. rewrite bind_trace.
  pose proof (install_all_events modules venv w1) as Hi.
  destruct (result_of (Packager.install_all _ _ _ _ _)) as [[]|c|];
    [|done..].
  set (w2 := world_of (Packager.install_all _ _ _ _ _)) in *.
  rewrite bind_result in Hret. rewrite bind_trace.
  set (val := (if negb no_validate then Packager._validate os modules venv
               else ret tt) w2) in *.
  assert (Forall (fun e => ~ is_report e) (trace_of val)) as Hv.
  { subst val. destruct (negb no_validate); [|constructor].
    apply validate_emits. intros n v0. simpl. tauto. }
  destruct (result_of val) as [[]|c|]; [|done..].
  rewrite (finish_run _ _ _ _ Hret).
  exists (trace_of (Packager.prepare os codes venv python destination_tar
                      force w)
          ++ trace_of (Packager.install_all os codes modules venv w1)
          ++ trace_of val).
  split; [by rewrite !app_nil_l, <- !app_assoc|].
  rewrite !Forall_app. split; [|done].
  eapply Forall_impl; [exact Hp|]. by_class.
Qed.

End RunOutcome.

Section RunInvariants.
Context {world : Type} (os : OS world) (codes : error_codes).
Implicit Types (w : world) (config : Packager.config).

Lemma install_all_class (P : event -> Prop) modules venv :
  (forall e, is_install e -> P e) -> (forall e, is_exclusion e -> P e) ->
  emits_only P (Packager.install_all os codes modules venv).
Proof.
  intros Hi He w. destruct (install_all_phases os codes modules venv w)
    as (t1 & t2 & -> & H1 & t3 & t4 & -> & H3 & ->).
  rewrite app_nil_r. apply Forall_app. split.
  - eapply Forall_impl; [exact H1|done].
  - eapply Forall_impl; [exact H3|done].
Qed.

(** Without [force], nothing is deleted while the ground is prepared. *)
Lemma prepare_no_force venv python destination_tar :
  emits_only (fun e => ~ is_removal e)
    (Packager.prepare os codes venv python destination_tar false).
Proof.
  unfold Packager.prepare, Packager.prepare_virtualenv,
    Packager.prepare_output_file, Utils.make_virtualenv.
  apply emits_only_bind.
  - apply emits_only_bind; [emits|].
    intros [|]; (apply emits_only_bind; [cbv iota; emits|intros _; emits]).
  - intros _. apply emits_only_bind; [emits|]. intros f.
    rewrite andb_false_r. emits.
Qed.

(** What runs between the preparation and the archive. *)
Lemma body_class (P : event -> Prop) config (dry no_validate : bool) venv :
  (forall e, is_install e -> P e) -> (forall e, is_exclusion e -> P e) ->
  forall (k : M world unit),
  emits_only P k ->
  emits_only P
    (modules <- Packager._merge_modules initial_modules config ;;
     (if dry then sys_exit 0 else ret tt) ;;;
     Packager.install_all os codes modules venv ;;;
     (if negb no_validate then Packager._validate os modules venv
      else ret tt) ;;;
     k).
Proof.
  intros Hi He k Hk.
  apply emits_only_bind; [apply merge_modules_emits|intros modules].
  apply emits_only_bind; [destruct dry; emits|intros _].
  apply emits_only_bind; [by apply install_all_class|intros _].
  apply emits_only_bind; [|done].
  destruct (negb no_validate); [|emits].
  apply validate_emits. intros n v. apply He. done.
Qed.

Lemma tar_no_removal venv destination_tar :
  emits_only (fun e => ~ is_removal e)
    (Utils.tar os codes venv destination_tar).
Proof. unfold Utils.tar. emits. Qed.

Lemma get_installed_run venv w :
  result_of ((Utils.get_installed os venv ;;; ret tt) w) = Ret tt
  /\ trace_of ((Utils.get_installed os venv ;;; ret tt) w)
     = [Ev_get_installed venv].
Proof.
  unfold Utils.get_installed, bind, emit, Utils.run, ret, result_of,
    trace_of. simpl. by destruct (run_cmd os _ w).
Qed.

(** From the plan to the end of the run: nothing is deleted unless the
    run gets through. *)
Lemma work_clean config (dry no_validate keep_venv : bool) venv
      destination_tar :
  clean_unless_done
    (modules <- Packager._merge_modules initial_modules config ;;
     (if dry then sys_exit 0 else ret tt) ;;;
     Packager.install_all os codes modules venv ;;;
     (if negb no_validate then Packager._validate os modules venv
      else ret tt) ;;;
     Utils.tar os codes venv destination_tar ;;;
     (if negb keep_venv then Packager.rmtree os venv else ret tt) ;;;
     Utils.get_installed os venv ;;;
     ret tt).
Proof.
  apply clean_bind; [apply merge_modules_emits|intros modules].
  apply clean_bind; [destruct dry; emits|intros _].
  apply clean_bind; [apply install_all_class; by_class|intros _].
  apply clean_bind; [|intros _].
  { destruct (negb no_validate); [|emits].
    apply validate_emits. intros n v. simpl. tauto. }
  apply clean_bind; [apply tar_no_removal|intros _].
  apply clean_of_done. intros w. rewrite bind_result.
  destruct (negb _).
  + change (result_of (Packager.rmtree os venv w)) with (Ret tt (A:=unit)).
    apply get_installed_run.
  + change (result_of (ret tt w)) with (Ret tt (A:=unit)).
    apply get_installed_run.
Qed.

(** X7: without [force], [create] never calls [os.remove]; if the run
    does not return it has deleted nothing at all, so the environment
    it created is left in place; and with [keep_venv: true] nothing is
    deleted even when the run returns. *)
Theorem failed_run_keeps_environment config dry no_validate w :
  let run := Packager.create os codes config false dry no_validate w in
  Forall (fun e => match e with Ev_remove _ => False | _ => True end)
    (trace_of run)
  /\ (result_of run <> Ret tt ->
      Forall (fun e => ~ is_removal e) (trace_of run))
  /\ (Packager.keep_venv config = Some true ->
      Forall (fun e => ~ is_removal e) (trace_of run)).
Proof.
  intros run. subst run. split; [|split].
  - revert w.
    change (emits_only
              (fun e => match e with Ev_remove _ => False | _ => True end)
              (Packager.create os codes config false dry no_validate)).
    unfold Packager.create.
    apply emits_only_bind; [|intros [d r]].
    { destruct (platform_dist os) as [[[? ?] ?]|]; emits. }
    apply emits_only_bind; [|intros _].
    { eapply emits_only_weaken; [|apply prepare_no_force]. by_class. }
    apply body_class; [by_class..|].
    unfold Utils.tar, Utils.get_installed.
    repeat first
      [ apply emits_only_rmtree; simpl; tauto
      | progress emits ].
  - revert w.
    change (clean_unless_done
              (Packager.create os codes config false dry no_validate)).
    unfold Packager.create.
    apply clean_bind; [|intros [d r]].
    { destruct (platform_dist os) as [[[? ?] ?]|]; emits. }
    apply clean_bind; [apply prepare_no_force|intros _].
    apply work_clean.
  - intros Hkeep. revert w.
    change (emits_only (fun e => ~ is_removal e)
              (Packager.create os codes config false dry no_validate)).
    unfold Packager.create. rewrite Hkeep.
    apply emits_only_bind; [|intros [d r]].
    { destruct (platform_dist os) as [[[? ?] ?]|]; emits. }
    apply emits_only_bind; [apply prepare_no_force|intros _].
    apply body_class; [by_class..|].
    unfold Utils.tar, Utils.get_installed. simpl. emits.
Qed.

Lemma exits_in_never_ret {A B} S (m : M world A) (k : A -> M world B) :
  (forall w a, result_of (m w) <> Ret a) ->
  exits_in S m -> exits_in S (bind m k).
Proof.
  intros Hn Hm w c. rewrite bind_result. specialize (Hn w).
  specialize (Hm w). destruct (result_of (m w)) as [a|c'|]; [..|done].
  - by destruct (Hn a).
  - intros [= <-]. by apply Hm.
Qed.

(** X8: the exit codes of [create].  A run that leaves through
    [sys.exit] does so with 1, 2, 9, 3 or the code for a failed
    [virtualenv]; a dry run also with 0, and with no other; a run that
    is not dry also with the codes for a failed install, uninstall or
    archive, and with 10 only when validation is on. *)
Theorem create_exit_codes config force dry no_validate w c :
  result_of (Packager.create os codes config force dry no_validate w)
  = Exit c ->
  c ∈ [1; 2; could_not_create_virtualenv codes; 9; 3]
      ++ (if dry then [0]
          else [could_not_install_module codes;
                could_not_uninstall_module codes]
               ++ (if no_validate then [] else [10])
               ++ [failed_to_create_tar codes]).
Proof.
  revert w c.
  match goal with
  | |- forall w c, _ -> c ∈ ?S =>
      change (exits_in S
                (Packager.create os codes config force dry no_validate))
  end.
  unfold Packager.create.
  apply exits_in_bind; [|intros [d r]].
  { destruct (platform_dist os) as [[[? ?] ?]|]; exits. }
  apply exits_in_bind; [|intros _].
  { unfold Packager.prepare, Packager.prepare_virtualenv,
      Packager.prepare_output_file, Utils.make_virtualenv. exits. }
  apply exits_in_bind; [|intros modules].
  { unfold Packager._merge_modules. exits. }
  destruct dry.
  { apply exits_in_never_ret; [done|]. exits. }
  apply exits_in_bind; [exits|intros _].
  apply exits_in_bind; [|intros _].
  { unfold Packager.install_all, Packager.install_external,
      Packager.install_core, Packager.install_core_module,
      Packager.install_additional, Packager.install_agent,
      Packager.uninstall_excluded, Packager.uninstall_excluded_module,
      Utils.install_module, Utils.uninstall_module, Utils.check_installed.
    destruct no_validate; exits. }
  apply exits_in_bind; [|intros _].
  { destruct no_validate; simpl; [exits|].
    unfold Packager._validate, Packager._validate_failed, Packager.check,
      Utils.check_installed. exits. }
  unfold Utils.tar, Utils.get_installed. destruct no_validate; exits.
Qed.

(** A run of [prepare_virtualenv] that returns has created the
    environment. *)
Lemma prepare_virtualenv_ret_trace venv python force w :
  result_of (Packager.prepare_virtualenv os codes venv python force w)
  = Ret tt ->
  Ev_make_virtualenv venv python
  ∈ trace_of (Packager.prepare_virtualenv os codes venv python force w).
Proof.
  unfold Packager.prepare_virtualenv.
  rewrite bind_result, bind_trace.
  change (result_of (Packager.isdir os venv w))
    with (Ret (os_path_isdir os venv w)).
  change (world_of (Packager.isdir os venv w)) with w.
  cbv iota. rewrite bind_result, bind_trace.
  destruct (result_of ((if os_path_isdir os venv w
                        then if force then Packager.rmtree os venv
                             else sys_exit 2
                        else ret tt) w)) as [[]|c|]; [|done..].
  intros _. apply elem_of_app. right. apply elem_of_app. right.
  unfold Utils.make_virtualenv. rewrite bind_trace.
  apply elem_of_app. left. apply list_elem_of_here.
Qed.

Lemma prepare_ret_trace venv python destination_tar force w :
  result_of (Packager.prepare os codes venv python destination_tar force w)
  = Ret tt ->
  Ev_make_virtualenv venv python
  ∈ trace_of (Packager.prepare os codes venv python destination_tar force w).
Proof.
  unfold Packager.prepare. rewrite bind_result, bind_trace.
  destruct (result_of (Packager.prepare_virtualenv os codes venv python
                         force w)) as [[]|c|] eqn:Hv; [|done..].
  intros _. apply elem_of_app. left. by apply prepare_virtualenv_ret_trace.
Qed.

(** X9: a dry run never returns and makes no call beyond the
    preparation: nothing is installed, listed or archived.  It is not
    without effect: when the preparation succeeds and an agent is
    configured, the run leaves with code 0 after the environment has
    been created (and, under [force], the previous one removed). *)
Theorem dry_run config force no_validate w :
  let run := Packager.create os codes config force true no_validate w in
  (forall u, result_of run <> Ret u)
  /\ Forall is_prepare (trace_of run)
  /\ (forall d v r,
        platform_dist os = Some (d, v, r) ->
        let distro := default d (Packager.distribution config) in
        let release := default r (Packager.release config) in
        let venv := Packager.venv_of config distro release in
        let python :=
          default "/usr/bin/python" (Packager.python_path config) in
        let p := Packager.prepare os codes venv python
                   (Packager.destination_tar_of config distro release)
                   force w in
        result_of p = Ret tt ->
        is_Some (agent_of config) ->
        run = (world_of p, trace_of p, Exit 0)
        /\ Ev_make_virtualenv venv python ∈ trace_of run).
Proof.
  intros run. subst run. split; [|split].
  - intros u. destruct (platform_dist os) as [[[d v] r]|] eqn:Hd.
    + rewrite (create_result _ _ _ _ _ _ _ d v r Hd).
      destruct (result_of (Packager.prepare _ _ _ _ _ _ _)) as [[]|c|];
        [|done..].
      by destruct (result_of (Packager._merge_modules _ _ _)) as [m|c|].
    + unfold Packager.create. rewrite Hd. done.
  - revert w.
    change (emits_only is_prepare
              (Packager.create os codes config force true no_validate)).
    unfold Packager.create.
    apply emits_only_bind; [|intros [d r]].
    { destruct (platform_dist os) as [[[? ?] ?]|]; emits. }
    apply emits_only_bind; [apply prepare_is_prepare|intros _].
    apply emits_only_bind; [apply merge_modules_emits|intros modules].
    apply emits_only_never_ret; [emits|done].
  - intros d v r Hd distro release venv python p Hp [a Ha].
    assert (Packager.create os codes config force true no_validate w
            = (world_of p, trace_of p, Exit 0)) as E.
    { rewrite (create_eq _ _ _ _ _ _ _ d v r Hd).
      fold distro release venv python. unfold bind at 1. fold p.
      destruct p as [[w1 t1] rp]. rewrite result_of_mk in Hp. subst rp.
      rewrite world_of_mk, trace_of_mk.
      unfold bind at 1. rewrite merge_modules_run, Ha.
      unfold bind, sys_exit. by rewrite !app_nil_r. }
    split; [exact E|]. rewrite E, trace_of_mk.
    by apply prepare_ret_trace.
Qed.

(** Only the refusal to overwrite an environment stops
    [prepare_virtualenv] before anything is done. *)
Lemma prepare_virtualenv_silent venv python force w :
  trace_of (Packager.prepare_virtualenv os codes venv python force w) = [] ->
  result_of (Packager.prepare_virtualenv os codes venv python force w)
  = Exit 2.
Proof.
  unfold Packager.prepare_virtualenv, Packager.isdir, Packager.rmtree,
    Utils.make_virtualenv, bind, emit, Utils.run, ret, sys_exit, trace_of,
    result_of.
  destruct (os_path_isdir os venv w); [destruct force|]; simpl; try done.
  - by destruct (run_cmd os _ _) as [w1 p]; destruct (negb _).
  - by destruct (run_cmd os _ _) as [w1 p]; destruct (negb _).
Qed.

(** X10: [create] leaves with code 1 before doing anything exactly when
    [platform.dist()] raises; the defaults of [config.get] are
    evaluated first, so this happens even when the configuration names
    the distribution and the release. *)
Theorem platform_failure_exits_first config force dry no_validate w :
  platform_dist os = None
  <-> Packager.create os codes config force dry no_validate w
      = (w, [], Exit 1).
Proof.
  split.
  - intros Hd. unfold Packager.create. by rewrite Hd.
  - destruct (platform_dist os) as [[[d v] r]|] eqn:Hd; [|done].
    rewrite (create_eq _ _ _ _ _ _ _ d v r Hd). intros E. exfalso.
    pose proof (f_equal trace_of E) as Et.
    pose proof (f_equal result_of E) as Er.
    rewrite trace_of_mk in Et. rewrite result_of_mk in Er.
    rewrite bind_trace in Et. apply app_eq_nil in Et as [Et _].
    rewrite bind_result in Er. unfold Packager.prepare in Et, Er.
    rewrite bind_trace in Et. apply app_eq_nil in Et as [Et _].
    apply prepare_virtualenv_silent in Et.
    rewrite bind_result, Et in Er. done.
Qed.

End RunInvariants.

(** ** When a run raises *)

Section Raising.
Context {world : Type} (os : OS world) (codes : error_codes).
Implicit Types (w : world) (config : Packager.config).

Lemma never_raises_for_each_in {A} (l : list A) (f : A -> M world unit) :
  (forall x, x ∈ l -> never_raises (f x)) -> never_raises (for_each l f).
Proof.
  intros Hf. induction l as [|x l IH]; simpl.
  - apply never_raises_ret.
  - apply never_raises_bind.
    + apply Hf, list_elem_of_here.
    + intros _. apply IH. intros y Hy. by apply Hf, list_elem_of_further.
Qed.

Lemma catalog_names_literal slot :
  slot ∈ Packager.MODULES_LIST ->
  Re.literal (Str.chars (Packager.get_module_name slot)).
Proof.
  unfold Packager.MODULES_LIST. intros H.
  repeat (apply elem_of_cons in H as [->|H];
          [vm_compute; repeat constructor|]).
  by apply elem_of_nil in H.
Qed.

(** [re.search] answers for a pattern of the fragment, and raises for
    a rejected pattern, whatever the text; where it raises, the
    pattern is rejected or left to [re]. *)
Lemma listed_pattern module L p :
  Re.sre_parse (Str.chars module) = Re.Pattern p ->
  is_Some (Utils.listed os module L).
Proof. intros Hp. unfold Utils.listed, Re.search. by rewrite Hp. Qed.

Lemma listed_rejected module L :
  rejected module -> Utils.listed os module L = None.
Proof. intros Hp. unfold Utils.listed. by apply ReFacts.search_rejected. Qed.

Lemma listed_None module L :
  Utils.listed os module L = None -> may_raise os module.
Proof.
  unfold Utils.listed, Re.search, may_raise, rejected.
  destruct (Re.sre_parse (Str.chars module)) as [p| |]; [done|by left|].
  intros H. right. split; [done|]. by eexists.
Qed.

Lemma check_installed_parsed module venv p :
  Re.sre_parse (Str.chars module) = Re.Pattern p ->
  never_raises (Utils.check_installed os module venv).
Proof.
  intros Hp w. rewrite check_installed_run, result_of_mk.
  by destruct (listed_pattern module (listing os venv w) p Hp) as [b ->].
Qed.

Lemma install_module_never_raises module venv :
  never_raises (Utils.install_module os codes module venv).
Proof. unfold Utils.install_module. raises_not. Qed.

Lemma uninstall_excluded_never_raises core venv :
  never_raises (Packager.uninstall_excluded os codes core venv).
Proof.
  unfold Packager.uninstall_excluded. apply never_raises_for_each_in.
  intros slot Hslot. unfold Packager.uninstall_excluded_module.
  destruct (core !! slot) as [source|]; [|raises_not].
  destruct (String.eqb source "exclude"); [|raises_not].
  apply never_raises_bind.
  - eapply check_installed_parsed.
    by apply ReFacts.sre_parse_literal, catalog_names_literal.
  - intros [|]; [unfold Utils.uninstall_module|]; raises_not.
Qed.

Lemma install_all_never_raises modules venv :
  never_raises (Packager.install_all os codes modules venv).
Proof.
  unfold Packager.install_all.
  apply never_raises_bind; [|intros _].
  { unfold Packager.install_external, Utils.install_module. raises_not. }
  apply never_raises_bind; [|intros _].
  { unfold Packager.install_core, Packager.install_core_module,
      Utils.install_module. raises_not. }
  apply never_raises_bind; [|intros _].
  { unfold Packager.install_additional, Utils.install_module. raises_not. }
  apply never_raises_bind; [|intros _].
  { unfold Packager.install_agent, Utils.install_module. raises_not. }
  apply uninstall_excluded_never_raises.
Qed.

(** X11: the names of the catalog slots have no special character, so
    the listing searches of the exclusion pass always answer: neither
    the pass, nor the installs before it, nor a whole run with
    validation off, ends in an exception of [re]. *)
Theorem exclusion_pass_never_raises :
  (forall core venv w,
     result_of (Packager.uninstall_excluded os codes core venv w) <> Raised)
  /\ (forall modules venv w,
        result_of (Packager.install_all os codes modules venv w) <> Raised)
  /\ (forall config force dry w,
        result_of (Packager.create os codes config force dry true w)
        <> Raised).
Proof.
  split; [intros core venv; apply uninstall_excluded_never_raises|].
  split; [intros modules venv; apply install_all_never_raises|].
  intros config force dry.
  change (never_raises (Packager.create os codes config force dry true)).
  unfold Packager.create.
  apply never_raises_bind; [|intros [d r]].
  { destruct (platform_dist os) as [[[? ?] ?]|]; raises_not. }
  apply never_raises_bind; [|intros _].
  { unfold Packager.prepare, Packager.prepare_virtualenv,
      Packager.prepare_output_file, Utils.make_virtualenv. raises_not. }
  apply never_raises_bind; [|intros modules].
  { unfold Packager._merge_modules. raises_not. }
  apply never_raises_bind; [destruct dry; raises_not|intros _].
  apply never_raises_bind; [apply install_all_never_raises|intros _].
  unfold Utils.tar, Utils.get_installed. simpl. raises_not.
Qed.

End Raising.

(** ** Validation, whatever the order of the dictionary *)

Section ValidationOrder.
Context {world : Type} (os : OS world) (venv : string).
Implicit Types (w : world) (modules : Packager.modules)
         (entries : list (string * string)).

(** How a loop of checks ends, by the names it looks for. *)
Lemma for_fold_outcome {A} (l : list A)
      (f : A -> list string -> M world (list string))
      (sel : A -> option string) :
  (forall x failed w,
     f x failed w = match sel x with
                    | Some n =>
                        ((run_cmd os (Utils.pip_freeze_cmd venv) w).1,
                         [Ev_check_installed n venv],
                         match Utils.listed os n (listing os venv w) with
                         | Some true => Ret failed
                         | Some false => Ret (failed ++ [n])
                         | None => Raised
                         end)
                    | None => (w, [], Ret failed)
                    end) ->
  forall failed w,
    match result_of (for_fold l f failed w) with
    | Ret _ => Forall (fun n => ~ rejected n) (omap sel l)
    | Exit _ => False
    | Raised => Exists (may_raise os) (omap sel l)
    end.
Proof.
  intros Hf. induction l as [|x l IH]; intros failed w.
  - constructor.
  - cbn [for_fold omap list_omap]. rewrite bind_result, Hf.
    destruct (sel x) as [n|]; rewrite result_of_mk, world_of_mk.
    + assert (is_Some (Utils.listed os n (listing os venv w)) ->
              ~ rejected n) as Hn.
      { intros [b Hb] Hn.
        apply (listed_rejected os n (listing os venv w)) in Hn.
        by rewrite Hn in Hb. }
      destruct (Utils.listed os n _) as [[|]|] eqn:E.
      * specialize (IH failed (run_cmd os (Utils.pip_freeze_cmd venv) w).1).
        destruct (result_of (for_fold l f failed _)) as [fl|c|]; [|done|].
        -- constructor; [by apply Hn|done].
        -- by right.
      * specialize (IH (failed ++ [n])
                      (run_cmd os (Utils.pip_freeze_cmd venv) w).1).
        destruct (result_of (for_fold l f (failed ++ [n]) _)) as [fl|c|];
          [|done|].
        -- constructor; [by apply Hn|done].
        -- by right.
      * left. by apply listed_None in E.
    + apply IH.
Qed.

Lemma validate_failed_over_outcome entries modules w :
  match result_of (_validate_failed_over os entries modules venv w) with
  | Ret _ =>
      Forall (fun n => ~ rejected n) (checked_names_over entries modules)
  | Exit _ => False
  | Raised => Exists (may_raise os) (checked_names_over entries modules)
  end.
Proof.
  unfold _validate_failed_over, checked_names_over.
  set (f1 := fun '(core_module, source) failed =>
               if Str.truthy source && negb (String.eqb source "exclude")
               then Packager.check os core_module venv failed
               else ret failed).
  set (f2 := fun additional_module failed =>
               Packager.check os additional_module venv failed).
  assert (forall x failed w0,
            f1 x failed w0
            = match core_checked_name x with
              | Some n =>
                  ((run_cmd os (Utils.pip_freeze_cmd venv) w0).1,
                   [Ev_check_installed n venv],
                   match Utils.listed os n (listing os venv w0) with
                   | Some true => Ret failed
                   | Some false => Ret (failed ++ [n])
                   | None => Raised
                   end)
              | None => (w0, [], Ret failed)
              end) as Hf1.
  { intros [k src] failed w0. unfold f1, core_checked_name.
    destruct (_ && _); [|done]. apply check_run. }
  assert (forall x failed w0,
            f2 x failed w0
            = match Some (Packager.get_module_name x) with
              | Some n =>
                  ((run_cmd os (Utils.pip_freeze_cmd venv) w0).1,
                   [Ev_check_installed n venv],
                   match Utils.listed os n (listing os venv w0) with
                   | Some true => Ret failed
                   | Some false => Ret (failed ++ [n])
                   | None => Raised
                   end)
              | None => (w0, [], Ret failed)
              end) as Hf2.
  { intros x failed w0. apply check_run. }
  rewrite bind_result.
  pose proof (for_fold_outcome entries f1 core_checked_name Hf1 [] w) as H1.
  destruct (result_of (for_fold entries f1 [] w)) as [fl1|c|];
    [|done|by apply Exists_app; left].
  rewrite bind_result.
  pose proof (for_fold_outcome (Packager.additional modules) f2
                (fun x => Some (Packager.get_module_name x)) Hf2 fl1
                (world_of (for_fold entries f1 [] w))) as H2.
  rewrite omap_Some_map in H2.
  destruct (result_of (for_fold (Packager.additional modules) f2 fl1 _))
    as [fl2|c|]; [|done|by apply Exists_app; right; apply Exists_app; left].
  destruct (Packager.agent modules) as [a|].
  - rewrite check_run, result_of_mk.
    change (Packager.get_module_name "cloudify-agent") with "cloudify-agent".
    assert (~ rejected "cloudify-agent") as Ha by (vm_compute; discriminate).
    destruct (listed_pattern os "cloudify-agent"
                (listing os venv
                   (world_of (for_fold (Packager.additional modules) f2 fl1
                                (world_of (for_fold entries f1 [] w)))))
                [Re.lits (Str.chars "cloudify-agent")]) as [b ->];
      [by vm_compute|].
    destruct b.
    + cbv iota. rewrite !Forall_app. split; [done|]. split; [done|].
      by constructor.
    + cbv iota. rewrite !Forall_app. split; [done|]. split; [done|].
      by constructor.
  - change (result_of (ret fl2 _)) with (Ret fl2). cbv iota.
    rewrite !Forall_app. split; [done|]. split; [done|]. constructor.
Qed.

Lemma validate_failed_is_over modules :
  Packager._validate_failed os modules venv
  = _validate_failed_over os (map_to_list (Packager.core modules)) modules
      venv.
Proof. done. Qed.

(** X12: when [_validate] raises.  It does whenever one of the names
    it looks for is a pattern that [re] rejects, whatever the listing
    shows; and when it raises, one of the names is such a pattern, or
    is a pattern outside the modelled fragment on which [re.search]
    raises.  So when every name is in the fragment, [_validate] raises
    exactly when a name is rejected.  And 10 is the only code it exits
    with. *)
Theorem validation_raises_iff modules w :
  let outcome := result_of (Packager._validate os modules venv w) in
  let names := checked_names modules in
  ((exists n, n ∈ names /\ rejected n) -> outcome = Raised)
  /\ (outcome = Raised -> exists n, n ∈ names /\ may_raise os n)
  /\ (Forall (fun n => Re.sre_parse (Str.chars n) <> Re.Unmodelled) names ->
      (outcome = Raised <-> exists n, n ∈ names /\ rejected n))
  /\ (forall c, outcome = Exit c -> c = 10).
Proof.
  intros outcome names. subst outcome names.
  pose proof (validate_failed_over_outcome
                (map_to_list (Packager.core modules)) modules w) as H.
  rewrite <- validate_failed_is_over in H.
  change (checked_names_over (map_to_list (Packager.core modules)) modules)
    with (checked_names modules) in H.
  rewrite validate_run, result_of_mk.
  assert ((exists n, n ∈ checked_names modules /\ rejected n) ->
          result_of (Packager._validate_failed os modules venv w) = Raised)
    as Hrej.
  { intros (n & Hn & Hp).
    destruct (result_of (Packager._validate_failed os modules venv w))
      as [fl|c|]; [|done..].
    rewrite Forall_forall in H. by destruct (H n Hn). }
  assert (result_of (Packager._validate_failed os modules venv w) = Raised ->
          exists n, n ∈ checked_names modules /\ may_raise os n) as Hmay.
  { intros E. rewrite E in H. apply Exists_exists in H. done. }
  destruct (result_of (Packager._validate_failed os modules venv w))
    as [[|n0 fl]|c|] eqn:E.
  - split; [by intros ?%Hrej|]. split; [done|]. split; [|done].
    intros _. split; [done|]. by intros ?%Hrej.
  - split; [by intros ?%Hrej|]. split; [done|]. split; [|by intros c [= <-]].
    intros _. split; [done|]. by intros ?%Hrej.
  - done.
  - split; [done|]. split; [by intros _; apply Hmay|]. split; [|done].
    intros Hin. split; [|done]. intros _.
    destruct (Hmay eq_refl) as (n & Hn & [Hr|[Hu _]]); [by exists n|].
    rewrite Forall_forall in Hin. by destruct (Hin n Hn).
Qed.

(** The loops look for the [checked_names_over], in order, in the
    listing they start from. *)
Lemma validate_failed_over_run entries modules w :
  freeze_stable os venv ->
  exists w',
    _validate_failed_over os entries modules venv w
    = (w',
       (collect os (listing os venv w) venv
          (checked_names_over entries modules) []).1,
       (collect os (listing os venv w) venv
          (checked_names_over entries modules) []).2)
    /\ listing os venv w' = listing os venv w.
Proof.
  intros Hst. set (L := listing os venv w).
  unfold _validate_failed_over, checked_names_over.
  destruct (for_fold_collect os venv entries
              (fun '(core_module, source) failed =>
                 if Str.truthy source && negb (String.eqb source "exclude")
                 then Packager.check os core_module venv failed
                 else ret failed)
              core_checked_name L Hst) with ([] : list string) w
    as (w1 & E1 & HL1); [|done|].
  { intros [k src] failed w0. unfold core_checked_name.
    destruct (_ && _); [|done]. apply check_run. }
  destruct (collect os L venv (omap core_checked_name _) []) as [t1 r1] eqn:C1.
  rewrite collect_app, C1. unfold bind at 1. rewrite E1. simpl.
  destruct r1 as [f1|c|]; [|by exists w1..].
  destruct (for_fold_collect os venv (Packager.additional modules)
              (fun additional_module failed =>
                 Packager.check os additional_module venv failed)
              (fun a => Some (Packager.get_module_name a)) L Hst)
    with f1 w1 as (w2 & E2 & HL2); [|done|].
  { intros a failed w0. apply check_run. }
  rewrite omap_Some_map in E2.
  destruct (collect os L venv (map _ _) f1) as [t2 r2] eqn:C2.
  rewrite collect_app, C2. unfold bind. rewrite E2. simpl.
  destruct r2 as [f2|c|]; [|by exists w2..].
  destruct (Packager.agent modules) as [a|].
  - rewrite check_run. change (Packager.get_module_name "cloudify-agent")
      with "cloudify-agent". rewrite HL2. cbn [collect].
    eexists. split.
    + destruct (Utils.listed os "cloudify-agent" L) as [[|]|]; simpl;
        by rewrite ?app_assoc.
    + by rewrite listing_after_freeze.
  - exists w2. simpl. by rewrite app_nil_r.
Qed.

Lemma collect_raised L names failed :
  Exists (fun n => Utils.listed os n L = None) names ->
  (collect os L venv names failed).2 = Raised.
Proof.
  revert failed. induction names as [|n names IH]; intros failed.
  - by intros ?%Exists_nil.
  - intros H. cbn [collect].
    destruct (Utils.listed os n L) as [b|] eqn:E; [|done].
    apply Exists_cons in H as [H|H]; [by rewrite E in H|].
    specialize (IH (if b then failed else failed ++ [n]) H).
    by destruct (collect os L venv names _) as [t res].
Qed.

(** How the loops end, by the listing alone. *)
Lemma validate_failed_over_result entries modules w :
  freeze_stable os venv ->
  let L := listing os venv w in
  let names := checked_names_over entries modules in
  result_of (_validate_failed_over os entries modules venv w)
  = if decide (Forall (fun n => is_Some (Utils.listed os n L)) names)
    then Ret (missing os L names) else Raised.
Proof.
  intros Hst L names.
  destruct (validate_failed_over_run entries modules w Hst) as (w' & -> & _).
  rewrite result_of_mk. fold L names. destruct (decide _) as [Hall|Hnot].
  - by rewrite collect_listed.
  - apply collect_raised. apply not_Forall_Exists in Hnot; [|apply _].
    eapply Exists_impl; [exact Hnot|]. intros n Hn.
    by apply eq_None_not_Some.
Qed.

(** X13: the order in which [modules['core'].items()] hands out the
    entries does not matter to validation: for any order of the
    entries, against a listing that stays the same, the loops either
    raise in both cases or return lists of missing names that are
    permutations of each other. *)
Theorem validation_order_independent entries modules w :
  freeze_stable os venv ->
  entries ≡ₚ map_to_list (Packager.core modules) ->
  match result_of (_validate_failed_over os entries modules venv w),
        result_of (Packager._validate_failed os modules venv w) with
  | Ret failed1, Ret failed2 => failed1 ≡ₚ failed2
  | Raised, Raised => True
  | _, _ => False
  end.
Proof.
  intros Hst Hperm. rewrite validate_failed_is_over.
  rewrite !validate_failed_over_result by done.
  set (L := listing os venv w).
  assert (checked_names_over entries modules
          ≡ₚ checked_names_over (map_to_list (Packager.core modules)) modules)
    as Hnames.
  { unfold checked_names_over. by rewrite Hperm. }
  destruct (decide (Forall _ (checked_names_over entries modules)))
    as [H1|H1];
    destruct (decide (Forall _ (checked_names_over (map_to_list _) modules)))
      as [H2|H2].
  - unfold missing. by rewrite Hnames.
  - destruct H2. by rewrite <- Hnames.
  - destruct H1. by rewrite Hnames.
  - done.
Qed.

End ValidationOrder.

(** ** The plan and the steps around the installs *)

Section PlanSteps.
Context {world : Type} (os : OS world) (codes : error_codes).
Implicit Types (w : world) (config : Packager.config)
         (core : gmap string string).

Lemma for_each_skip {A} (l : list A) (f : A -> M world unit) w :
  (forall x w', x ∈ l -> f x w' = (w', [], Ret tt)) ->
  for_each l f w = (w, [], Ret tt).
Proof.
  intros Hf. induction l as [|x l IH]; [done|].
  cbn [for_each]. unfold bind. rewrite Hf by apply list_elem_of_here.
  rewrite IH; [done|]. intros y w' Hy. by apply Hf, list_elem_of_further.
Qed.

Lemma uninstall_excluded_nothing core venv w :
  (forall slot, slot ∈ Packager.MODULES_LIST ->
                core !! slot <> Some "exclude") ->
  Packager.uninstall_excluded os codes core venv w = (w, [], Ret tt).
Proof.
  intros Hno. unfold Packager.uninstall_excluded. apply for_each_skip.
  intros slot w' Hslot.
  by apply (uninstall_excluded_module_run os codes core venv slot w'), Hno.
Qed.

(** X14: when no catalog slot is marked ['exclude'], the exclusion pass
    does nothing, not even a listing; with validation off, a run of
    [create] then never calls [check_installed]. *)
Theorem no_exclusion_no_listing config force dry w :
  (forall slot, slot ∈ Packager.MODULES_LIST ->
     default ∅ (Packager.core_modules config) !! slot <> Some "exclude") ->
  (forall venv w',
     Packager.uninstall_excluded os codes
       (default ∅ (Packager.core_modules config)) venv w'
     = (w', [], Ret tt))
  /\ Forall (fun e => ~ is_check e)
       (trace_of (Packager.create os codes config force dry true w)).
Proof.
  intros Hno. split; [intros venv w'; by apply uninstall_excluded_nothing|].
  revert w.
  change (emits_only (fun e => ~ is_check e)
            (Packager.create os codes config force dry true)).
  unfold Packager.create.
  apply emits_only_bind; [|intros [d r]].
  { destruct (platform_dist os) as [[[? ?] ?]|]; emits. }
  apply emits_only_bind; [|intros _].
  { eapply emits_only_weaken; [|apply prepare_is_prepare]. by_class. }
  apply (emits_only_bind_ret _
           (fun modules => Packager.core modules
                           = default ∅ (Packager.core_modules config))).
  { apply merge_modules_emits. }
  { intros w modules. rewrite merge_modules_run, result_of_mk.
    destruct (agent_of config) as [a|]; [|done]. intros [= <-]. simpl.
    by rewrite (right_id_L ∅ (∪)). }
  intros modules Hcore.
  apply emits_only_bind; [destruct dry; emits|intros _].
  apply emits_only_bind; [|intros _].
  { unfold Packager.install_all.
    apply emits_only_bind; [|intros _].
    { eapply emits_only_weaken;
        [|apply emits_only_for_each; intros x;
          apply install_module_is_install]. by_class. }
    apply emits_only_bind; [|intros _].
    { eapply emits_only_weaken;
        [|apply emits_only_for_each; intros x;
          apply install_core_module_is_install]. by_class. }
    apply emits_only_bind; [|intros _].
    { eapply emits_only_weaken;
        [|apply emits_only_for_each; intros x;
          apply install_module_is_install]. by_class. }
    apply emits_only_bind; [|intros _].
    { unfold Packager.install_agent.
      destruct (Packager.truthy_get _); [|emits].
      eapply emits_only_weaken; [|apply install_module_is_install].
      by_class. }
    intros w. rewrite Hcore, uninstall_excluded_nothing by done.
    constructor. }
  apply emits_only_bind; [simpl; emits|intros _].
  eapply emits_only_weaken; [|apply finish_is_finish]. by_class.
Qed.

(** X15: [_merge_modules] on any starting dictionary: the keys of
    [core_modules] override those already in [core], the other keys of
    [core] are kept, the additional modules are appended to those
    already there, and [agent] is replaced; [cloudify_agent_module]
    wins over [cloudify_agent_version] when both are given.  Merging
    the same configuration again changes neither [core] nor [agent]
    but appends the additional modules a second time. *)
Theorem merge_modules_general modules0 config a w :
  agent_of config = Some a ->
  exists modules,
    Packager._merge_modules modules0 config w = (w, [], Ret modules)
    /\ (forall key,
          Packager.core modules !! key
          = match default ∅ (Packager.core_modules config) !! key with
            | Some source => Some source
            | None => Packager.core modules0 !! key
            end)
    /\ Packager.additional modules
       = Packager.additional modules0
         ++ default [] (Packager.additional_modules config)
    /\ Packager.agent modules = Some a
    /\ (forall m v,
          Packager.cloudify_agent_module config = Some m ->
          Packager.cloudify_agent_version config = Some v ->
          a = m)
    /\ exists again,
         Packager._merge_modules modules config w = (w, [], Ret again)
         /\ Packager.core again = Packager.core modules
         /\ Packager.agent again = Packager.agent modules
         /\ Packager.additional again
            = Packager.additional modules
              ++ default [] (Packager.additional_modules config).
Proof.
  intros Ha. eexists. rewrite merge_modules_run, Ha. split; [done|]. simpl.
  split.
  { intros key. rewrite lookup_union.
    destruct (default ∅ (Packager.core_modules config) !! key);
      by destruct (Packager.core modules0 !! key). }
  split; [done|]. split; [done|]. split.
  { intros m v Hm _. unfold agent_of in Ha. rewrite Hm in Ha. congruence. }
  eexists. rewrite merge_modules_run, Ha. split; [done|]. simpl.
  split; [|done]. by rewrite (assoc_L (∪)), (idemp_L (∪)).
Qed.

(** X16: the plan of [create] always has an [agent] entry, so
    validation always looks for [cloudify-agent]; the agent itself is
    installed only when its source is a non-empty string: with
    [cloudify_agent_module: ''] nothing is installed and
    [cloudify-agent] is still required. *)
Theorem agent_checked_whatever_installed config a w :
  agent_of config = Some a ->
  exists modules,
    Packager._merge_modules initial_modules config w = (w, [], Ret modules)
    /\ "cloudify-agent" ∈ checked_names modules
    /\ forall venv w',
         (a = "" ->
          Packager.install_agent os codes modules venv w' = (w', [], Ret tt))
         /\ (a <> "" ->
             trace_of (Packager.install_agent os codes modules venv w')
             = [Ev_install_module a venv]).
Proof.
  intros Ha. eexists. rewrite merge_modules_run, Ha. split; [done|]. split.
  { apply checked_names_spec. right. right. simpl. split; [by eexists|done]. }
  intros venv w'. unfold Packager.install_agent. simpl. split.
  - by intros ->.
  - intros Hne. destruct a as [|c a]; [done|]. simpl.
    unfold Utils.install_module, bind, emit, Utils.run, trace_of. simpl.
    destruct (run_cmd os _ w') as [w1 p]. by destruct (negb _).
Qed.

End PlanSteps.

Section Failures.
Context {world : Type} (os : OS world) (codes : error_codes).
Implicit Types (w : world) (config : Packager.config)
         (core : gmap string string).

Lemma prepare_output_file_trace destination_tar force w :
  trace_of (Packager.prepare_output_file os destination_tar force w)
  = if os_path_isfile os destination_tar w && force
    then [Ev_remove destination_tar] else [].
Proof.
  unfold Packager.prepare_output_file, Packager.isfile, Packager.exists_,
    Packager.remove, bind, trace_of, ret, sys_exit.
  destruct (os_path_isfile os destination_tar w && force); simpl;
    by destruct (os_path_exists os destination_tar _).
Qed.

(** X17: the archive path is looked at only after the environment has
    been created: a run that stops there with code 9 has already
    called [make_virtualenv] (and removed a previous environment under
    [force]); its calls are those of the environment step, followed by
    the removal of the previous archive if there was a file and
    [force] was given. *)
Theorem archive_conflict_found_late config force dry no_validate w d v r :
  platform_dist os = Some (d, v, r) ->
  let distro := default d (Packager.distribution config) in
  let release := default r (Packager.release config) in
  let venv := Packager.venv_of config distro release in
  let python := default "/usr/bin/python" (Packager.python_path config) in
  let destination_tar := Packager.destination_tar_of config distro release in
  let pv := Packager.prepare_virtualenv os codes venv python force w in
  let stale := os_path_isfile os destination_tar (world_of pv) && force in
  let run := Packager.create os codes config force dry no_validate w in
  result_of pv = Ret tt ->
  os_path_exists os destination_tar
    (if stale then os_remove os destination_tar (world_of pv)
     else world_of pv) = true ->
  result_of run = Exit 9
  /\ trace_of run
     = trace_of pv ++ (if stale then [Ev_remove destination_tar] else [])
  /\ Ev_make_virtualenv venv python ∈ trace_of run.
Proof.
  intros Hd distro release venv python destination_tar pv stale run Hpv Hex.
  assert (result_of run = Exit 9
          /\ trace_of run
             = trace_of pv
               ++ (if stale then [Ev_remove destination_tar] else []))
    as [Hr Ht].
  { subst run. rewrite (create_eq _ _ _ _ _ _ _ d v r Hd).
    fold distro release venv python destination_tar.
    rewrite bind_result, bind_trace. unfold Packager.prepare.
    rewrite !bind_result, !bind_trace. fold pv. rewrite Hpv.
    rewrite prepare_output_file_result, prepare_output_file_trace.
    fold stale. rewrite Hex. by rewrite app_nil_r. }
  split; [done|]. split; [done|]. rewrite Ht. apply elem_of_app. left.
  by apply prepare_virtualenv_ret_trace.
Qed.

Lemma make_virtualenv_run venv python w :
  Utils.make_virtualenv os codes venv python w
  = ((run_cmd os (virtualenv_cmd venv python) w).1,
     [Ev_make_virtualenv venv python],
     if returncode (run_cmd os (virtualenv_cmd venv python) w).2 =? 0
     then Ret tt else Exit (could_not_create_virtualenv codes)).
Proof.
  unfold Utils.make_virtualenv, virtualenv_cmd, bind, emit, Utils.run.
  destruct (run_cmd os _ w) as [w1 p]. simpl.
  by destruct (returncode p =? 0).
Qed.

(** X18: under [force], a previous environment is removed before the
    new one is created: when the [virtualenv] command fails, the run
    leaves with [could_not_create_virtualenv] and the previous
    environment is gone. *)
Theorem virtualenv_failure_after_removal config dry no_validate w d v r :
  platform_dist os = Some (d, v, r) ->
  let distro := default d (Packager.distribution config) in
  let release := default r (Packager.release config) in
  let venv := Packager.venv_of config distro release in
  let python := default "/usr/bin/python" (Packager.python_path config) in
  let w0 := if os_path_isdir os venv w then shutil_rmtree os venv w else w in
  returncode (run_cmd os (virtualenv_cmd venv python) w0).2 <> 0 ->
  Packager.create os codes config true dry no_validate w
  = ((run_cmd os (virtualenv_cmd venv python) w0).1,
     (if os_path_isdir os venv w then [Ev_rmtree venv] else [])
     ++ [Ev_make_virtualenv venv python],
     Exit (could_not_create_virtualenv codes)).
Proof.
  intros Hd distro release venv python w0 Hrc.
  rewrite (create_eq _ _ _ _ _ _ _ d v r Hd).
  fold distro release venv python.
  apply Z.eqb_neq in Hrc.
  unfold Packager.prepare, Packager.prepare_virtualenv.
  unfold bind at 1 2 3. unfold Packager.isdir at 1. subst w0.
  destruct (os_path_isdir os venv w).
  - unfold bind at 1. unfold Packager.rmtree at 1.
    by rewrite make_virtualenv_run, Hrc.
  - unfold bind at 1. unfold ret at 1.
    by rewrite make_virtualenv_run, Hrc.
Qed.

(** X19: ['exclude'] on a key of [core] that is no catalog slot has no
    effect: the catalog pass and the exclusion pass run as if the key
    were not there (the module is not uninstalled even when the
    listing shows it), and validation looks for the same names. *)
Theorem excluded_non_catalog_key_inert core key venv w :
  key ∉ Packager.MODULES_LIST ->
  core !! key = Some "exclude" ->
  Packager.install_core os codes core venv w
  = Packager.install_core os codes (delete key core) venv w
  /\ Packager.uninstall_excluded os codes core venv w
     = Packager.uninstall_excluded os codes (delete key core) venv w
  /\ (forall additional agent,
        checked_names {| Packager.core := core;
                         Packager.additional := additional;
                         Packager.agent := agent |}
        ≡ₚ checked_names {| Packager.core := delete key core;
                            Packager.additional := additional;
                            Packager.agent := agent |}).
Proof.
  intros Hkey Hex.
  assert (forall slot, slot ∈ Packager.MODULES_LIST ->
                       delete key core !! slot = core !! slot) as Hsame.
  { intros slot Hslot. apply lookup_delete_ne. by intros ->. }
  split; [|split].
  - unfold Packager.install_core. apply for_each_ext.
    intros slot w' Hslot. unfold Packager.install_core_module.
    by rewrite Hsame.
  - unfold Packager.uninstall_excluded. apply for_each_ext.
    intros slot w' Hslot. unfold Packager.uninstall_excluded_module.
    by rewrite Hsame.
  - intros additional agent. unfold checked_names. simpl.
    rewrite <- (map_to_list_delete core key "exclude" Hex). done.
Qed.

Lemma install_module_run module venv w :
  Utils.install_module os codes module venv w
  = ((run_cmd os (pip_install_cmd module venv) w).1,
     [Ev_install_module module venv],
     if returncode (run_cmd os (pip_install_cmd module venv) w).2 =? 0
     then Ret tt else Exit (could_not_install_module codes)).
Proof.
  unfold Utils.install_module, pip_install_cmd, bind, emit, Utils.run.
  destruct (run_cmd os _ w) as [w1 p]. simpl.
  by destruct (returncode p =? 0).
Qed.

(** X20: the additional modules are installed one by one, and the first
    [pip install] that fails ends the pass with
    [could_not_install_module]: the modules after it are not
    attempted. *)
Theorem failed_install_stops_additional modules venv before module after w :
  Packager.additional modules = before ++ module :: after ->
  let pass :=
    for_each before (fun m => Utils.install_module os codes m venv) w in
  result_of pass = Ret tt ->
  returncode (run_cmd os (pip_install_cmd module venv) (world_of pass)).2
  <> 0 ->
  result_of (Packager.install_additional os codes modules venv w)
  = Exit (could_not_install_module codes)
  /\ installs (trace_of (Packager.install_additional os codes modules venv w))
     = before ++ [module].
Proof.
  intros Hadd pass Hret Hrc. apply Z.eqb_neq in Hrc.
  unfold Packager.install_additional. rewrite Hadd, for_each_app.
  rewrite bind_result, bind_trace. fold pass. rewrite Hret.
  cbn [for_each]. rewrite bind_result, bind_trace.
  rewrite install_module_run, result_of_mk, trace_of_mk, Hrc.
  split; [done|]. rewrite app_nil_r, installs_app.
  assert (installs (trace_of pass) = before) as ->; [|done].
  destruct (installs_upto_for_each before
              (fun m => Utils.install_module os codes m venv) Some) with w
    as [_ Hall].
  { intros x. apply install_module_installs. }
  fold pass in Hall. rewrite (Hall tt Hret). apply omap_Some_id.
Qed.

End Failures.

(** ** What a run leaves alone *)

Section Restraint.
Context {world : Type} (os : OS world) (codes : error_codes).
Implicit Types (w : world) (config : Packager.config)
         (core : gmap string string).

(** X21: in a run of [create] that does not return, whatever [force]
    is, every removal belongs to the preparation: once the first
    install has been issued nothing is deleted, so a failed run is not
    rolled back. *)
Theorem no_removal_after_work config force dry no_validate w :
  let run := Packager.create os codes config force dry no_validate w in
  result_of run <> Ret tt ->
  exists prep rest,
    trace_of run = prep ++ rest
    /\ Forall is_prepare prep
    /\ Forall (fun e => ~ is_removal e) rest.
Proof.
  intros run Hfail. subst run.
  destruct (platform_dist os) as [[[d v] r]|] eqn:Hd.
  - rewrite (create_eq _ _ _ _ _ _ _ d v r Hd) in *.
    rewrite bind_result in Hfail. rewrite bind_trace.
    eexists _, _. split; [done|]. split; [apply prepare_is_prepare|].
    destruct (result_of (Packager.prepare _ _ _ _ _ _ _)) as [[]|c|];
      [|constructor..].
    by apply work_clean.
  - exists [], []. unfold Packager.create. rewrite Hd. done.
Qed.

Lemma emits_only_for_each_in {A} P (l : list A) (f : A -> M world unit) :
  (forall x, x ∈ l -> emits_only P (f x)) -> emits_only P (for_each l f).
Proof.
  intros Hf. induction l as [|x l IH]; simpl.
  - apply emits_only_ret.
  - apply emits_only_bind.
    + apply Hf, list_elem_of_here.
    + intros _. apply IH. intros y Hy. by apply Hf, list_elem_of_further.
Qed.

Lemma uninstalls_Forall (Q : string -> Prop) t n :
  Forall (fun e => match e with
                   | Ev_uninstall_module m _ => Q m
                   | _ => True
                   end) t ->
  n ∈ uninstalls t -> Q n.
Proof.
  intros Ht Hn. unfold uninstalls in Hn.
  apply list_elem_of_omap in Hn as (e & He & Hsel).
  rewrite Forall_forall in Ht. specialize (Ht e He).
  destruct e; try done. by injection Hsel as <-.
Qed.

(** X22: [create] uninstalls nothing but catalog slots that the
    configuration marks ['exclude']: every name handed to
    [uninstall_module] is the name of such a slot. *)
Theorem only_excluded_slots_uninstalled config force dry no_validate w n :
  n ∈ uninstalls
        (trace_of (Packager.create os codes config force dry no_validate w)) ->
  exists slot,
    slot ∈ Packager.MODULES_LIST
    /\ n = Packager.get_module_name slot
    /\ default ∅ (Packager.core_modules config) !! slot = Some "exclude".
Proof.
  apply (uninstalls_Forall
           (fun n => exists slot,
                slot ∈ Packager.MODULES_LIST
                /\ n = Packager.get_module_name slot
                /\ default ∅ (Packager.core_modules config) !! slot
                   = Some "exclude")).
  revert w.
  match goal with
  | |- forall w, Forall ?P _ =>
      change (emits_only P
                (Packager.create os codes config force dry no_validate));
      set (Pu := P)
  end.
  assert (forall e, not_uninstall e -> Pu e) as Hweak.
  { intros [] He; try done. destruct He. done. }
  unfold Packager.create.
  apply emits_only_bind; [|intros [d r]].
  { destruct (platform_dist os) as [[[? ?] ?]|]; emits. }
  apply emits_only_bind; [|intros _].
  { eapply emits_only_weaken; [|apply prepare_emits]. intros e [_ ?]. auto. }
  apply (emits_only_bind_ret _
           (fun modules => Packager.core modules
                           = default ∅ (Packager.core_modules config))).
  { apply merge_modules_emits. }
  { intros w modules. rewrite merge_modules_run, result_of_mk.
    destruct (agent_of config) as [a|]; [|done]. intros [= <-]. simpl.
    by rewrite (right_id_L ∅ (∪)). }
  intros modules Hcore.
  apply emits_only_bind; [destruct dry; emits|intros _].
  apply emits_only_bind; [|intros _].
  { unfold Packager.install_all.
    apply emits_only_bind; [|intros _].
    { eapply emits_only_weaken; [exact Hweak|].
      apply emits_only_for_each. intros x. apply install_module_emits. }
    apply emits_only_bind; [|intros _].
    { eapply emits_only_weaken; [exact Hweak|].
      apply emits_only_for_each. intros x.
      unfold Packager.install_core_module.
      repeat match goal with
             | |- emits_only _ (if ?b then _ else _) => destruct b
             end; first [apply install_module_emits | apply emits_only_ret]. }
    apply emits_only_bind; [|intros _].
    { eapply emits_only_weaken; [exact Hweak|].
      apply emits_only_for_each. intros x. apply install_module_emits. }
    apply emits_only_bind; [|intros _].
    { eapply emits_only_weaken; [exact Hweak|].
      unfold Packager.install_agent.
      destruct (Packager.truthy_get _);
        [apply install_module_emits | apply emits_only_ret]. }
    unfold Packager.uninstall_excluded. apply emits_only_for_each_in.
    intros slot Hslot. unfold Packager.uninstall_excluded_module.
    destruct (Packager.core modules !! slot) as [source|] eqn:Hs; [|emits].
    destruct (String.eqb source "exclude") eqn:He; [|emits].
    apply String.eqb_eq in He as ->.
    apply emits_only_bind; [by apply check_installed_emits|].
    intros [|]; [|emits]. unfold Utils.uninstall_module.
    apply emits_only_bind; [|intros _; emits].
    apply emits_only_emit. exists slot. by rewrite <- Hcore. }
  eapply emits_only_weaken; [exact Hweak|]. apply finish_emits. auto.
Qed.

(** X23: the three passes agree on what the source of a catalog slot
    means.  ['exclude']: not installed, looked for by the exclusion
    pass, not validated.  [''] or no entry: left alone by all three.
    Any other string: installed from it, left alone by the exclusion
    pass, and validated. *)
Theorem slot_source_consistent core venv slot w :
  let install := Packager.install_core_module os codes core venv slot w in
  let uninstall :=
    Packager.uninstall_excluded_module os codes core venv slot w in
  match core !! slot with
  | None => install = (w, [], Ret tt) /\ uninstall = (w, [], Ret tt)
  | Some source =>
      (source = "exclude" ->
       install = (w, [], Ret tt)
       /\ core_checked_name (slot, source) = None
       /\ Ev_check_installed (Packager.get_module_name slot) venv
          ∈ trace_of uninstall)
      /\ (source = "" ->
          install = (w, [], Ret tt) /\ uninstall = (w, [], Ret tt)
          /\ core_checked_name (slot, source) = None)
      /\ (source <> "exclude" -> source <> "" ->
          trace_of install = [Ev_install_module source venv]
          /\ uninstall = (w, [], Ret tt)
          /\ core_checked_name (slot, source)
             = Some (Packager.get_module_name slot))
  end.
Proof.
  intros install uninstall. subst install uninstall.
  unfold Packager.install_core_module, Packager.uninstall_excluded_module,
    core_checked_name.
  destruct (core !! slot) as [source|]; [|done]. simpl.
  split; [|split].
  - intros ->. simpl. split; [done|]. split; [done|].
    rewrite bind_trace, check_installed_run, trace_of_mk.
    apply elem_of_app. left. apply list_elem_of_here.
  - by intros ->.
  - intros Hex Hne. apply String.eqb_neq in Hex. rewrite Hex.
    destruct source as [|c s]; [done|]. simpl. split; [|done].
    unfold Utils.install_module, bind, emit, Utils.run, trace_of. simpl.
    destruct (run_cmd os _ w) as [w1 p]. by destruct (negb _).
Qed.

(** X24: [MANDATORY_MODULES] is not enforced: both modules it lists are
    catalog slots, and a configuration that marks them ['exclude'] is
    accepted by [_merge_modules]; the catalog pass then skips them and
    validation does not ask for them. *)
Theorem mandatory_modules_not_enforced config a w :
  agent_of config = Some a ->
  (forall slot, slot ∈ Packager.MANDATORY_MODULES ->
     default ∅ (Packager.core_modules config) !! slot = Some "exclude") ->
  exists modules,
    Packager._merge_modules initial_modules config w = (w, [], Ret modules)
    /\ (forall slot, slot ∈ Packager.MANDATORY_MODULES ->
          slot ∈ Packager.MODULES_LIST
          /\ Packager.core modules !! slot = Some "exclude"
          /\ core_checked_name (slot, "exclude") = None
          /\ forall venv w',
               Packager.install_core_module os codes (Packager.core modules)
                 venv slot w' = (w', [], Ret tt)).
Proof.
  intros Ha Hex. eexists. rewrite merge_modules_run, Ha. split; [done|].
  simpl. rewrite (right_id_L ∅ (∪)). intros slot Hslot.
  split; [|split; [by apply Hex|split; [done|]]].
  - unfold Packager.MANDATORY_MODULES, Packager.MODULES_LIST in *.
    repeat (apply elem_of_cons in Hslot as [->|Hslot];
            [repeat first [apply list_elem_of_here
                          |apply list_elem_of_further]|]).
    by apply elem_of_nil in Hslot.
  - intros venv w'. apply install_core_module_excluded. by apply Hex.
Qed.

End Restraint.


(** ** The properties at work *)

Lemma get_module_name_normal_form_witness :
  ("_"%char ∉ Str.chars "cloudify-agent")
  /\ Packager.get_module_name "cloudify-agent" = "cloudify-agent".
Proof.
  destruct (get_module_name_normal_form "cloudify-agent")
    as (_ & _ & _ & Hfix).
  assert ("_"%char ∉ Str.chars "cloudify-agent") as Hfree.
  { intros H. unfold Str.chars in H. simpl in H.
    repeat (apply elem_of_cons in H as [H|H]; [discriminate|]).
    by apply elem_of_nil in H. }
  split; [exact Hfree|]. apply Hfix, Hfree.
Defined.

Lemma download_destination_default_witness :
  ("/"%char ∉ Str.chars "agent.tar.gz")
  /\ Download.destination_of "agent.tar.gz" "" = "agent.tar.gz"
  /\ Download.destination_of "agent.tar.gz" "out.tar.gz" = "out.tar.gz".
Proof.
  destruct (download_destination_default "agent.tar.gz")
    as (_ & _ & Hwhole & _ & Hgiven).
  assert ("/"%char ∉ Str.chars "agent.tar.gz") as Hfree.
  { intros H. unfold Str.chars in H. simpl in H.
    repeat (apply elem_of_cons in H as [H|H]; [discriminate|]).
    by apply elem_of_nil in H. }
  split; [exact Hfree|]. split; [exact (Hwhole Hfree)|].
  apply Hgiven. discriminate.
Defined.

Lemma successful_run_ends_witness :
  let run := Packager.create (stub_os false false 0) stub_codes
               example_config false false false example_listing in
  result_of run = Ret tt
  /\ exists t,
       trace_of run
       = t ++ [Ev_tar "env" "agent.tar.gz"; Ev_rmtree "env";
               Ev_get_installed "env"]
       /\ Forall (fun e => ~ is_report e) t.
Proof.
  intros run.
  assert (result_of run = Ret tt) as Hret by (vm_compute; reflexivity).
  split; [exact Hret|].
  destruct (successful_run_ends (stub_os false false 0) stub_codes
              example_config false false false example_listing
              "Ubuntu" "14.04" "trusty" eq_refl Hret) as [_ H].
  exact H.
Defined.

Lemma failed_run_keeps_environment_witness :
  let run := Packager.create (stub_os false false 1) stub_codes
               example_config false false false example_listing in
  result_of run <> Ret tt
  /\ Forall (fun e => ~ is_removal e) (trace_of run).
Proof.
  intros run.
  assert (result_of run <> Ret tt) as Hfail by (vm_compute; discriminate).
  split; [exact Hfail|].
  destruct (failed_run_keeps_environment (stub_os false false 1) stub_codes
              example_config false false example_listing) as (_ & H & _).
  exact (H Hfail).
Defined.

Lemma create_exit_codes_witness :
  let run := Packager.create (stub_os false false 1) stub_codes
               example_config false false false example_listing in
  result_of run = Exit 101
  /\ 101 ∈ [1; 2; 101; 9; 3; 102; 103; 10; 104].
Proof.
  intros run.
  assert (result_of run = Exit 101) as Hexit by (vm_compute; reflexivity).
  split; [exact Hexit|].
  exact (create_exit_codes (stub_os false false 1) stub_codes example_config
           false false false example_listing 101 Hexit).
Defined.

Lemma dry_run_witness :
  platform_dist (stub_os false false 0) = Some ("Ubuntu", "14.04", "trusty")
  /\ is_Some (agent_of example_config)
  /\ Packager.create (stub_os false false 0) stub_codes example_config
       false true false example_listing
     = (example_listing, [Ev_make_virtualenv "env" "/usr/bin/python"],
        Exit 0).
Proof.
  destruct (dry_run (stub_os false false 0) stub_codes example_config false
              false example_listing) as (_ & _ & H).
  assert (is_Some (agent_of example_config)) as Ha by (by eexists).
  destruct (H "Ubuntu" "14.04" "trusty" eq_refl) as [E _];
    [vm_compute; reflexivity|exact Ha|].
  split; [reflexivity|]. split; [exact Ha|]. exact E.
Defined.

Lemma platform_failure_exits_first_witness :
  platform_dist stub_os_unknown_platform = None
  /\ Packager.create stub_os_unknown_platform stub_codes example_config
       false false false example_listing
     = (example_listing, [], Exit 1).
Proof.
  split; [reflexivity|].
  apply (platform_failure_exits_first stub_os_unknown_platform stub_codes
           example_config false false false example_listing).
  reflexivity.
Defined.

Lemma validation_raises_iff_witness :
  ("*.whl" ∈ checked_names unparsable_modules)
  /\ rejected "*.whl"
  /\ result_of (Packager._validate (stub_os false false 0)
                  unparsable_modules "env" example_listing) = Raised.
Proof.
  assert ("*.whl" ∈ checked_names unparsable_modules) as Hin.
  { vm_compute. apply list_elem_of_here. }
  assert (rejected "*.whl") as Hp by (vm_compute; reflexivity).
  split; [exact Hin|]. split; [exact Hp|].
  destruct (validation_raises_iff (stub_os false false 0) "env"
              unparsable_modules example_listing) as (Hraises & _).
  apply Hraises. exists "*.whl". split; [exact Hin|exact Hp].
Defined.

Lemma validation_order_independent_witness :
  let entries := [("cloudify_diamond_plugin", "exclude");
                  ("cloudify_rest_client", "cloudify-rest-client==3.2")] in
  freeze_stable (stub_os false false 0) "env"
  /\ entries ≡ₚ map_to_list (Packager.core example_modules)
  /\ match result_of (_validate_failed_over (stub_os false false 0) entries
                        example_modules "env" "cloudify-agent==1.0"),
           result_of (Packager._validate_failed (stub_os false false 0)
                        example_modules "env" "cloudify-agent==1.0") with
     | Ret failed1, Ret failed2 => failed1 ≡ₚ failed2
     | Raised, Raised => True
     | _, _ => False
     end.
Proof.
  intros entries.
  assert (freeze_stable (stub_os false false 0) "env") as Hst
      by (intros w; reflexivity).
  assert (entries ≡ₚ map_to_list (Packager.core example_modules)) as Hperm.
  { vm_compute. apply perm_swap. }
  split; [exact Hst|]. split; [exact Hperm|].
  exact (validation_order_independent (stub_os false false 0) "env" entries
           example_modules "cloudify-agent==1.0" Hst Hperm).
Defined.

Lemma no_exclusion_no_listing_witness :
  (forall slot, slot ∈ Packager.MODULES_LIST ->
     default ∅ (Packager.core_modules extra_key_config) !! slot
     <> Some "exclude")
  /\ Forall (fun e => ~ is_check e)
       (trace_of (Packager.create (stub_os false false 0) stub_codes
                    extra_key_config false false true example_listing)).
Proof.
  assert (forall slot, slot ∈ Packager.MODULES_LIST ->
            default ∅ (Packager.core_modules extra_key_config) !! slot
            <> Some "exclude") as Hno.
  { intros slot H. unfold Packager.MODULES_LIST in H.
    repeat (apply elem_of_cons in H as [->|H]; [vm_compute; discriminate|]).
    by apply elem_of_nil in H. }
  split; [exact Hno|].
  destruct (no_exclusion_no_listing (stub_os false false 0) stub_codes
              extra_key_config false false example_listing Hno) as [_ H].
  exact H.
Defined.

Lemma merge_modules_general_witness :
  agent_of extra_key_config = Some "cloudify-agent==3.2"
  /\ exists modules,
       Packager._merge_modules example_modules extra_key_config ""
       = ("", [], Ret modules)
       /\ Packager.core modules !! "cloudify_diamond_plugin" = Some "exclude"
       /\ Packager.core modules !! "my_plugin" = Some "my-plugin==1.0"
       /\ Packager.additional modules = ["pyyaml"].
Proof.
  assert (agent_of extra_key_config = Some "cloudify-agent==3.2") as Ha
      by reflexivity.
  split; [exact Ha|].
  destruct (merge_modules_general example_modules extra_key_config
              "cloudify-agent==3.2" "" Ha)
    as (modules & E & Hcore & Hadd & _).
  exists modules. split; [exact E|].
  split; [rewrite Hcore; vm_compute; reflexivity|].
  split; [rewrite Hcore; vm_compute; reflexivity|].
  rewrite Hadd. reflexivity.
Defined.

Lemma agent_checked_whatever_installed_witness :
  agent_of blank_agent_config = Some ""
  /\ exists modules,
       Packager._merge_modules initial_modules blank_agent_config ""
       = ("", [], Ret modules)
       /\ "cloudify-agent" ∈ checked_names modules
       /\ Packager.install_agent (stub_os false false 0) stub_codes modules
            "env" "" = ("", [], Ret tt).
Proof.
  assert (agent_of blank_agent_config = Some "") as Ha by reflexivity.
  split; [exact Ha|].
  destruct (agent_checked_whatever_installed (stub_os false false 0)
              stub_codes blank_agent_config "" "" Ha)
    as (modules & E & Hin & H).
  exists modules. split; [exact E|]. split; [exact Hin|].
  destruct (H "env" "") as [Hblank _]. exact (Hblank eq_refl).
Defined.

Lemma archive_conflict_found_late_witness :
  let run := Packager.create (stub_os false true 0) stub_codes example_config
               false false false example_listing in
  result_of run = Exit 9
  /\ trace_of run = [Ev_make_virtualenv "env" "/usr/bin/python"]
  /\ Ev_make_virtualenv "env" "/usr/bin/python" ∈ trace_of run.
Proof.
  intros run.
  destruct (archive_conflict_found_late (stub_os false true 0) stub_codes
              example_config false false false example_listing
              "Ubuntu" "14.04" "trusty" eq_refl) as (Hr & Ht & Hin);
    [vm_compute; reflexivity..|].
  split; [exact Hr|]. split; [exact Ht|exact Hin].
Defined.

Lemma virtualenv_failure_after_removal_witness :
  returncode (run_cmd (stub_os true false 1)
                (virtualenv_cmd "env" "/usr/bin/python") example_listing).2
  <> 0
  /\ Packager.create (stub_os true false 1) stub_codes example_config true
       false false example_listing
     = (example_listing,
        [Ev_rmtree "env"; Ev_make_virtualenv "env" "/usr/bin/python"],
        Exit 101).
Proof.
  assert (returncode (run_cmd (stub_os true false 1)
                        (virtualenv_cmd "env" "/usr/bin/python")
                        example_listing).2 <> 0) as Hrc
      by (vm_compute; discriminate).
  split; [exact Hrc|].
  exact (virtualenv_failure_after_removal (stub_os true false 1) stub_codes
           example_config false false example_listing
           "Ubuntu" "14.04" "trusty" eq_refl Hrc).
Defined.

Lemma excluded_non_catalog_key_inert_witness :
  let core : gmap string string := {["my_plugin" := "exclude"]} in
  ("my_plugin" ∉ Packager.MODULES_LIST)
  /\ core !! "my_plugin" = Some "exclude"
  /\ Packager.uninstall_excluded (stub_os false false 0) stub_codes core
       "env" "my-plugin==1.0"
     = Packager.uninstall_excluded (stub_os false false 0) stub_codes
         (delete "my_plugin" core) "env" "my-plugin==1.0".
Proof.
  intros core.
  assert ("my_plugin" ∉ Packager.MODULES_LIST) as Hkey.
  { unfold Packager.MODULES_LIST. rewrite !not_elem_of_cons.
    repeat split; try discriminate. apply not_elem_of_nil. }
  assert (core !! "my_plugin" = Some "exclude") as Hex
      by (vm_compute; reflexivity).
  split; [exact Hkey|]. split; [exact Hex|].
  destruct (excluded_non_catalog_key_inert (stub_os false false 0) stub_codes
              core "my_plugin" "env" "my-plugin==1.0" Hkey Hex)
    as (_ & H & _).
  exact H.
Defined.

Lemma failed_install_stops_additional_witness :
  let os := stub_os false false 1 in
  Packager.additional example_modules = [] ++ "pyyaml" :: []
  /\ returncode (run_cmd os (pip_install_cmd "pyyaml" "env")
                   example_listing).2 <> 0
  /\ result_of (Packager.install_additional os stub_codes example_modules
                  "env" example_listing) = Exit 102
  /\ installs (trace_of (Packager.install_additional os stub_codes
                           example_modules "env" example_listing))
     = ["pyyaml"].
Proof.
  intros os.
  assert (returncode (run_cmd os (pip_install_cmd "pyyaml" "env")
                        example_listing).2 <> 0) as Hrc
      by (vm_compute; discriminate).
  split; [reflexivity|]. split; [exact Hrc|].
  exact (failed_install_stops_additional os stub_codes example_modules "env"
           [] "pyyaml" [] example_listing eq_refl eq_refl Hrc).
Defined.

Lemma no_removal_after_work_witness :
  let run := Packager.create (stub_os true true 0) stub_codes example_config
               true false false example_listing in
  result_of run <> Ret tt
  /\ exists prep rest,
       trace_of run = prep ++ rest
       /\ Forall is_prepare prep
       /\ Forall (fun e => ~ is_removal e) rest.
Proof.
  intros run.
  assert (result_of run <> Ret tt) as Hfail by (vm_compute; discriminate).
  split; [exact Hfail|].
  exact (no_removal_after_work (stub_os true true 0) stub_codes example_config
           true false false example_listing Hfail).
Defined.

Lemma only_excluded_slots_uninstalled_witness :
  let run := Packager.create (stub_os false false 0) stub_codes
               example_config false false false example_listing in
  ("cloudify-diamond-plugin" ∈ uninstalls (trace_of run))
  /\ exists slot,
       slot ∈ Packager.MODULES_LIST
       /\ "cloudify-diamond-plugin" = Packager.get_module_name slot
       /\ default ∅ (Packager.core_modules example_config) !! slot
          = Some "exclude".
Proof.
  intros run.
  assert ("cloudify-diamond-plugin" ∈ uninstalls (trace_of run)) as Hin.
  { vm_compute. apply list_elem_of_here. }
  split; [exact Hin|].
  exact (only_excluded_slots_uninstalled (stub_os false false 0) stub_codes
           example_config false false false example_listing
           "cloudify-diamond-plugin" Hin).
Defined.

Lemma slot_source_consistent_witness :
  let core := Packager.core example_modules in
  core !! "cloudify_rest_client" = Some "cloudify-rest-client==3.2"
  /\ trace_of (Packager.install_core_module (stub_os false false 0)
                 stub_codes core "env" "cloudify_rest_client" example_listing)
     = [Ev_install_module "cloudify-rest-client==3.2" "env"]
  /\ Packager.uninstall_excluded_module (stub_os false false 0) stub_codes
       core "env" "cloudify_rest_client" example_listing
     = (example_listing, [], Ret tt)
  /\ core_checked_name ("cloudify_rest_client", "cloudify-rest-client==3.2")
     = Some "cloudify-rest-client".
Proof.
  intros core.
  assert (core !! "cloudify_rest_client" = Some "cloudify-rest-client==3.2")
    as Hs by (vm_compute; reflexivity).
  split; [exact Hs|].
  pose proof (slot_source_consistent (stub_os false false 0) stub_codes core
                "env" "cloudify_rest_client" example_listing) as H.
  cbv zeta in H. rewrite Hs in H. destruct H as (_ & _ & H).
  apply H; discriminate.
Defined.

Lemma mandatory_modules_not_enforced_witness :
  let config := {|
    Packager.distribution := None;
    Packager.release := None;
    Packager.python_path := None;
    Packager.venv := Some "env";
    Packager.keep_venv := None;
    Packager.output_tar := Some "agent.tar.gz";
    Packager.core_modules :=
      Some (list_to_map [("cloudify_plugins_common", "exclude");
                         ("cloudify_rest_client", "exclude")]);
    Packager.additional_modules := None;
    Packager.cloudify_agent_module := None;
    Packager.cloudify_agent_version := Some "1.0"
  |} in
  (forall slot, slot ∈ Packager.MANDATORY_MODULES ->
     default ∅ (Packager.core_modules config) !! slot = Some "exclude")
  /\ exists modules,
       Packager._merge_modules initial_modules config ""
       = ("", [], Ret modules)
       /\ Packager.core modules !! "cloudify_plugins_common" = Some "exclude".
Proof.
  intros config.
  assert (forall slot, slot ∈ Packager.MANDATORY_MODULES ->
            default ∅ (Packager.core_modules config) !! slot = Some "exclude")
    as Hex.
  { intros slot H. unfold Packager.MANDATORY_MODULES in H.
    repeat (apply elem_of_cons in H as [->|H]; [vm_compute; reflexivity|]).
    by apply elem_of_nil in H. }
  split; [exact Hex|].
  destruct (mandatory_modules_not_enforced (stub_os false false 0) stub_codes
              config _ "" eq_refl Hex) as (modules & E & H).
  exists modules. split; [exact E|].
  apply (H "cloudify_plugins_common"). apply list_elem_of_here.
Defined.

Lemma download_file_content_witness :
  let codes := {| Download.could_not_download_file := 7 |} in
  let r := {| Download.status_code := 200;
              Download.iter_content := ["ab"; ""; "cd"];
              Download.stream_breaks := false |} in
  Download.status_code r = 200
  /\ Download.download_file codes (fun _ => true) (Some r)
       "http://host/a/agent.tar.gz" ""
     = (Some ("agent.tar.gz", "abcd"), Ret tt)
  /\ Download.download_file codes (fun _ => true) (Some r)
       "http://host/a/" ""
     = (None, Raised).
Proof.
  intros codes r.
  destruct (download_file_content codes (fun _ => true) r
              "http://host/a/agent.tar.gz" "") as [E _].
  destruct (download_file_content codes (fun _ => true) r
              "http://host/a/" "") as [_ H].
  split; [reflexivity|]. split.
  - rewrite E. vm_compute. reflexivity.
  - exact (H "http://host/a" eq_refl).
Defined.

Lemma create_trace_shape_witness :
  exists prep inst excl val fin,
    trace_of (Packager.create (stub_os false false 0) stub_codes
                example_config false false false example_listing)
    = prep ++ inst ++ excl ++ val ++ fin
    /\ Forall is_prepare prep /\ Forall is_install inst
    /\ Forall is_exclusion excl /\ Forall is_check val
    /\ Forall is_finish fin.
Proof.
  exact (create_trace_shape (stub_os false false 0) stub_codes example_config
           false false false example_listing).
Defined.

Lemma exclusion_pass_never_raises_witness :
  result_of (Packager.create (stub_os false false 0) stub_codes
               example_config false false true example_listing)
  <> Raised.
Proof.
  destruct (exclusion_pass_never_raises (stub_os false false 0) stub_codes)
    as (_ & _ & H).
  exact (H example_config false false example_listing).
Defined.

(** ** What an archive vouches for *)

Section Archive.
Context {world : Type} (os : OS world) (codes : error_codes).
Implicit Types (w : world) (config : Packager.config).

(** An event that the first part of a computation cannot have made
    comes from what follows, which has therefore been reached. *)
Lemma bind_elem {A B} (P : event -> Prop) (m : M world A)
      (k : A -> M world B) w e :
  e ∈ trace_of (bind m k w) -> ~ P e -> Forall P (trace_of (m w)) ->
  exists a, result_of (m w) = Ret a /\ e ∈ trace_of (k a (world_of (m w))).
Proof.
  rewrite bind_trace. intros [Hin|Hin]%elem_of_app Hn Hm.
  - rewrite Forall_forall in Hm. destruct Hn. by apply Hm.
  - destruct (result_of (m w)) as [a|c|]; [by exists a|..];
      by apply elem_of_nil in Hin.
Qed.

Lemma missing_nil L names :
  Forall (fun n => is_Some (Utils.listed os n L)) names ->
  missing os L names = [] ->
  Forall (fun n => Utils.listed os n L = Some true) names.
Proof.
  unfold missing. induction 1 as [|n names [b Hb] _ IH]; [done|].
  rewrite filter_cons. destruct (decide _) as [Hd|Hd]; [done|].
  intros Hnil. constructor; [|by apply IH].
  destruct b; [done|]. destruct Hd. by rewrite Hb.
Qed.

(** X25: [create] writes an archive only after everything else went
    through: when [tar] has been called the run was not a dry run,
    every planned install has been issued, and, unless validation is
    off, [_validate] has returned on the environment as the installs
    and the exclusion pass left it; against a listing that stays the
    same this means that every name validation looks for is shown. *)
Theorem archive_only_after_validation config force dry no_validate w d v r
        source destination :
  platform_dist os = Some (d, v, r) ->
  let distro := default d (Packager.distribution config) in
  let release := default r (Packager.release config) in
  let venv := Packager.venv_of config distro release in
  let python := default "/usr/bin/python" (Packager.python_path config) in
  let destination_tar := Packager.destination_tar_of config distro release in
  let run := Packager.create os codes config force dry no_validate w in
  Ev_tar source destination ∈ trace_of run ->
  exists modules,
    result_of (Packager._merge_modules initial_modules config w) = Ret modules
    /\ dry = false
    /\ installs (trace_of run) = planned_installs modules
    /\ let w1 := world_of (Packager.prepare os codes venv python
                             destination_tar force w) in
       let w2 := world_of (Packager.install_all os codes modules venv w1) in
       no_validate = false ->
       result_of (Packager._validate os modules venv w2) = Ret tt
       /\ (freeze_stable os venv ->
           Forall (fun n => Utils.listed os n (listing os venv w2) = Some true)
             (checked_names modules)).
Proof.
  intros Hd distro release venv python destination_tar run Hin. subst run.
  rewrite (create_eq _ _ _ _ _ _ _ d v r Hd) in *.
  fold distro release venv python destination_tar in Hin |- *.
  set (keep_venv := default false (Packager.keep_venv config)) in *.
  apply (bind_elem (fun e => ~ is_report e)) in Hin as ([] & Hp & Hin);
    [|simpl; tauto
     |eapply Forall_impl; [apply prepare_is_prepare|by_class]].
  set (w1 := world_of (Packager.prepare _ _ _ _ _ _ _)) in *.
  apply (bind_elem (fun e => ~ is_report e)) in Hin as (modules & Hm & Hin);
    [|simpl; tauto|by rewrite merge_modules_run].
  rewrite merge_modules_run, world_of_mk in Hin.
  apply (bind_elem (fun e => ~ is_report e)) in Hin as ([] & Hdry & Hin);
    [|simpl; tauto|by destruct dry].
  destruct dry; [done|].
  change (world_of (ret tt w1)) with w1 in Hin.
  pose proof (install_all_installs os codes modules venv w1) as [_ Hall].
  apply (bind_elem (fun e => ~ is_report e)) in Hin as ([] & Hi & Hin);
    [|simpl; tauto|apply install_all_class; by_class].
  set (w2 := world_of (Packager.install_all _ _ _ _ _)) in *.
  set (val := if negb no_validate then Packager._validate os modules venv
              else ret tt) in *.
  assert (Forall (fun e => ~ is_report e) (trace_of (val w2))) as Hvt.
  { subst val. destruct (negb no_validate); [|constructor].
    apply validate_emits. intros n v0. simpl. tauto. }
  apply (bind_elem (fun e => ~ is_report e)) in Hin as ([] & Hv & Hin);
    [|simpl; tauto|done].
  exists modules. split.
  { rewrite merge_modules_run, result_of_mk in *. done. }
  split; [done|]. split.
  { rewrite !bind_trace, Hp. fold w1. rewrite Hm, merge_modules_run.
    rewrite world_of_mk, trace_of_mk, bind_trace.
    change (result_of (ret tt w1)) with (Ret tt (A:=unit)).
    change (world_of (ret tt w1)) with w1.
    change (trace_of (ret tt w1)) with ([] : list event).
    rewrite bind_trace, Hi. fold w2. rewrite bind_trace. fold val.
    rewrite !installs_app, (Hall tt Hi).
    rewrite (installs_of_not_install (trace_of (Packager.prepare _ _ _ _ _ _ _))).
    2:{ eapply Forall_impl; [apply prepare_is_prepare|].
        intros []; unfold not_install; simpl; tauto. }
    rewrite (installs_of_not_install (trace_of (val w2))).
    2:{ subst val. destruct (negb no_validate); [|constructor].
        apply validate_emits. intros n v0. unfold not_install. simpl.
        tauto. }
    rewrite (installs_of_not_install (match result_of (val w2) with
                                      | Ret _ => _ | _ => [] end)).
    2:{ rewrite Hv. eapply Forall_impl; [apply finish_is_finish|].
        intros []; unfold not_install; simpl; tauto. }
    by rewrite !app_nil_l, !app_nil_r. }
  cbv zeta. fold w1 w2. intros ->. subst val. simpl in Hv.
  split; [exact Hv|].
  intros Hst. rewrite validate_run, result_of_mk in Hv.
  rewrite validate_failed_is_over in Hv.
  rewrite validate_failed_over_result in Hv by done.
  change (checked_names_over (map_to_list (Packager.core modules)) modules)
    with (checked_names modules) in Hv.
  destruct (decide _) as [Hall'|]; [|done].
  destruct (missing os _ _) eqn:Hmiss; [|done].
  by apply missing_nil.
Qed.

End Archive.

Lemma archive_only_after_validation_witness :
  let run := Packager.create (stub_os false false 0) stub_codes
               example_config false false false example_listing in
  (Ev_tar "env" "agent.tar.gz" ∈ trace_of run)
  /\ installs (trace_of run) = planned_installs example_modules
  /\ result_of (Packager._validate (stub_os false false 0) example_modules
                  "env" example_listing) = Ret tt.
Proof.
  intros run.
  assert (Ev_tar "env" "agent.tar.gz" ∈ trace_of run) as Hin.
  { vm_compute. do 10 apply list_elem_of_further. apply list_elem_of_here. }
  split; [exact Hin|].
  destruct (archive_only_after_validation (stub_os false false 0) stub_codes
              example_config false false false example_listing
              "Ubuntu" "14.04" "trusty" "env" "agent.tar.gz" eq_refl Hin)
    as (modules & Hm & _ & Hi & Hv).
  assert (result_of (Packager._merge_modules initial_modules example_config
                       example_listing) = Ret example_modules) as Hm'
      by (vm_compute; reflexivity).
  rewrite Hm' in Hm. injection Hm as <-.
  split; [exact Hi|]. exact (proj1 (Hv eq_refl)).
Defined.
